(** * PDFKit standard security handler: a shallow embedding

    The development follows [lib/security.js] (class [PDFSecurity] and its
    helper functions) and [lib/crypto/rc4.js].  JavaScript numbers that the
    code treats as integers are values of [Z]; the 32-bit conversions of the
    bit operators are written out.  A [Uint8Array] (and a [Buffer]) is a list
    of [Z], every store into it reducing modulo 256.  A JavaScript string is
    the list of its UTF-16 code units.  Code that may throw returns a
    [result]; code that draws random bytes threads a [RandomSource]. *)

From Stdlib Require Import ZArith List String Ascii Lia Bool DecimalString.
From stdpp Require Import base list.
Import ListNotations.

Open Scope Z_scope.

(** ** JavaScript values *)

Abbreviation Uint8Array := (list Z) (only parsing).

(** UTF-16 code units. *)
Abbreviation jsstring := (list N) (only parsing).

(** A string literal of the source, as a JavaScript string. *)
Definition lit (s : string) : jsstring :=
  map N_of_ascii (list_ascii_of_string s).

Definition is_byte (b : Z) : Prop := 0 <= b < 256.

(** The store [a[i] = v] into a [Uint8Array] keeps [v] modulo 256. *)
Definition u8 (v : Z) : Z := v mod 256.

(** [ToInt32] of ECMAScript, on integers. *)
Definition ToInt32 (x : Z) : Z := (x + 2 ^ 31) mod 2 ^ 32 - 2 ^ 31.

(** [a & b], [a | b], [a ^ b] and [a >> n]. *)
Definition js_and (a b : Z) : Z := ToInt32 (Z.land (ToInt32 a) (ToInt32 b)).
Definition js_or (a b : Z) : Z := ToInt32 (Z.lor (ToInt32 a) (ToInt32 b)).
Definition js_xor (a b : Z) : Z := ToInt32 (Z.lxor (ToInt32 a) (ToInt32 b)).
Definition js_shr (a n : Z) : Z := ToInt32 (Z.shiftr (ToInt32 a) (n mod 32)).

(** [a.slice(start, end)] of a typed array, for integer arguments. *)
Definition slice (a : Uint8Array) (start end_ : Z) : Uint8Array :=
  let len := Z.of_nat (length a) in
  let k := if start <? 0 then Z.max (len + start) 0 else Z.min start len in
  let final := if end_ <? 0 then Z.max (len + end_) 0 else Z.min end_ len in
  take (Z.to_nat (final - k)) (drop (Z.to_nat k) a).

(** [for (let i = 0; i < n; i++) body], the loop state passed along. *)
Definition for_range {S : Type} (n : nat) (body : nat -> S -> S) (s : S) : S :=
  fold_left (fun acc i => body i acc) (seq 0 n) s.

(** ** Thrown errors *)

Inductive exn : Type :=
| JsError (message : string)   (* [throw new Error(message)] *)
| TypeError                    (* a property read or a call on [undefined] *)
| URIError                     (* [encodeURIComponent] on a lone surrogate *)
| RangeError                   (* [TypedArray.prototype.set] past the end *)
| LibraryError.                (* thrown inside an imported library *)

Inductive result (A : Type) : Type :=
| Ok (a : A)
| Throw (e : exn).
Arguments Ok {A} a.
Arguments Throw {A} e.

Definition result_bind {A B} (r : result A) (k : A -> result B) : result B :=
  match r with
  | Ok a => k a
  | Throw e => Throw e
  end.

(** ** The random source

    [randomBytes] of [lib/crypto/random.js] fills a fresh [Uint8Array] from the
    platform's generator.  The generator is an unbounded tape of values and a
    cursor: each call reads the next [length] cells and moves the cursor. *)

Record RandomSource : Type := mkRandom {
  tape : nat -> Z;
  cursor : nat
}.

Definition tape_segment (r : RandomSource) (start len : nat) : Uint8Array :=
  map (fun k => u8 (tape r k)) (seq start len).

(** Computations that may draw random bytes and may throw. *)
Definition M (A : Type) : Type := RandomSource -> result (A * RandomSource).

Definition ret {A} (a : A) : M A := fun r => Ok (a, r).

Definition bind {A B} (m : M A) (k : A -> M B) : M B :=
  fun r =>
    match m r with
    | Ok (a, r') => k a r'
    | Throw e => Throw e
    end.

Definition lift {A} (x : result A) : M A :=
  fun r =>
    match x with
    | Ok a => Ok (a, r)
    | Throw e => Throw e
    end.

Notation "'do' x <- c1 ; c2" := (bind c1 (fun x => c2))
  (at level 10, x name, c1 at level 100, c2 at level 200).

Definition randomBytes (length : nat) : M Uint8Array :=
  fun r =>
    Ok (tape_segment r (cursor r) length,
        mkRandom (tape r) (cursor r + length)%nat).

(** ** [lib/crypto/rc4.js] *)

(** [[s[i], s[j]] = [s[j], s[i]]]: both reads happen before the two stores. *)
Definition swap (s : Uint8Array) (i j : nat) : Uint8Array :=
  let si := default 0 (s !! i) in
  let sj := default 0 (s !! j) in
  <[j := si]> (<[i := sj]> s).

(** [key[i % key.length]]; [undefined] for an empty key, which makes the sum
    [NaN] and [NaN & 0xff] zero. *)
Definition rc4_schedule_step (key : Uint8Array) (i : nat) (st : Z * Uint8Array)
  : Z * Uint8Array :=
  let '(j, s) := st in
  let si := default 0 (s !! i) in
  let j :=
    match key !! (i mod length key)%nat with
    | Some k => js_and (j + si + k) 255
    | None => 0
    end in
  (j, swap s i (Z.to_nat j)).

Definition rc4_output_step (data : Uint8Array) (k : nat)
  (st : Z * Z * Uint8Array * Uint8Array) : Z * Z * Uint8Array * Uint8Array :=
  let '(i, j, s, output) := st in
  let i := js_and (i + 1) 255 in
  let j := js_and (j + default 0 (s !! Z.to_nat i)) 255 in
  let s := swap s (Z.to_nat i) (Z.to_nat j) in
  let si := default 0 (s !! Z.to_nat i) in
  let sj := default 0 (s !! Z.to_nat j) in
  let x := default 0 (s !! Z.to_nat (js_and (si + sj) 255)) in
  (i, j, s, <[k := u8 (js_xor (default 0 (data !! k)) x)]> output).

Definition rc4 (data key : Uint8Array) : Uint8Array :=
  let s := for_range 256 (fun i s => <[i := u8 (Z.of_nat i)]> s)
             (replicate 256 0) in
  let '(_, s) := for_range 256 (rc4_schedule_step key) (0, s) in
  let output := replicate (length data) 0 in
  let '(_, _, _, output) :=
    for_range (length data) (rc4_output_step data) (0, 0, s, output) in
  output.

Definition bytes_of_string (s : string) : Uint8Array :=
  map (fun c => Z.of_N (N_of_ascii c)) (list_ascii_of_string s).

Example rc4_known_answer :
  rc4 (bytes_of_string "Plaintext") (bytes_of_string "Key")
  = [0xbb; 0xf3; 0x16; 0xe8; 0xd9; 0x40; 0xaf; 0x0a; 0xd3].
Proof. vm_compute. reflexivity. Qed.

(** ** Imported libraries

    [js-md5], [@noble/hashes] and [@noble/ciphers] are packages the repository
    imports, and [lib/saslprep] is a module of its own with the tables of
    RFC 3454: their functions are the fields of [CryptoLib], and what the code
    relies on is stated in [CryptoLaws]. [md5.arrayBuffer] takes a string or a
    byte array. *)

Inductive md5_input : Type :=
| MString (s : jsstring)
| MBytes (b : Uint8Array).

Class CryptoLib : Type := {
  (** [md5.arrayBuffer(data)] of js-md5 *)
  md5_arrayBuffer : md5_input -> Uint8Array;
  (** [sha256(data)] of @noble/hashes *)
  sha256 : Uint8Array -> Uint8Array;
  (** [cbc(key, iv, { disablePadding }).encrypt(data)] of @noble/ciphers *)
  cbc_encrypt : Uint8Array -> Uint8Array -> bool -> Uint8Array -> result Uint8Array;
  (** [ecb(key, { disablePadding }).encrypt(data)] of @noble/ciphers *)
  ecb_encrypt : Uint8Array -> bool -> Uint8Array -> result Uint8Array;
  (** [saslprep(password)] of lib/saslprep *)
  saslprep : jsstring -> result jsstring
}.

Definition aes_key_length (key : Uint8Array) : Prop :=
  length key = 16%nat \/ length key = 24%nat \/ length key = 32%nat.

Class CryptoLaws (C : CryptoLib) : Prop := {
  md5_length : forall d, length (md5_arrayBuffer d) = 16%nat;
  md5_is_byte : forall d, Forall is_byte (md5_arrayBuffer d);
  sha256_length : forall d, length (sha256 d) = 32%nat;
  cbc_padded : forall key iv data,
    aes_key_length key -> length iv = 16%nat ->
    exists out, cbc_encrypt key iv false data = Ok out /\
      length out = ((length data / 16 + 1) * 16)%nat;
  cbc_unpadded : forall key iv data,
    aes_key_length key -> length iv = 16%nat ->
    (length data mod 16 = 0)%nat ->
    exists out, cbc_encrypt key iv true data = Ok out /\
      length out = length data;
  ecb_unpadded : forall key data,
    aes_key_length key -> (length data mod 16 = 0)%nat ->
    exists out, ecb_encrypt key true data = Ok out /\
      length out = length data
}.

Section Security.

Context {C : CryptoLib}.

(** [lib/crypto/md5.js], [lib/crypto/sha256.js], [lib/crypto/aes.js] *)

Definition md5Hash (data : md5_input) : Uint8Array := md5_arrayBuffer data.

Definition sha256Hash (data : Uint8Array) : Uint8Array := sha256 data.

Definition aesCbcEncrypt (data key iv : Uint8Array) (padding : bool)
  : result Uint8Array :=
  cbc_encrypt key iv (negb padding) data.

Definition aesEcbEncrypt (data key : Uint8Array) : result Uint8Array :=
  ecb_encrypt key true data.

(** [concatBytes] of @noble/hashes/utils is list concatenation. *)

(** ** Passwords *)

Definition PASSWORD_PADDING : Uint8Array :=
  [0x28; 0xbf; 0x4e; 0x5e; 0x4e; 0x75; 0x8a; 0x41; 0x64; 0x00; 0x4e; 0x56; 0xff;
   0xfa; 0x01; 0x08; 0x2e; 0x2e; 0x00; 0xb6; 0xd0; 0x68; 0x3e; 0x80; 0x2f; 0x0c;
   0xa9; 0xfe; 0x64; 0x53; 0x69; 0x7a].

Definition invalid_password_message : string :=
  "Password contains one or more invalid characters.".

(** The first loop of [processPasswordR2R3R4]: [index] runs from 0 while
    [index < length && index < 32]; a code above 0xff throws. *)
Fixpoint copy_password (password : jsstring) (index : nat) (fuel : nat)
  (out : Uint8Array) : result (nat * Uint8Array) :=
  match fuel with
  | O => Ok (index, out)
  | S fuel' =>
      if (index <? length password)%nat && (index <? 32)%nat then
        let code := default 0%N (password !! index) in
        if (0xff <? code)%N then Throw (JsError invalid_password_message)
        else copy_password password (S index) fuel'
               (<[index := u8 (Z.of_N code)]> out)
      else Ok (index, out)
  end.

(** The second loop: [while (index < 32)]. *)
Fixpoint pad_password (length : nat) (index : nat) (fuel : nat) (out : Uint8Array)
  : Uint8Array :=
  match fuel with
  | O => out
  | S fuel' =>
      if (index <? 32)%nat then
        pad_password length (S index) fuel'
          (<[index := u8 (default 0 (PASSWORD_PADDING !! (index - length)%nat))]>
             out)
      else out
  end.

(** Both loops stop before [index] reaches 33, so 33 rounds of fuel are never
    used up. *)
Definition processPasswordR2R3R4 (password : option jsstring) : result Uint8Array :=
  let password := default [] password in
  let out := replicate 32 0 in
  let length := length password in
  match copy_password password 0 33 out with
  | Throw e => Throw e
  | Ok (index, out) => Ok (pad_password length index 33 out)
  end.

(** UTF-8 of one code point. *)
Definition utf8_of_code_point (cp : N) : Uint8Array :=
  let cp := Z.of_N cp in
  if cp <? 0x80 then [cp]
  else if cp <? 0x800 then [0xc0 + cp / 64; 0x80 + cp mod 64]
  else if cp <? 0x10000 then
    [0xe0 + cp / 4096; 0x80 + (cp / 64) mod 64; 0x80 + cp mod 64]
  else
    [0xf0 + (cp / 262144) mod 8; 0x80 + (cp / 4096) mod 64;
     0x80 + (cp / 64) mod 64; 0x80 + cp mod 64].

(** [unescape(encodeURIComponent(s))]: the UTF-8 bytes of [s], one character
    per byte; [encodeURIComponent] throws on a surrogate without its pair. *)
Fixpoint utf8_binary_string (s : jsstring) : result Uint8Array :=
  match s with
  | [] => Ok []
  | c :: rest =>
      if ((c <? 0xD800) || (0xDFFF <? c))%N then
        result_bind (utf8_binary_string rest)
          (fun r => Ok (utf8_of_code_point c ++ r))
      else if (0xDC00 <=? c)%N then Throw URIError
      else
        match rest with
        | d :: rest' =>
            if ((0xDC00 <=? d) && (d <=? 0xDFFF))%N then
              result_bind (utf8_binary_string rest')
                (fun r =>
                   Ok (utf8_of_code_point
                         ((c - 0xD800) * 0x400 + (d - 0xDC00) + 0x10000)%N
                       ++ r))
            else Throw URIError
        | [] => Throw URIError
        end
  end.

Definition processPasswordR5 (password : option jsstring) : result Uint8Array :=
  let password := default [] password in
  result_bind (saslprep password) (fun prepared =>
  result_bind (utf8_binary_string prepared) (fun password =>
  let length := Nat.min 127 (length password) in
  Ok (for_range length
        (fun i out => <[i := u8 (default 0 (password !! i))]> out)
        (replicate length 0)))).

(** ** Permissions *)

(** The values an option may hold, as far as the code tells them apart. *)
Inductive JsValue : Type :=
| JUndefined
| JBool (b : bool)
| JString (s : jsstring).

(** [if (v)] *)
Definition truthy (v : JsValue) : bool :=
  match v with
  | JUndefined => false
  | JBool b => b
  | JString [] => false
  | JString (_ :: _) => true
  end.

(** [v === 'literal'] *)
Definition strict_equal (v : JsValue) (s : string) : bool :=
  match v with
  | JString t => bool_decide (t = lit s)
  | _ => false
  end.

Record Permissions : Type := {
  printing : JsValue;
  modifying : JsValue;
  copying : JsValue;
  annotating : JsValue;
  fillingForms : JsValue;
  contentAccessibility : JsValue;
  documentAssembly : JsValue
}.

(** [{}] *)
Definition no_permissions : Permissions :=
  {| printing := JUndefined; modifying := JUndefined; copying := JUndefined;
     annotating := JUndefined; fillingForms := JUndefined;
     contentAccessibility := JUndefined; documentAssembly := JUndefined |}.

(** [if (cond) { permissions |= mask; }] *)
Definition or_if (cond : bool) (mask permissions : Z) : Z :=
  if cond then js_or permissions mask else permissions.

Definition getPermissionsR2 (permissionObject : option Permissions) : Z :=
  let permissionObject := default no_permissions permissionObject in
  let permissions := js_shr 0xffffffc0 0 in
  let permissions := or_if (truthy (printing permissionObject)) 4 permissions in
  let permissions := or_if (truthy (modifying permissionObject)) 8 permissions in
  let permissions := or_if (truthy (copying permissionObject)) 16 permissions in
  let permissions :=
    or_if (truthy (annotating permissionObject)) 32 permissions in
  permissions.

(** The masks are [0b000000000100], [0b100000000100], [0b000000001000],
    [0b000000010000], [0b000000100000], [0b000100000000], [0b001000000000]
    and [0b010000000000]. *)
Definition getPermissionsR3 (permissionObject : option Permissions) : Z :=
  let permissionObject := default no_permissions permissionObject in
  let permissions := js_shr 0xfffff0c0 0 in
  let permissions :=
    or_if (strict_equal (printing permissionObject) "lowResolution") 4
      permissions in
  let permissions :=
    or_if (strict_equal (printing permissionObject) "highResolution") 2052
      permissions in
  let permissions := or_if (truthy (modifying permissionObject)) 8 permissions in
  let permissions := or_if (truthy (copying permissionObject)) 16 permissions in
  let permissions :=
    or_if (truthy (annotating permissionObject)) 32 permissions in
  let permissions :=
    or_if (truthy (fillingForms permissionObject)) 256 permissions in
  let permissions :=
    or_if (truthy (contentAccessibility permissionObject)) 512 permissions in
  let permissions :=
    or_if (truthy (documentAssembly permissionObject)) 1024 permissions in
  permissions.

(** ** Entries of revisions 2 to 4 *)

(** [new Uint8Array([b0, b1, ...])] *)
Definition uint8_array (l : list Z) : Uint8Array := map u8 l.

(** [target.set(source, offset)] *)
Definition uint8_set (target source : Uint8Array) (offset : nat) : result Uint8Array :=
  if (length target <? offset + length source)%nat then Throw RangeError
  else Ok (take offset target ++ source
           ++ drop (offset + length source) target).

(** The inner loop [xorKey[j] = key[j] ^ i] over a fresh array of [len]
    bytes; [key[j]] past the end of [key] is [undefined], and
    [undefined ^ i] is [i]. *)
Definition xor_key (key : Uint8Array) (len : nat) (i : nat) : Uint8Array :=
  for_range len
    (fun j xorKey =>
       <[j := u8 (js_xor (default 0 (key !! j)) (Z.of_nat i))]> xorKey)
    (replicate len 0).

Definition getUserPasswordR2 (encryptionKey : Uint8Array) : result Uint8Array :=
  result_bind (processPasswordR2R3R4 None) (fun padding =>
  Ok (rc4 padding encryptionKey)).

Definition getUserPasswordR3R4 (documentId encryptionKey : Uint8Array)
  : result Uint8Array :=
  let key := slice encryptionKey 0 (Z.of_nat (length encryptionKey)) in
  result_bind (processPasswordR2R3R4 None) (fun padding =>
  let cipher := md5Hash (MBytes (padding ++ documentId)) in
  let cipher :=
    for_range 20
      (fun i cipher => rc4 cipher (xor_key encryptionKey (length key) i))
      cipher in
  let result := replicate 32 0 in
  uint8_set result cipher 0).

Definition getOwnerPasswordR2R3R4 (r keyBits : Z)
  (paddedUserPassword paddedOwnerPassword : Uint8Array) : Uint8Array :=
  let digest := paddedOwnerPassword in
  let round := if 3 <=? r then 51%nat else 1%nat in
  let digest := for_range round (fun _ digest => md5Hash (MBytes digest)) digest in
  let keyLen := keyBits / 8 in
  let key := slice digest 0 keyLen in
  let cipher := paddedUserPassword in
  let round := if 3 <=? r then 20%nat else 1%nat in
  for_range round
    (fun i cipher => rc4 cipher (xor_key key (Z.to_nat keyLen) i))
    cipher.

Definition getEncryptionKeyR2R3R4 (r keyBits : Z)
  (documentId paddedUserPassword ownerPasswordEntry : Uint8Array) (permissions : Z)
  : Uint8Array :=
  let permBytes :=
    uint8_array
      [js_and permissions 0xff;
       js_and (js_shr permissions 8) 0xff;
       js_and (js_shr permissions 16) 0xff;
       js_and (js_shr permissions 24) 0xff] in
  let key :=
    paddedUserPassword ++ ownerPasswordEntry ++ permBytes ++ documentId in
  let round := if 3 <=? r then 51%nat else 1%nat in
  let keyLen := keyBits / 8 in
  for_range round (fun _ key => slice (md5Hash (MBytes key)) 0 keyLen) key.

(** ** Entries of revision 5 *)

Definition getUserPasswordR5 (processedUserPassword : Uint8Array)
  (generateRandomWordArray : nat -> M Uint8Array) : M Uint8Array :=
  do validationSalt <- generateRandomWordArray 8%nat;
  do keySalt <- generateRandomWordArray 8%nat;
  let hash := sha256Hash (processedUserPassword ++ validationSalt) in
  ret (hash ++ validationSalt ++ keySalt).

Definition getUserEncryptionKeyR5
  (processedUserPassword userKeySalt encryptionKey : Uint8Array) : result Uint8Array :=
  let key := sha256Hash (processedUserPassword ++ userKeySalt) in
  let iv := replicate 16 0 in
  aesCbcEncrypt encryptionKey key iv false.

Definition getOwnerPasswordR5 (processedOwnerPassword userPasswordEntry : Uint8Array)
  (generateRandomWordArray : nat -> M Uint8Array) : M Uint8Array :=
  do validationSalt <- generateRandomWordArray 8%nat;
  do keySalt <- generateRandomWordArray 8%nat;
  let hash :=
    sha256Hash (processedOwnerPassword ++ validationSalt ++ userPasswordEntry) in
  ret (hash ++ validationSalt ++ keySalt).

Definition getOwnerEncryptionKeyR5
  (processedOwnerPassword ownerKeySalt userPasswordEntry encryptionKey : Uint8Array)
  : result Uint8Array :=
  let key :=
    sha256Hash (processedOwnerPassword ++ ownerKeySalt ++ userPasswordEntry) in
  let iv := replicate 16 0 in
  aesCbcEncrypt encryptionKey key iv false.

Definition getEncryptionKeyR5 (generateRandomWordArray : nat -> M Uint8Array)
  : M Uint8Array :=
  generateRandomWordArray 32%nat.

Definition getEncryptedPermissionsR5 (permissions : Z) (encryptionKey : Uint8Array)
  (generateRandomWordArray : nat -> M Uint8Array) : M Uint8Array :=
  let data := replicate 16 0 in
  let data := <[0%nat := u8 (js_and permissions 0xff)]> data in
  let data := <[1%nat := u8 (js_and (js_shr permissions 8) 0xff)]> data in
  let data := <[2%nat := u8 (js_and (js_shr permissions 16) 0xff)]> data in
  let data := <[3%nat := u8 (js_and (js_shr permissions 24) 0xff)]> data in
  let data := <[4%nat := u8 0xff]> data in
  let data := <[5%nat := u8 0xff]> data in
  let data := <[6%nat := u8 0xff]> data in
  let data := <[7%nat := u8 0xff]> data in
  let data := <[8%nat := u8 0x54]> data in
  let data := <[9%nat := u8 0x61]> data in
  let data := <[10%nat := u8 0x64]> data in
  let data := <[11%nat := u8 0x62]> data in
  do randomPart <- generateRandomWordArray 4%nat;
  do data <- lift (uint8_set data randomPart 12);
  lift (aesEcbEncrypt data encryptionKey).

(** ** The encryption dictionary and the handler *)

(** The values stored in the encryption dictionary.  A JavaScript object is the
    list of its properties in insertion order. *)
#[local] Set Warnings "-register-all".
Inductive PDFValue : Type :=
| VString (s : jsstring)
| VNumber (n : Z)
| VBuffer (b : Uint8Array)
| VObject (properties : list (string * PDFValue)).

Definition Dict := list (string * PDFValue).

(** [dict.key] *)
Fixpoint get_property (key : string) (dict : Dict) : option PDFValue :=
  match dict with
  | [] => None
  | (k, v) :: rest => if String.eqb k key then Some v else get_property key rest
  end.

(** [dict.key = value] *)
Fixpoint set_property (key : string) (value : PDFValue) (dict : Dict) : Dict :=
  match dict with
  | [] => [(key, value)]
  | (k, v) :: rest =>
      if String.eqb k key then (k, value) :: rest
      else (k, v) :: set_property key value rest
  end.

(** What the handler reads of the document. *)
Record Document : Type := { _id : Uint8Array }.

Record Options : Type := {
  ownerPassword : option jsstring;
  userPassword : option jsstring;
  pdfVersion : option jsstring;
  permissions : option Permissions
}.

(** Truthiness of a password option: present and not the empty string. *)
Definition given (password : option jsstring) : bool :=
  match password with
  | Some (_ :: _) => true
  | _ => false
  end.

(** The fields of a [PDFSecurity] instance; [dictionary] holds the data of the
    reference [document.ref(encDict)]. *)
Record PDFSecurity : Type := {
  version : Z;
  keyBits : Z;
  encryptionKey : Uint8Array;
  dictionary : Dict
}.

Definition generateRandomWordArray (bytes : nat) : M Uint8Array :=
  randomBytes bytes.

(** [_setupEncryptionV1V2V4] returns the [keyBits] and [encryptionKey] it
    assigns on [this], and the dictionary it fills.  The [switch] has no
    default: for another [v] the three variables stay [undefined], which the
    arithmetic below reads as 0; [_setupEncryption] passes 1, 2 or 4 only.
    [keyBits] is 40 or 128 here and 256 under version 5, so that the
    quotient [keyBits / 8] is exact. *)
Definition _setupEncryptionV1V2V4 (document : Document) (v : Z)
  (encDict : Dict) (options : Options) : result (Z * Uint8Array * Dict) :=
  let '(r, keyBits, permissions) :=
    match v with
    | 1 => (2, 40, getPermissionsR2 (permissions options))
    | 2 => (3, 128, getPermissionsR3 (permissions options))
    | 4 => (4, 128, getPermissionsR3 (permissions options))
    | _ => (0, 0, 0)
    end in
  result_bind (processPasswordR2R3R4 (userPassword options))
    (fun paddedUserPassword =>
  result_bind
    (if given (ownerPassword options)
     then processPasswordR2R3R4 (ownerPassword options)
     else Ok paddedUserPassword)
    (fun paddedOwnerPassword =>
  let ownerPasswordEntry :=
    getOwnerPasswordR2R3R4 r keyBits paddedUserPassword paddedOwnerPassword in
  let encryptionKey :=
    getEncryptionKeyR2R3R4 r keyBits (_id document) paddedUserPassword
      ownerPasswordEntry permissions in
  result_bind
    (if r =? 2 then getUserPasswordR2 encryptionKey
     else getUserPasswordR3R4 (_id document) encryptionKey)
    (fun userPasswordEntry =>
  let encDict := set_property "V" (VNumber v) encDict in
  let encDict :=
    if 2 <=? v then set_property "Length" (VNumber keyBits) encDict
    else encDict in
  let encDict :=
    if v =? 4 then
      let encDict :=
        set_property "CF"
          (VObject
             [("StdCF"%string,
               VObject [("AuthEvent"%string, VString (lit "DocOpen"));
                        ("CFM"%string, VString (lit "AESV2"));
                        ("Length"%string, VNumber (keyBits / 8))])])
          encDict in
      let encDict := set_property "StmF" (VString (lit "StdCF")) encDict in
      set_property "StrF" (VString (lit "StdCF")) encDict
    else encDict in
  let encDict := set_property "R" (VNumber r) encDict in
  let encDict := set_property "O" (VBuffer ownerPasswordEntry) encDict in
  let encDict := set_property "U" (VBuffer userPasswordEntry) encDict in
  let encDict := set_property "P" (VNumber permissions) encDict in
  Ok (keyBits, encryptionKey, encDict)))).

Definition _setupEncryptionV5 (encDict : Dict) (options : Options)
  : M (Z * Uint8Array * Dict) :=
  let keyBits := 256 in
  let permissions := getPermissionsR3 (permissions options) in
  do processedUserPassword <- lift (processPasswordR5 (userPassword options));
  do processedOwnerPassword <-
    lift (if given (ownerPassword options)
          then processPasswordR5 (ownerPassword options)
          else Ok processedUserPassword);
  do encryptionKey <- getEncryptionKeyR5 generateRandomWordArray;
  do userPasswordEntry <-
    getUserPasswordR5 processedUserPassword generateRandomWordArray;
  let userKeySalt := slice userPasswordEntry 40 48 in
  do userEncryptionKeyEntry <-
    lift (getUserEncryptionKeyR5 processedUserPassword userKeySalt
            encryptionKey);
  do ownerPasswordEntry <-
    getOwnerPasswordR5 processedOwnerPassword userPasswordEntry
      generateRandomWordArray;
  let ownerKeySalt := slice ownerPasswordEntry 40 48 in
  do ownerEncryptionKeyEntry <-
    lift (getOwnerEncryptionKeyR5 processedOwnerPassword ownerKeySalt
            userPasswordEntry encryptionKey);
  do permsEntry <-
    getEncryptedPermissionsR5 permissions encryptionKey
      generateRandomWordArray;
  let encDict := set_property "V" (VNumber 5) encDict in
  let encDict := set_property "Length" (VNumber keyBits) encDict in
  let encDict :=
    set_property "CF"
      (VObject
         [("StdCF"%string,
           VObject [("AuthEvent"%string, VString (lit "DocOpen"));
                    ("CFM"%string, VString (lit "AESV3"));
                    ("Length"%string, VNumber (keyBits / 8))])])
      encDict in
  let encDict := set_property "StmF" (VString (lit "StdCF")) encDict in
  let encDict := set_property "StrF" (VString (lit "StdCF")) encDict in
  let encDict := set_property "R" (VNumber 5) encDict in
  let encDict := set_property "O" (VBuffer ownerPasswordEntry) encDict in
  let encDict := set_property "OE" (VBuffer ownerEncryptionKeyEntry) encDict in
  let encDict := set_property "U" (VBuffer userPasswordEntry) encDict in
  let encDict := set_property "UE" (VBuffer userEncryptionKeyEntry) encDict in
  let encDict := set_property "P" (VNumber permissions) encDict in
  let encDict := set_property "Perms" (VBuffer permsEntry) encDict in
  ret (keyBits, encryptionKey, encDict).

(** [options.pdfVersion === 'literal'], as the [switch] compares. *)
Definition version_is (options : Options) (s : string) : bool :=
  match pdfVersion options with
  | Some t => bool_decide (t = lit s)
  | None => false
  end.

(** The second [switch] has no default either; the first one yields 1, 2, 4
    or 5 only. *)
Definition _setupEncryption (document : Document) (options : Options)
  : M PDFSecurity :=
  let version :=
    if version_is options "1.4" || version_is options "1.5" then 2
    else if version_is options "1.6" || version_is options "1.7" then 4
    else if version_is options "1.7ext3" then 5
    else 1 in
  let encDict := [("Filter"%string, VString (lit "Standard"))] in
  do setup <-
    match version with
    | 1 | 2 | 4 =>
        lift (_setupEncryptionV1V2V4 document version encDict options)
    | 5 => _setupEncryptionV5 encDict options
    | _ => ret (0, [], encDict)
    end;
  let '(keyBits, encryptionKey, encDict) := setup in
  ret {| version := version; keyBits := keyBits;
         encryptionKey := encryptionKey; dictionary := encDict |}.

Definition no_password_message : string :=
  "None of owner password and user password is defined.".

(** [new PDFSecurity(document, options)] *)
Definition PDFSecurity_new (document : Document) (options : Options)
  : M PDFSecurity :=
  if negb (given (ownerPassword options)) && negb (given (userPassword options))
  then lift (Throw (JsError no_password_message))
  else _setupEncryption document options.

(** [PDFSecurity.create(document, options)]; [None] is [null]. *)
Definition create (document : Document) (options : Options)
  : M (option PDFSecurity) :=
  if negb (given (ownerPassword options)) && negb (given (userPassword options))
  then ret None
  else do security <- PDFSecurity_new document options; ret (Some security).

(** ** The per-object encryptor

    [getEncryptFn] returns a function; calling that function is again a
    computation, so that a random draw inside it would show. [digest] is
    assigned under [version < 5] and read under versions 1, 2 and 4 only. *)
Definition getEncryptFn (this : PDFSecurity) (obj gen : Z)
  : M (Uint8Array -> M Uint8Array) :=
  let suffix :=
    uint8_array
      [js_and obj 0xff;
       js_and (js_shr obj 8) 0xff;
       js_and (js_shr obj 16) 0xff;
       js_and gen 0xff;
       js_and (js_shr gen 8) 0xff] in
  let digest := encryptionKey this ++ suffix in
  if (version this =? 1) || (version this =? 2) then
    let key := md5Hash (MBytes digest) in
    let keyLen := Z.min 16 (keyBits this / 8 + 5) in
    let key := slice key 0 keyLen in
    ret (fun buffer => ret (rc4 buffer key))
  else
    let key :=
      if version this =? 4 then
        let saltMarker := uint8_array [0x73; 0x41; 0x6c; 0x54] in
        md5Hash (MBytes (digest ++ saltMarker))
      else encryptionKey this in
    do iv <- generateRandomWordArray 16%nat;
    ret (fun buffer =>
           do encrypted <- lift (aesCbcEncrypt buffer key iv true);
           ret (iv ++ encrypted)).

(** ** The file identifier *)

(** A value of the info dictionary: a string, or a [Date] with its time value
    ([None] for the [NaN] of an invalid date). *)
Inductive InfoValue : Type :=
| IString (s : jsstring)
| IDate (time : option Z).

(** The own enumerable properties of [info], an object whose prototype is
    [Object.prototype], in the order [for ... in] visits them. *)
Definition Info := list (jsstring * InfoValue).

(** [info[key]] *)
Fixpoint info_get (key : jsstring) (info : Info) : option InfoValue :=
  match info with
  | [] => None
  | (k, v) :: rest =>
      if bool_decide (k = key) then Some v else info_get key rest
  end.

(** A number in a template literal; time values are integers or [NaN]. *)
Definition number_to_string (n : option Z) : jsstring :=
  match n with
  | Some z => lit (NilZero.string_of_int (Z.to_int z))
  | None => lit "NaN"
  end.

(** [`${value.valueOf()}`] *)
Definition value_to_string (value : InfoValue) : jsstring :=
  match value with
  | IString s => s
  | IDate t => number_to_string t
  end.

Definition newline : jsstring := [10%N].

(** [info.hasOwnProperty(key)].  The method is looked up on [info] itself
    first: an own property named [hasOwnProperty] hides the method of
    [Object.prototype], and its value, a string or a date, is not a function,
    so that the call throws a [TypeError].  The method of [Object.prototype]
    tells whether [key] is an own property. *)
Definition hasOwnProperty (info : Info) (key : jsstring) : result bool :=
  match info_get (lit "hasOwnProperty") info with
  | Some _ => Throw TypeError
  | None =>
      Ok (match info_get key info with Some _ => true | None => false end)
  end.

(** The body of the [for (let key in info)] loop, over the remaining keys:
    a key that is not an own property is passed over by [continue], and
    [info[key].valueOf()] throws when [info[key]] is [undefined]. *)
Fixpoint append_info (info : Info) (keys : list jsstring) (infoStr : jsstring)
  : result jsstring :=
  match keys with
  | [] => Ok infoStr
  | key :: keys' =>
      match hasOwnProperty info key with
      | Throw e => Throw e
      | Ok false => append_info info keys' infoStr
      | Ok true =>
          match info_get key info with
          | Some value =>
              append_info info keys'
                (infoStr ++ key ++ lit ": " ++ value_to_string value
                 ++ newline)
          | None => Throw TypeError
          end
      end
  end.

(** [PDFSecurity.generateFileID(info)]; [info.CreationDate.getTime()] throws
    when the property is missing or is not a [Date], and the loop throws at
    its first key when [info.hasOwnProperty] is not a function. *)
Definition generateFileID (info : Info) : result Uint8Array :=
  match info_get (lit "CreationDate") info with
  | Some (IDate time) =>
      let infoStr := number_to_string time ++ newline in
      result_bind (append_info info (map fst info) infoStr) (fun infoStr =>
      Ok (md5Hash (MString infoStr)))
  | _ => Throw TypeError
  end.

End Security.

(** * Properties *)

(** ** Integer operations *)

Ltac simpl_pow :=
  change (2 ^ 8) with 256 in *;
  change (2 ^ 31) with 2147483648 in *;
  change (2 ^ 32) with 4294967296 in *.

Lemma ToInt32_small (x : Z) : - 2 ^ 31 <= x < 2 ^ 31 -> ToInt32 x = x.
Proof.
  intros H. unfold ToInt32. simpl_pow.
  rewrite Z.mod_small by lia. lia.
Qed.

Lemma ToInt32_range (x : Z) : - 2 ^ 31 <= ToInt32 x < 2 ^ 31.
Proof.
  unfold ToInt32. simpl_pow.
  pose proof (Z.mod_pos_bound (x + 2147483648) 4294967296 ltac:(lia)). lia.
Qed.

Lemma ToInt32_mod (x : Z) : ToInt32 x mod 2 ^ 32 = x mod 2 ^ 32.
Proof.
  unfold ToInt32.
  rewrite <- Zminus_mod_idemp_l, Z.mod_mod by lia.
  rewrite Zminus_mod_idemp_l. f_equal. lia.
Qed.

(** The low [k] bits survive [ToInt32] when [k <= 32]. *)
Lemma ToInt32_low (x k : Z) :
  0 <= k <= 32 -> ToInt32 x mod 2 ^ k = x mod 2 ^ k.
Proof.
  intros Hk.
  assert (Hd : 2 ^ 32 = 2 ^ k * 2 ^ (32 - k)).
  { rewrite <- Z.pow_add_r by lia. f_equal. lia. }
  assert (Hp : 0 < 2 ^ k) by (apply Z.pow_pos_nonneg; lia).
  assert (Hq : 0 < 2 ^ (32 - k)) by (apply Z.pow_pos_nonneg; lia).
  pose proof (ToInt32_mod x) as Hm.
  rewrite Hd in Hm.
  rewrite !Z.rem_mul_r in Hm by lia.
  assert (He : (ToInt32 x mod 2 ^ k + 2 ^ k * ((ToInt32 x / 2 ^ k) mod 2 ^ (32 - k))) mod 2 ^ k
               = (x mod 2 ^ k + 2 ^ k * ((x / 2 ^ k) mod 2 ^ (32 - k))) mod 2 ^ k)
    by (rewrite Hm; reflexivity).
  rewrite !(Z.mul_comm (2 ^ k)), !Z.mod_add, !Z.mod_mod in He by lia.
  exact He.
Qed.

Lemma js_and_255 (x : Z) : js_and x 255 = x mod 256.
Proof.
  unfold js_and.
  rewrite (ToInt32_small 255) by lia.
  change 255 with (Z.ones 8). rewrite Z.land_ones by lia.
  rewrite (ToInt32_low x 8) by lia.
  simpl_pow. apply ToInt32_small. simpl_pow.
  pose proof (Z.mod_pos_bound x 256 ltac:(lia)). lia.
Qed.

(** Byte [k / 8] of a number, as the code extracts it with [>>] and [&]. *)
Lemma js_byte (x k : Z) :
  0 <= k <= 24 -> js_and (js_shr x k) 255 = (x / 2 ^ k) mod 256.
Proof.
  intros Hk. rewrite js_and_255. unfold js_shr.
  rewrite (Z.mod_small k 32) by lia.
  change 256 with (2 ^ 8).
  rewrite ToInt32_low by lia.
  rewrite Z.shiftr_div_pow2 by lia.
  assert (Hp : 0 < 2 ^ k) by (apply Z.pow_pos_nonneg; lia).
  pose proof (ToInt32_low x (k + 8) ltac:(lia)) as Hm.
  rewrite Z.pow_add_r in Hm by lia.
  rewrite !Z.rem_mul_r in Hm by lia.
  pose proof (Z.mod_pos_bound (ToInt32 x) (2 ^ k) Hp).
  pose proof (Z.mod_pos_bound x (2 ^ k) Hp).
  pose proof (ToInt32_low x k ltac:(lia)) as Hl.
  rewrite Hl in Hm.
  nia.
Qed.

Section Properties.

Context {C : CryptoLib}.

(** ** Permissions *)

(** A negative number above [- 2 ^ k] has every bit from [k] on set. *)
Lemma testbit_high_ones (p k i : Z) :
  0 <= k -> Z.shiftr p k = -1 -> k <= i -> Z.testbit p i = true.
Proof.
  intros Hk Hs Hi.
  replace i with ((i - k) + k) by lia.
  rewrite <- Z.shiftr_spec by lia.
  rewrite Hs. apply Z.bits_m1. lia.
Qed.

(** The bits of the permissions value of revision 3 and later, each as a
    function of the option that controls it. *)
Lemma getPermissionsR3_bit_values (permissionObject : option Permissions) :
  let o := default no_permissions permissionObject in
  let p := getPermissionsR3 permissionObject in
  - 2 ^ 31 <= p < 2 ^ 31 /\
  Z.testbit p 0 = false /\
  Z.testbit p 1 = false /\
  Z.testbit p 6 = true /\
  Z.testbit p 2 = strict_equal (printing o) "lowResolution"
                  || strict_equal (printing o) "highResolution" /\
  Z.testbit p 11 = strict_equal (printing o) "highResolution" /\
  Z.testbit p 8 = truthy (fillingForms o) /\
  Z.testbit p 9 = truthy (contentAccessibility o) /\
  Z.testbit p 10 = truthy (documentAssembly o) /\
  (forall i, 12 <= i < 32 -> Z.testbit p i = true) /\
  Z.testbit p 3 = truthy (modifying o) /\
  Z.testbit p 4 = truthy (copying o) /\
  Z.testbit p 5 = truthy (annotating o) /\
  Z.testbit p 7 = true.
Proof.
  intros o p. subst p. unfold getPermissionsR3. fold o.
  generalize (strict_equal (printing o) "lowResolution").
  generalize (strict_equal (printing o) "highResolution").
  generalize (truthy (modifying o)), (truthy (copying o)),
    (truthy (annotating o)), (truthy (fillingForms o)),
    (truthy (contentAccessibility o)), (truthy (documentAssembly o)).
  intros b1 b2 b3 b4 b5 b6 b7 b8.
  destruct b1, b2, b3, b4, b5, b6, b7, b8;
    (split; [vm_compute; split; [discriminate | reflexivity] |];
     repeat (split; [vm_compute; reflexivity |]);
     split;
     [intros i Hi; apply (testbit_high_ones _ 12); [lia | reflexivity | lia] |];
     repeat split; vm_compute; reflexivity).
Qed.

(** C8: under revision 3 and later the permissions value is a signed 32-bit
    integer whose bits 1 and 2 are clear and whose bit 7 is set (bit [n] of the
    PDF numbering is [Z.testbit _ (n - 1)]); [printing] equal to
    ['lowResolution'] sets bit 3 and not bit 12, [printing] equal to
    ['highResolution'] sets bits 3 and 12, and no other value of [printing]
    sets either; bits 9, 10 and 11 are set exactly for a truthy
    [fillingForms], [contentAccessibility] and [documentAssembly]; the high
    bits that no option names, bit 8 and every bit from 13 up to 32, are
    set.  The value of [printing] reaches bits 3 and 12 only: bits 4, 5 and
    6 are set exactly for a truthy [modifying], [copying] and [annotating],
    so that all 32 bits are accounted for. *)
Theorem getPermissionsR3_bits (permissionObject : option Permissions) :
  let o := default no_permissions permissionObject in
  let p := getPermissionsR3 permissionObject in
  - 2 ^ 31 <= p < 2 ^ 31 /\
  Z.testbit p 0 = false /\
  Z.testbit p 1 = false /\
  Z.testbit p 6 = true /\
  (printing o = JString (lit "lowResolution") ->
   Z.testbit p 2 = true /\ Z.testbit p 11 = false) /\
  (printing o = JString (lit "highResolution") ->
   Z.testbit p 2 = true /\ Z.testbit p 11 = true) /\
  (printing o <> JString (lit "lowResolution") ->
   printing o <> JString (lit "highResolution") ->
   Z.testbit p 2 = false /\ Z.testbit p 11 = false) /\
  Z.testbit p 8 = truthy (fillingForms o) /\
  Z.testbit p 9 = truthy (contentAccessibility o) /\
  Z.testbit p 10 = truthy (documentAssembly o) /\
  (forall i, 12 <= i < 32 -> Z.testbit p i = true) /\
  Z.testbit p 7 = true /\
  Z.testbit p 3 = truthy (modifying o) /\
  Z.testbit p 4 = truthy (copying o) /\
  Z.testbit p 5 = truthy (annotating o).
Proof.
  intros o p.
  destruct (getPermissionsR3_bit_values permissionObject)
    as (Hr & H0 & H1 & H6 & H2 & H11 & H8 & H9 & H10 & Hhigh
        & H3 & H4 & H5 & H7).
  fold o in H2, H11, H8, H9, H10, H3, H4, H5.
  fold p in Hr, H0, H1, H6, H2, H11, H8, H9, H10, Hhigh, H3, H4, H5, H7.
  repeat (split; [assumption |]).
  split; [| split; [| split]].
  - intros Hp. rewrite H2, H11, Hp. split; reflexivity.
  - intros Hp. rewrite H2, H11, Hp. split; reflexivity.
  - intros Hlow Hhigh'. rewrite H2, H11.
    assert (Hl : strict_equal (printing o) "lowResolution" = false).
    { unfold strict_equal. destruct (printing o) as [| b | t]; try reflexivity.
      apply bool_decide_eq_false_2. intros ->. apply Hlow. reflexivity. }
    assert (Hh : strict_equal (printing o) "highResolution" = false).
    { unfold strict_equal. destruct (printing o) as [| b | t]; try reflexivity.
      apply bool_decide_eq_false_2. intros ->. apply Hhigh'. reflexivity. }
    rewrite Hl, Hh. split; reflexivity.
  - repeat (split; [assumption |]). exact H5.
Qed.

(** ** Password padding *)

Lemma insert_middle {A} (done rest : list A) (x v : A) :
  <[length done := v]> (done ++ x :: rest) = done ++ v :: rest.
Proof. induction done as [|d done IH]; simpl; [reflexivity | now rewrite IH]. Qed.

Lemma PASSWORD_PADDING_bytes : Forall is_byte PASSWORD_PADDING.
Proof. unfold PASSWORD_PADDING, is_byte. repeat constructor; lia. Qed.

Lemma u8_byte (b : Z) : is_byte b -> u8 b = b.
Proof. unfold is_byte, u8. intros H. apply Z.mod_small. lia. Qed.

(** A character code the first loop accepts. *)
Definition latin1 (code : N) : bool := negb (0xff <? code)%N.

Definition code_bytes (s : jsstring) : Uint8Array := map Z.of_N s.

Lemma copy_password_spec (password : jsstring) (fuel : nat) :
  forall (done rest : Uint8Array),
    (length done + length rest = 32)%nat ->
    (length done <= length password)%nat ->
    (33 <= fuel + length done)%nat ->
    copy_password password (length done) fuel (done ++ rest) =
      let todo := take (32 - length done) (drop (length done) password) in
      if forallb latin1 todo
      then Ok (Nat.min (length password) 32,
               done ++ code_bytes todo ++ drop (length todo) rest)
      else Throw (JsError invalid_password_message).
Proof.
  induction fuel as [|fuel IH]; intros done rest Hlen Hle Hfuel; [lia |].
  cbn [copy_password].
  destruct (length done <? length password)%nat eqn:Hlt; cbn [andb].
  - apply Nat.ltb_lt in Hlt.
    destruct (length done <? 32)%nat eqn:H32; cbv iota.
    + apply Nat.ltb_lt in H32.
      destruct (lookup_lt_is_Some_2 password (length done) Hlt) as [code Hcode].
      rewrite Hcode. cbn [default from_option id].
      rewrite (drop_S _ _ _ Hcode).
      replace (32 - length done)%nat with (S (31 - length done)) by lia.
      cbn [take forallb code_bytes map length drop]. unfold latin1 at 1.
      destruct (0xff <? code)%N eqn:Hbad; cbn [negb andb]; [reflexivity |].
      destruct rest as [|x rest]; [cbn in Hlen; lia |].
      rewrite insert_middle.
      replace (done ++ u8 (Z.of_N code) :: rest)
        with ((done ++ [u8 (Z.of_N code)]) ++ rest)
        by (rewrite <- app_assoc; reflexivity).
      assert (Hl : length (done ++ [u8 (Z.of_N code)]) = S (length done))
        by (rewrite length_app; cbn; lia).
      rewrite <- Hl. cbn [length] in Hlen.
      rewrite IH by lia.
      rewrite Hl. replace (32 - S (length done))%nat with (31 - length done)%nat by lia.
      cbv zeta.
      destruct (forallb latin1 _); [| reflexivity].
      rewrite <- app_assoc. cbn [app].
      rewrite u8_byte; [reflexivity |].
      apply N.ltb_ge in Hbad. unfold is_byte. lia.
    + apply Nat.ltb_ge in H32.
      replace (32 - length done)%nat with 0%nat by lia.
      cbn.
      replace (Nat.min (length password) 32) with (length done) by lia.
      reflexivity.
  - apply Nat.ltb_ge in Hlt.
    rewrite drop_ge by lia. rewrite take_nil. cbn.
    replace (Nat.min (length password) 32) with (length done) by lia.
    reflexivity.
Qed.

Lemma pad_password_spec (len fuel : nat) :
  forall (done rest : Uint8Array),
    (length done + length rest = 32)%nat ->
    (length done < 32 -> len <= length done)%nat ->
    (33 <= fuel + length done)%nat ->
    pad_password len (length done) fuel (done ++ rest) =
      done ++ take (32 - length done) (drop (length done - len) PASSWORD_PADDING).
Proof.
  induction fuel as [|fuel IH]; intros done rest Hlen Hle Hfuel; [lia |].
  cbn [pad_password].
  destruct (length done <? 32)%nat eqn:H32.
  - apply Nat.ltb_lt in H32. specialize (Hle H32).
    assert (Hk : (length done - len < length PASSWORD_PADDING)%nat)
      by (cbn; lia).
    destruct (lookup_lt_is_Some_2 _ _ Hk) as [v Hv].
    rewrite Hv. cbn [default from_option id].
    rewrite (drop_S _ _ _ Hv).
    replace (32 - length done)%nat with (S (31 - length done)) by lia.
    cbn [take].
    destruct rest as [|x rest]; [cbn in Hlen; lia |].
    rewrite insert_middle.
    rewrite u8_byte
      by (eapply Forall_lookup_1; [apply PASSWORD_PADDING_bytes | exact Hv]).
    replace (done ++ v :: rest) with ((done ++ [v]) ++ rest)
      by (rewrite <- app_assoc; reflexivity).
    assert (Hl : length (done ++ [v]) = S (length done))
      by (rewrite length_app; cbn; lia).
    rewrite <- Hl. cbn [length] in Hlen.
    rewrite IH by lia.
    rewrite Hl, <- app_assoc. cbn [app].
    replace (32 - S (length done))%nat with (31 - length done)%nat by lia.
    replace (S (length done) - len)%nat with (S (length done - len)) by lia.
    reflexivity.
  - apply Nat.ltb_ge in H32.
    replace (32 - length done)%nat with 0%nat by lia.
    destruct rest; [| cbn in Hlen; lia].
    cbn. reflexivity.
Qed.

(** The closed form of [processPasswordR2R3R4]. *)
Lemma processPasswordR2R3R4_eq (password : option jsstring) :
  processPasswordR2R3R4 password =
    let s := default [] password in
    if forallb latin1 (take 32 s)
    then Ok (code_bytes (take 32 s) ++ take (32 - length s) PASSWORD_PADDING)
    else Throw (JsError invalid_password_message).
Proof.
  unfold processPasswordR2R3R4. cbv zeta.
  set (s := default [] password).
  pose proof (copy_password_spec s 33 [] (replicate 32 0)) as Hc.
  cbn [length app] in Hc. rewrite drop_0, Nat.sub_0_r in Hc.
  rewrite Hc by (cbn; lia). clear Hc. cbv zeta.
  destruct (forallb latin1 (take 32 s)); [| reflexivity].
  f_equal.
  set (done := code_bytes (take 32 s)).
  assert (Hd : length done = Nat.min (length s) 32).
  { unfold done, code_bytes. rewrite length_map, length_take. lia. }
  rewrite <- Hd.
  rewrite pad_password_spec.
  - f_equal. rewrite Hd.
    destruct (Nat.le_gt_cases 32 (length s)).
    + replace (32 - Nat.min (length s) 32)%nat with 0%nat by lia.
      replace (32 - length s)%nat with 0%nat by lia. reflexivity.
    + replace (Nat.min (length s) 32 - length s)%nat with 0%nat by lia.
      rewrite drop_0. f_equal. lia.
  - rewrite length_drop, length_replicate, length_take. lia.
  - rewrite Hd. lia.
  - rewrite Hd. lia.
Qed.

Lemma forallb_latin1_true (s : jsstring) :
  forallb latin1 s = true <-> Forall (fun c => (c <= 0xff)%N) s.
Proof.
  induction s as [|c s IH]; cbn [forallb].
  - split; [constructor | reflexivity].
  - rewrite andb_true_iff, IH, Forall_cons. unfold latin1.
    rewrite negb_true_iff, N.ltb_ge. reflexivity.
Qed.

Lemma forallb_latin1_false (s : jsstring) :
  forallb latin1 s = false <-> Exists (fun c => (0xff < c)%N) s.
Proof.
  induction s as [|c s IH]; cbn [forallb].
  - split; [discriminate | intros H; inversion H].
  - rewrite andb_false_iff, IH, Exists_cons. unfold latin1.
    rewrite negb_false_iff, N.ltb_lt. reflexivity.
Qed.

Lemma padded_length (s : jsstring) :
  length (code_bytes (take 32 s) ++ take (32 - length s) PASSWORD_PADDING)
  = 32%nat.
Proof.
  unfold code_bytes. rewrite length_app, length_map, !length_take.
  change (length PASSWORD_PADDING) with 32%nat. lia.
Qed.

(** What [processPasswordR2R3R4] does with a password: it throws exactly when
    one of the first 32 code units is above 0xff. *)
Lemma processPasswordR2R3R4_cases (password : option jsstring) :
  (Exists (fun c => (0xff < c)%N) (take 32 (default [] password)) /\
   processPasswordR2R3R4 password = Throw (JsError invalid_password_message))
  \/
  (Forall (fun c => (c <= 0xff)%N) (take 32 (default [] password)) /\
   processPasswordR2R3R4 password =
     Ok (code_bytes (take 32 (default [] password))
         ++ take (32 - length (default [] password)) PASSWORD_PADDING)).
Proof.
  rewrite processPasswordR2R3R4_eq. cbv zeta.
  destruct (forallb latin1 (take 32 (default [] password))) eqn:E.
  - right. split; [now apply forallb_latin1_true | reflexivity].
  - left. split; [now apply forallb_latin1_false | reflexivity].
Qed.

Lemma Exists_not_Forall_latin1 (s : jsstring) :
  Exists (fun c => (0xff < c)%N) s ->
  Forall (fun c => (c <= 0xff)%N) s -> False.
Proof.
  intros HE HF. rewrite Exists_exists in HE. destruct HE as (c & Hin & Hc).
  rewrite Forall_forall in HF. specialize (HF c Hin). lia.
Qed.

Lemma processPasswordR2R3R4_throws (password : option jsstring) :
  processPasswordR2R3R4 password = Throw (JsError invalid_password_message)
  <-> Exists (fun c => (0xff < c)%N) (take 32 (default [] password)).
Proof.
  destruct (processPasswordR2R3R4_cases password) as [[HE Hr] | [HF Hr]];
    rewrite Hr; split; intros H; try assumption; try reflexivity.
  - discriminate.
  - exfalso. eapply Exists_not_Forall_latin1; eassumption.
Qed.

Lemma processPasswordR2R3R4_length (password : option jsstring) (out : Uint8Array) :
  processPasswordR2R3R4 password = Ok out -> length out = 32%nat.
Proof.
  destruct (processPasswordR2R3R4_cases password) as [[_ Hr] | [_ Hr]];
    rewrite Hr; intros H; [discriminate |].
  injection H as <-. apply padded_length.
Qed.

Lemma processPasswordR2R3R4_default :
  processPasswordR2R3R4 None = Ok PASSWORD_PADDING.
Proof. reflexivity. Qed.

(** ** Construction under revisions 2 to 4 *)

(** The version the first [switch] of [_setupEncryption] selects. *)
Definition selected_version (options : Options) : Z :=
  if version_is options "1.4" || version_is options "1.5" then 2
  else if version_is options "1.6" || version_is options "1.7" then 4
  else if version_is options "1.7ext3" then 5
  else 1.

Lemma selected_version_cases (options : Options) :
  selected_version options = 1 \/ selected_version options = 2 \/
  selected_version options = 4 \/
  (selected_version options = 5 /\ version_is options "1.7ext3" = true).
Proof.
  unfold selected_version.
  destruct (version_is options "1.4" || version_is options "1.5"); [tauto |].
  destruct (version_is options "1.6" || version_is options "1.7"); [tauto |].
  destruct (version_is options "1.7ext3"); tauto.
Qed.

Lemma selected_version_5 (options : Options) :
  version_is options "1.7ext3" = true -> selected_version options = 5.
Proof.
  unfold selected_version, version_is.
  destruct (pdfVersion options) as [t|]; [| discriminate].
  intros H. apply bool_decide_eq_true in H. subst t. reflexivity.
Qed.

Lemma selected_version_not_5 (options : Options) :
  version_is options "1.7ext3" = false ->
  selected_version options = 1 \/ selected_version options = 2 \/
  selected_version options = 4.
Proof.
  intros H. destruct (selected_version_cases options) as [?|[?|[?|[_ ?]]]];
    [tauto | tauto | tauto | congruence].
Qed.

(** The user entry never fails with an [Error] of the handler's own. *)
Lemma getUserPassword_not_JsError (r : Z) (documentId key : Uint8Array) (m : string) :
  (if r =? 2 then getUserPasswordR2 key else getUserPasswordR3R4 documentId key)
  <> Throw (JsError m).
Proof.
  destruct (r =? 2).
  - unfold getUserPasswordR2. rewrite processPasswordR2R3R4_default. discriminate.
  - unfold getUserPasswordR3R4. rewrite processPasswordR2R3R4_default.
    cbn [result_bind]. unfold uint8_set.
    destruct (_ <? _)%nat; discriminate.
Qed.

Definition invalid_in_first_32 (password : option jsstring) : Prop :=
  Exists (fun c => (0xff < c)%N) (take 32 (default [] password)).

Lemma result_bind_not_throw {A B} (u : result A) (k : A -> result B) (e : exn) :
  u <> Throw e -> (forall a, k a <> Throw e) -> result_bind u k <> Throw e.
Proof.
  intros Hu Hk. destruct u as [a | e']; cbn.
  - apply Hk.
  - intros H. apply Hu. injection H as ->. reflexivity.
Qed.

Lemma setupV1V2V4_invalid_password (document : Document) (v : Z)
  (encDict : Dict) (options : Options) :
  _setupEncryptionV1V2V4 document v encDict options
    = Throw (JsError invalid_password_message)
  <-> invalid_in_first_32 (userPassword options)
      \/ (given (ownerPassword options) = true
          /\ invalid_in_first_32 (ownerPassword options)).
Proof.
  unfold _setupEncryptionV1V2V4, invalid_in_first_32.
  destruct (match v with 1 => _ | 2 => _ | 4 => _ | _ => _ end)
    as [[r kb] perms].
  destruct (processPasswordR2R3R4_cases (userPassword options))
    as [[HEu Hu] | [HFu Hu]]; rewrite Hu; cbn [result_bind].
  { split; [intros _; left; exact HEu | reflexivity]. }
  destruct (given (ownerPassword options)).
  - destruct (processPasswordR2R3R4_cases (ownerPassword options))
      as [[HEo Ho] | [HFo Ho]]; rewrite Ho; cbn [result_bind].
    { split; [intros _; right; split; [reflexivity | exact HEo] | reflexivity]. }
    split.
    + intros H. exfalso. revert H. apply result_bind_not_throw;
        [apply getUserPassword_not_JsError | discriminate].
    + intros [H | [_ H]]; exfalso; eapply Exists_not_Forall_latin1; eassumption.
  - cbn [result_bind]. split.
    + intros H. exfalso. revert H. apply result_bind_not_throw;
        [apply getUserPassword_not_JsError | discriminate].
    + intros [H | [H _]]; [| discriminate].
      exfalso; eapply Exists_not_Forall_latin1; eassumption.
Qed.

Definition initial_dictionary : Dict :=
  [("Filter"%string, VString (lit "Standard"))].

Lemma setupEncryption_V1V2V4 (document : Document) (options : Options)
  (rs : RandomSource) :
  selected_version options = 1 \/ selected_version options = 2 \/
  selected_version options = 4 ->
  _setupEncryption document options rs =
    match _setupEncryptionV1V2V4 document (selected_version options)
            initial_dictionary options with
    | Ok (kb, key, dict) =>
        Ok ({| version := selected_version options; keyBits := kb;
               encryptionKey := key; dictionary := dict |}, rs)
    | Throw e => Throw e
    end.
Proof.
  intros Hv. unfold _setupEncryption.
  change (if version_is options "1.4" || version_is options "1.5" then 2
          else if version_is options "1.6" || version_is options "1.7" then 4
          else if version_is options "1.7ext3" then 5 else 1)
    with (selected_version options).
  fold initial_dictionary. cbv zeta. unfold bind, lift, ret.
  destruct Hv as [-> | [-> | ->]];
    destruct (_setupEncryptionV1V2V4 _ _ _ _) as [[[kb key] dict] | e];
    reflexivity.
Qed.

Lemma PDFSecurity_new_given (document : Document) (options : Options)
  (rs : RandomSource) :
  given (ownerPassword options) || given (userPassword options) = true ->
  PDFSecurity_new document options rs = _setupEncryption document options rs.
Proof.
  intros H. unfold PDFSecurity_new.
  destruct (given (ownerPassword options)), (given (userPassword options));
    try reflexivity; discriminate.
Qed.

(** C4, as the code has it: [processPasswordR2R3R4] throws the error
    'Password contains one or more invalid characters.' exactly when one of the
    first 32 code units of the password is above 0xff; otherwise the result
    has exactly 32 bytes, the first [min(length, 32)] character codes followed
    by the first [32 - length] bytes of the padding constant.  Constructing
    the handler for a PDF version other than 1.7ext3 throws that error exactly
    when this happens for the user password or for an owner password that is
    given. *)
Theorem processPasswordR2R3R4_invalid_password :
  (forall password : option jsstring,
     let s := default [] password in
     (processPasswordR2R3R4 password = Throw (JsError invalid_password_message)
      <-> Exists (fun c => (0xff < c)%N) (take 32 s)) /\
     (Forall (fun c => (c <= 0xff)%N) (take 32 s) ->
      processPasswordR2R3R4 password =
        Ok (code_bytes (take (Nat.min (length s) 32) s)
            ++ take (32 - length s) PASSWORD_PADDING) /\
      length (code_bytes (take (Nat.min (length s) 32) s)
              ++ take (32 - length s) PASSWORD_PADDING) = 32%nat)) /\
  (forall (document : Document) (options : Options) (rs : RandomSource),
     version_is options "1.7ext3" = false ->
     given (ownerPassword options) || given (userPassword options) = true ->
     (PDFSecurity_new document options rs
        = Throw (JsError invalid_password_message)
      <-> invalid_in_first_32 (userPassword options)
          \/ (given (ownerPassword options) = true
              /\ invalid_in_first_32 (ownerPassword options)))).
Proof.
  split.
  - intros password s. split; [apply processPasswordR2R3R4_throws |].
    intros HF.
    assert (Ht : take (Nat.min (length s) 32) s = take 32 s).
    { destruct (Nat.le_gt_cases (length s) 32).
      - rewrite Nat.min_l by lia. rewrite !take_ge by lia. reflexivity.
      - rewrite Nat.min_r by lia. reflexivity. }
    rewrite Ht. split; [| apply padded_length].
    destruct (processPasswordR2R3R4_cases password) as [[HE _] | [_ Hr]];
      [| exact Hr].
    exfalso. eapply Exists_not_Forall_latin1; eassumption.
  - intros document options rs H5 Hg.
    rewrite PDFSecurity_new_given by exact Hg.
    rewrite setupEncryption_V1V2V4 by (apply selected_version_not_5; exact H5).
    rewrite <- setupV1V2V4_invalid_password
      with (document := document) (v := selected_version options)
           (encDict := initial_dictionary).
    destruct (_setupEncryptionV1V2V4 _ _ _ _) as [[[kb key] dict] | e].
    + split; discriminate.
    + split; intros H; injection H as ->; reflexivity.
Qed.

(** C4, as the claim states it, fails: a 33-character password whose last
    character is U+0100 contains a code point above 0xff, and is processed
    without an error (only the first 32 characters are read). *)
Lemma processPasswordR2R3R4_ignores_tail :
  let password := replicate 32 97%N ++ [0x100%N] in
  Exists (fun c => (0xff < c)%N) password /\
  processPasswordR2R3R4 (Some password) = Ok (replicate 32 97) /\
  ~ (processPasswordR2R3R4 (Some password)
       = Throw (JsError invalid_password_message)
     <-> Exists (fun c => (0xff < c)%N) password).
Proof.
  cbv zeta.
  assert (HE : Exists (fun c => (0xff < c)%N) (replicate 32 97%N ++ [0x100%N])).
  { apply Exists_app. right. constructor. reflexivity. }
  split; [exact HE |]. split; [reflexivity |].
  intros [_ H]. specialize (H HE). discriminate H.
Qed.

(** ** Loops *)

Lemma for_range_S {S : Type} (n : nat) (body : nat -> S -> S) (s : S) :
  for_range (Datatypes.S n) body s = body n (for_range n body s).
Proof.
  unfold for_range. rewrite seq_S, fold_left_app. reflexivity.
Qed.

(** An invariant of the loop state holds when the loop ends. *)
Lemma for_range_invariant {S : Type} (P : S -> Prop) (n : nat)
  (body : nat -> S -> S) (s : S) :
  P s -> (forall i s, (i < n)%nat -> P s -> P (body i s)) ->
  P (for_range n body s).
Proof.
  intros H0 Hstep. induction n as [|n IH]; [exact H0 |].
  rewrite for_range_S. apply Hstep; [lia |].
  apply IH. intros i s' Hi. apply Hstep. lia.
Qed.

(** A loop whose body ignores the index is an iteration. *)
Lemma for_range_iter {S : Type} (n : nat) (f : S -> S) (s : S) :
  for_range n (fun _ => f) s = Nat.iter n f s.
Proof.
  induction n as [|n IH]; [reflexivity |].
  rewrite for_range_S, IH. reflexivity.
Qed.

(** A loop that stores [f j] at index [j] of a fresh array builds the array
    of the [f j]. *)
Lemma for_range_fill (f : nat -> Z) (n : nat) :
  for_range n (fun j a => <[j := f j]> a) (replicate n 0) = map f (seq 0 n).
Proof.
  enough (H : forall k, (k <= n)%nat ->
            for_range k (fun j a => <[j := f j]> a) (replicate n 0)
            = map f (seq 0 k) ++ replicate (n - k) 0).
  { rewrite (H n) by lia. rewrite Nat.sub_diag. apply app_nil_r. }
  induction k as [|k IH]; intros Hk.
  - cbn. rewrite Nat.sub_0_r. reflexivity.
  - rewrite for_range_S, IH by lia.
    replace (n - k)%nat with (Datatypes.S (n - Datatypes.S k)) by lia. cbn [replicate].
    assert (Hl : length (map f (seq 0 k)) = k)
      by (rewrite length_map, length_seq; reflexivity).
    rewrite <- Hl at 1. rewrite insert_middle.
    rewrite seq_S, map_app, <- app_assoc. reflexivity.
Qed.

(** ** RC4 *)

(** RC4 returns as many bytes as it is given. *)
Lemma rc4_length (data key : Uint8Array) : length (rc4 data key) = length data.
Proof.
  unfold rc4.
  destruct (for_range 256 (rc4_schedule_step key) _) as [j s].
  set (P := fun st : Z * Z * list Z * list Z => length (snd st) = length data).
  assert (H : P (for_range (length data) (rc4_output_step data)
                   (0, 0, s, replicate (length data) 0))).
  { apply for_range_invariant.
    - unfold P. cbn. apply length_replicate.
    - intros i [[[i0 j0] s0] out] _ Hout. unfold P in *. cbn in *.
      rewrite length_insert. exact Hout. }
  destruct (for_range (length data) _ _) as [[[i1 j1] s1] out].
  exact H.
Qed.

(** ** Exclusive or on bytes *)

Lemma lxor_byte (a b : Z) : is_byte a -> is_byte b -> is_byte (Z.lxor a b).
Proof.
  unfold is_byte. intros Ha Hb.
  assert (H : Z.lxor a b = Z.lxor a b mod 2 ^ 8).
  { apply Z.bits_inj'. intros n Hn.
    destruct (Z.lt_ge_cases n 8) as [Hlt | Hge].
    - rewrite Z.mod_pow2_bits_low by lia. reflexivity.
    - rewrite Z.mod_pow2_bits_high by lia.
      rewrite Z.lxor_spec.
      rewrite <- (Z.mod_small a (2 ^ 8)), <- (Z.mod_small b (2 ^ 8))
        by (simpl_pow; lia).
      rewrite !Z.mod_pow2_bits_high by lia. reflexivity. }
  rewrite H. simpl_pow. apply Z.mod_pos_bound. lia.
Qed.

Lemma js_xor_byte (a b : Z) :
  is_byte a -> is_byte b -> u8 (js_xor a b) = Z.lxor a b.
Proof.
  intros Ha Hb. pose proof (lxor_byte a b Ha Hb) as Hx.
  unfold is_byte in *. unfold js_xor.
  rewrite (ToInt32_small a), (ToInt32_small b) by (simpl_pow; lia).
  rewrite ToInt32_small by (simpl_pow; lia).
  apply u8_byte. exact Hx.
Qed.

Lemma map_seq_lookup {A B} (l : list A) (g : option A -> B) :
  map (fun j => g (l !! j)) (seq 0 (length l)) = map (fun x => g (Some x)) l.
Proof.
  induction l as [|x l IH]; [reflexivity |].
  cbn [length seq map]. f_equal.
  rewrite <- seq_shift, map_map. exact IH.
Qed.

(** The key of round [i]: every byte of [key] XORed with [i]. *)
Lemma xor_key_bytes (key : Uint8Array) (i : nat) :
  Forall is_byte key -> (i < 256)%nat ->
  xor_key key (length key) i = map (fun b => Z.lxor b (Z.of_nat i)) key.
Proof.
  intros Hk Hi. unfold xor_key.
  rewrite (for_range_fill
             (fun j => u8 (js_xor (default 0 (key !! j)) (Z.of_nat i)))).
  rewrite (map_seq_lookup key
             (fun o => u8 (js_xor (default 0 o) (Z.of_nat i)))).
  apply map_ext_in. intros b Hb. cbn.
  apply js_xor_byte.
  - rewrite Forall_forall in Hk. apply Hk. apply list_elem_of_In. exact Hb.
  - unfold is_byte. lia.
Qed.

Lemma lxor_0_bytes (key : Uint8Array) :
  map (fun b => Z.lxor b 0) key = key.
Proof.
  rewrite <- (map_id key) at 2. apply map_ext. intros b. apply Z.lxor_0_r.
Qed.

(** ** Slices *)

Lemma slice_prefix (a : Uint8Array) (n : Z) :
  0 <= n -> slice a 0 n = take (Z.to_nat n) a.
Proof.
  intros Hn. unfold slice.
  destruct (0 <? 0) eqn:E0; [discriminate |].
  destruct (n <? 0) eqn:En; [apply Z.ltb_lt in En; lia |].
  rewrite (Z.min_l 0) by lia. change (Z.to_nat 0) with 0%nat.
  rewrite drop_0, Z.sub_0_r.
  destruct (Z.le_gt_cases n (Z.of_nat (length a))).
  - rewrite Z.min_l by lia. reflexivity.
  - rewrite Z.min_r by lia. rewrite Nat2Z.id.
    rewrite (take_ge a (length a)) by lia.
    rewrite (take_ge a (Z.to_nat n)) by lia. reflexivity.
Qed.

Lemma slice_range (a : Uint8Array) (i j : nat) :
  (i <= j <= length a)%nat ->
  slice a (Z.of_nat i) (Z.of_nat j) = take (j - i) (drop i a).
Proof.
  intros H. unfold slice.
  destruct (Z.of_nat i <? 0) eqn:Ei; [apply Z.ltb_lt in Ei; lia |].
  destruct (Z.of_nat j <? 0) eqn:Ej; [apply Z.ltb_lt in Ej; lia |].
  rewrite !Z.min_l by lia.
  rewrite <- Nat2Z.inj_sub, !Nat2Z.id by lia. reflexivity.
Qed.

(** ** Little-endian bytes *)

(** [x] as [n] little-endian bytes, in two's complement for a negative [x]. *)
Definition le_bytes (n : nat) (x : Z) : Uint8Array :=
  map (fun k => (x / 2 ^ (8 * Z.of_nat k)) mod 256) (seq 0 n).

Lemma u8_mod (x : Z) : u8 (x mod 256) = x mod 256.
Proof. unfold u8. apply Z.mod_mod. lia. Qed.

Lemma permissions_bytes (p : Z) :
  uint8_array
    [js_and p 0xff; js_and (js_shr p 8) 0xff;
     js_and (js_shr p 16) 0xff; js_and (js_shr p 24) 0xff]
  = le_bytes 4 p.
Proof.
  unfold uint8_array, le_bytes. cbn [map seq].
  rewrite !js_byte, !js_and_255, !u8_mod by lia.
  cbn [Z.of_nat Z.mul Pos.of_succ_nat Pos.succ Pos.mul].
  rewrite Z.pow_0_r, Z.div_1_r. reflexivity.
Qed.

Lemma object_suffix_bytes (obj gen : Z) :
  uint8_array
    [js_and obj 0xff; js_and (js_shr obj 8) 0xff; js_and (js_shr obj 16) 0xff;
     js_and gen 0xff; js_and (js_shr gen 8) 0xff]
  = le_bytes 3 obj ++ le_bytes 2 gen.
Proof.
  unfold uint8_array, le_bytes. cbn [map seq app].
  rewrite !js_byte, !js_and_255, !u8_mod by lia.
  cbn [Z.of_nat Z.mul Pos.of_succ_nat Pos.succ Pos.mul].
  rewrite Z.pow_0_r, !Z.div_1_r. reflexivity.
Qed.

(** ** The file encryption key of revisions 2 to 4 *)

(** MD5 of a byte string. *)
Definition MD5 (d : Uint8Array) : Uint8Array := md5Hash (MBytes d).

(** The key as the specification words it: MD5 of the input, under revision 3
    and later 50 more rounds of MD5 over the digest cut to [keyBits / 8]
    bytes, and of the outcome the first [keyBits / 8] bytes. *)
Definition encryption_key_spec (r keyBits : Z)
  (paddedUserPassword O : Uint8Array) (permissions : Z) (fileID1 : Uint8Array)
  : Uint8Array :=
  let n := Z.to_nat (keyBits / 8) in
  let input := paddedUserPassword ++ O ++ le_bytes 4 permissions ++ fileID1 in
  let key := MD5 input in
  let key := if 3 <=? r then Nat.iter 50 (fun k => MD5 (take n k)) key else key in
  take n key.

Lemma iter_shift {A} (f g : A -> A) (n : nat) (x : A) :
  Nat.iter (S n) (fun y => g (f y)) x = g (Nat.iter n (fun y => f (g y)) (f x)).
Proof.
  induction n as [|n IH]; [reflexivity |].
  change (Nat.iter (S (S n)) (fun y => g (f y)) x)
    with (g (f (Nat.iter (S n) (fun y => g (f y)) x))).
  rewrite IH. reflexivity.
Qed.

Lemma getEncryptionKeyR2R3R4_spec (r keyBits : Z)
  (documentId paddedUserPassword ownerPasswordEntry : Uint8Array)
  (permissions : Z) :
  0 <= keyBits ->
  getEncryptionKeyR2R3R4 r keyBits documentId paddedUserPassword
    ownerPasswordEntry permissions
  = encryption_key_spec r keyBits paddedUserPassword ownerPasswordEntry
      permissions documentId.
Proof.
  intros Hk. unfold getEncryptionKeyR2R3R4, encryption_key_spec. cbv zeta.
  rewrite permissions_bytes.
  assert (Hn : 0 <= keyBits / 8) by (apply Z.div_pos; lia).
  rewrite (for_range_iter _ (fun key => slice (md5Hash (MBytes key)) 0 (keyBits / 8))).
  assert (He : forall n x,
             Nat.iter n (fun key => slice (md5Hash (MBytes key)) 0 (keyBits / 8)) x
             = Nat.iter n (fun key => take (Z.to_nat (keyBits / 8)) (MD5 key)) x).
  { intros n x. induction n as [|n IH]; [reflexivity |].
    rewrite !Nat.iter_succ, IH. apply slice_prefix. exact Hn. }
  rewrite He.
  destruct (3 <=? r).
  - apply (iter_shift MD5 (take (Z.to_nat (keyBits / 8))) 50).
  - reflexivity.
Qed.

(** ** What construction yields under versions 1, 2 and 4 *)

(** The revision, the key length and the permissions value the [switch] of
    [_setupEncryptionV1V2V4] selects. *)
Definition revision_of (v : Z) : Z :=
  match v with 1 => 2 | 2 => 3 | _ => 4 end.

Definition key_bits_of (v : Z) : Z :=
  match v with 1 => 40 | _ => 128 end.

Definition permissions_of (v : Z) (options : Options) : Z :=
  match v with
  | 1 => getPermissionsR2 (permissions options)
  | _ => getPermissionsR3 (permissions options)
  end.

(** The padded owner password: the owner password when it is given, and the
    user password otherwise. *)
Definition padded_owner (options : Options) (paddedUserPassword : Uint8Array)
  : result Uint8Array :=
  if given (ownerPassword options)
  then processPasswordR2R3R4 (ownerPassword options)
  else Ok paddedUserPassword.

Lemma result_bind_Ok {A B} (a : A) (k : A -> result B) :
  result_bind (Ok a) k = k a.
Proof. reflexivity. Qed.

Lemma result_bind_inv {A B} (u : result A) (k : A -> result B) (b : B) :
  result_bind u k = Ok b -> exists a, u = Ok a /\ k a = Ok b.
Proof.
  destruct u as [a | e]; cbn; intros H; [| discriminate H].
  exists a. split; [reflexivity | exact H].
Qed.

(** The user entry, by revision. *)
Definition user_entry (r : Z) (documentId key : Uint8Array) : result Uint8Array :=
  if r =? 2 then getUserPasswordR2 key else getUserPasswordR3R4 documentId key.

(** The encryption dictionary of versions 1, 2 and 4, property by property. *)
Definition dictionary_V1V2V4 (v r kb : Z) (O U : Uint8Array) (P : Z) : Dict :=
  [("Filter"%string, VString (lit "Standard")); ("V"%string, VNumber v)]
  ++ (if 2 <=? v then [("Length"%string, VNumber kb)] else [])
  ++ (if v =? 4
      then [("CF"%string,
             VObject
               [("StdCF"%string,
                 VObject [("AuthEvent"%string, VString (lit "DocOpen"));
                          ("CFM"%string, VString (lit "AESV2"));
                          ("Length"%string, VNumber (kb / 8))])]);
            ("StmF"%string, VString (lit "StdCF"));
            ("StrF"%string, VString (lit "StdCF"))]
      else [])
  ++ [("R"%string, VNumber r); ("O"%string, VBuffer O);
      ("U"%string, VBuffer U); ("P"%string, VNumber P)].

(** [_setupEncryptionV1V2V4] for the three versions it is called with. *)
Lemma setupV1V2V4_eq (document : Document) (v : Z) (options : Options) :
  v = 1 \/ v = 2 \/ v = 4 ->
  _setupEncryptionV1V2V4 document v initial_dictionary options =
    result_bind (processPasswordR2R3R4 (userPassword options)) (fun pu =>
    result_bind (padded_owner options pu) (fun po =>
    result_bind
      (user_entry (revision_of v) (_id document)
         (getEncryptionKeyR2R3R4 (revision_of v) (key_bits_of v) (_id document)
            pu (getOwnerPasswordR2R3R4 (revision_of v) (key_bits_of v) pu po)
            (permissions_of v options)))
      (fun U =>
    Ok (key_bits_of v,
        getEncryptionKeyR2R3R4 (revision_of v) (key_bits_of v) (_id document)
          pu (getOwnerPasswordR2R3R4 (revision_of v) (key_bits_of v) pu po)
          (permissions_of v options),
        dictionary_V1V2V4 v (revision_of v) (key_bits_of v)
          (getOwnerPasswordR2R3R4 (revision_of v) (key_bits_of v) pu po) U
          (permissions_of v options))))).
Proof.
  intros [-> | [-> | ->]];
    unfold _setupEncryptionV1V2V4; cbv beta iota zeta;
    unfold padded_owner, user_entry; reflexivity.
Qed.

Lemma setupV1V2V4_inv (document : Document) (v : Z) (options : Options)
  (kb : Z) (key : Uint8Array) (dict : Dict) :
  v = 1 \/ v = 2 \/ v = 4 ->
  _setupEncryptionV1V2V4 document v initial_dictionary options
    = Ok (kb, key, dict) ->
  exists pu po U : Uint8Array,
    processPasswordR2R3R4 (userPassword options) = Ok pu /\
    padded_owner options pu = Ok po /\
    kb = key_bits_of v /\
    key = getEncryptionKeyR2R3R4 (revision_of v) kb (_id document) pu
            (getOwnerPasswordR2R3R4 (revision_of v) kb pu po)
            (permissions_of v options) /\
    user_entry (revision_of v) (_id document) key = Ok U /\
    dict = dictionary_V1V2V4 v (revision_of v) kb
             (getOwnerPasswordR2R3R4 (revision_of v) kb pu po) U
             (permissions_of v options).
Proof.
  intros Hv H. rewrite setupV1V2V4_eq in H by exact Hv.
  apply result_bind_inv in H as (pu & Hpu & H).
  apply result_bind_inv in H as (po & Hpo & H).
  apply result_bind_inv in H as (U & HU & H).
  injection H as <- <- <-.
  exists pu, po, U. repeat split; assumption.
Qed.

Lemma PDFSecurity_new_V1V2V4_inv (document : Document) (options : Options)
  (rs rs' : RandomSource) (security : PDFSecurity) :
  version_is options "1.7ext3" = false ->
  PDFSecurity_new document options rs = Ok (security, rs') ->
  rs' = rs /\
  version security = selected_version options /\
  (selected_version options = 1 \/ selected_version options = 2 \/
   selected_version options = 4) /\
  _setupEncryptionV1V2V4 document (selected_version options)
    initial_dictionary options
    = Ok (keyBits security, encryptionKey security, dictionary security).
Proof.
  intros H5 H.
  pose proof (selected_version_not_5 options H5) as Hv.
  unfold PDFSecurity_new in H.
  destruct (negb (given (ownerPassword options))
            && negb (given (userPassword options))); [discriminate H |].
  rewrite setupEncryption_V1V2V4 in H by exact Hv.
  destruct (_setupEncryptionV1V2V4 _ _ _ _) as [[[kb key] dict] | e] eqn:E;
    [| discriminate H].
  injection H as <- <-. cbn [version keyBits encryptionKey dictionary].
  repeat split; try reflexivity. exact Hv.
Qed.

Lemma dictionary_V1V2V4_reads (v r kb : Z) (O U : Uint8Array) (P : Z) :
  v = 1 \/ v = 2 \/ v = 4 ->
  let dict := dictionary_V1V2V4 v r kb O U P in
  get_property "V" dict = Some (VNumber v) /\
  get_property "R" dict = Some (VNumber r) /\
  get_property "O" dict = Some (VBuffer O) /\
  get_property "U" dict = Some (VBuffer U) /\
  get_property "P" dict = Some (VNumber P).
Proof.
  intros [-> | [-> | ->]]; cbv zeta; repeat split; reflexivity.
Qed.

(** What a successful construction yields under versions 1, 2 and 4, with the
    entries named as in the encryption dictionary. *)
Lemma PDFSecurity_new_V1V2V4 (document : Document) (options : Options)
  (rs rs' : RandomSource) (security : PDFSecurity) :
  version_is options "1.7ext3" = false ->
  PDFSecurity_new document options rs = Ok (security, rs') ->
  let v := version security in
  let r := revision_of v in
  exists pu po U : Uint8Array,
    (v = 1 \/ v = 2 \/ v = 4) /\
    v = selected_version options /\
    keyBits security = key_bits_of v /\
    processPasswordR2R3R4 (userPassword options) = Ok pu /\
    padded_owner options pu = Ok po /\
    encryptionKey security
      = getEncryptionKeyR2R3R4 r (keyBits security) (_id document) pu
          (getOwnerPasswordR2R3R4 r (keyBits security) pu po)
          (permissions_of v options) /\
    user_entry r (_id document) (encryptionKey security) = Ok U /\
    get_property "V" (dictionary security) = Some (VNumber v) /\
    get_property "R" (dictionary security) = Some (VNumber r) /\
    get_property "O" (dictionary security)
      = Some (VBuffer (getOwnerPasswordR2R3R4 r (keyBits security) pu po)) /\
    get_property "U" (dictionary security) = Some (VBuffer U) /\
    get_property "P" (dictionary security)
      = Some (VNumber (permissions_of v options)).
Proof.
  intros H5 H. cbv zeta.
  destruct (PDFSecurity_new_V1V2V4_inv _ _ _ _ _ H5 H) as (_ & Hver & Hv & Hs).
  rewrite Hver.
  destruct (setupV1V2V4_inv _ _ _ _ _ _ Hv Hs)
    as (pu & po & U & Hpu & Hpo & Hkb & Hkey & HU & Hd).
  exists pu, po, U.
  destruct (dictionary_V1V2V4_reads (selected_version options)
              (revision_of (selected_version options)) (keyBits security)
              (getOwnerPasswordR2R3R4 (revision_of (selected_version options))
                 (keyBits security) pu po) U
              (permissions_of (selected_version options) options) Hv)
    as (HV & HR & HO & HUe & HP).
  rewrite <- Hd in HV, HR, HO, HUe, HP.
  repeat split; assumption.
Qed.

(** C2: the file encryption key of revisions 2 to 4.  For every revision and
    every non-negative key length, [getEncryptionKeyR2R3R4] is MD5 of the
    padded user password, the owner entry, the permissions as 4 little-endian
    bytes and the file identifier; under revision 3 and later MD5 is applied
    50 more times, each time to the first [keyBits / 8] bytes of the previous
    digest; the key is the first [keyBits / 8] bytes of the outcome.  For
    every pair of passwords, the key of a handler constructed for a PDF
    version other than 1.7ext3 is that value, for the padded user password,
    the [O] and [P] entries of its dictionary and the document identifier. *)
Theorem getEncryptionKeyR2R3R4_correct :
  (forall (r keyBits : Z) (documentId paddedUserPassword O : Uint8Array)
          (permissions : Z),
     0 <= keyBits ->
     getEncryptionKeyR2R3R4 r keyBits documentId paddedUserPassword O permissions
     = encryption_key_spec r keyBits paddedUserPassword O permissions
         documentId) /\
  (forall (document : Document) (options : Options) (rs rs' : RandomSource)
          (security : PDFSecurity),
     version_is options "1.7ext3" = false ->
     PDFSecurity_new document options rs = Ok (security, rs') ->
     exists (paddedUserPassword O : Uint8Array) (P : Z),
       processPasswordR2R3R4 (userPassword options) = Ok paddedUserPassword /\
       get_property "O" (dictionary security) = Some (VBuffer O) /\
       get_property "P" (dictionary security) = Some (VNumber P) /\
       2 <= revision_of (version security) <= 4 /\
       get_property "R" (dictionary security)
         = Some (VNumber (revision_of (version security))) /\
       encryptionKey security
       = encryption_key_spec (revision_of (version security))
           (keyBits security) paddedUserPassword O P (_id document)).
Proof.
  split; [intros; now apply getEncryptionKeyR2R3R4_spec |].
  intros document options rs rs' security H5 H.
  destruct (PDFSecurity_new_V1V2V4 _ _ _ _ _ H5 H)
    as (pu & po & U & Hv & _ & Hkb & Hpu & _ & Hkey & _ & _ & HR & HO & _ & HP).
  exists pu, (getOwnerPasswordR2R3R4 (revision_of (version security))
                (keyBits security) pu po),
    (permissions_of (version security) options).
  repeat split; try assumption.
  - destruct Hv as [-> | [-> | ->]]; cbn; lia.
  - destruct Hv as [-> | [-> | ->]]; cbn; lia.
  - rewrite Hkey. apply getEncryptionKeyR2R3R4_spec.
    rewrite Hkb. destruct Hv as [-> | [-> | ->]]; cbn; lia.
Qed.

(** ** The owner entry of revisions 2 to 4 *)

Context {L : CryptoLaws C}.

Lemma MD5_length (d : Uint8Array) : length (MD5 d) = 16%nat.
Proof using L. apply md5_length. Qed.

Lemma MD5_bytes (d : Uint8Array) : Forall is_byte (MD5 d).
Proof using L. apply md5_is_byte. Qed.

(** The owner entry as the specification words it. *)
Definition owner_entry_spec (r keyBits : Z)
  (paddedUserPassword paddedOwnerPassword : Uint8Array) : Uint8Array :=
  let digest :=
    Nat.iter (if 3 <=? r then 51%nat else 1%nat) MD5 paddedOwnerPassword in
  let key := take (Z.to_nat (keyBits / 8)) digest in
  if 3 <=? r then
    fold_left (fun cipher i => rc4 cipher (map (fun b => Z.lxor b i) key))
      (map Z.of_nat (seq 0 20)) paddedUserPassword
  else rc4 paddedUserPassword key.

Lemma fold_left_ext_in {A B} (f g : A -> B -> A) (l : list B) (a : A) :
  (forall a x, In x l -> f a x = g a x) -> fold_left f l a = fold_left g l a.
Proof.
  revert a. induction l as [|x l IH]; intros a H; [reflexivity |].
  cbn [fold_left]. rewrite (H a x) by (left; reflexivity).
  apply IH. intros a' y Hy. apply H. right. exact Hy.
Qed.

Lemma fold_left_map {A B D} (f : A -> B -> A) (g : D -> B) (l : list D) (a : A) :
  fold_left f (map g l) a = fold_left (fun a x => f a (g x)) l a.
Proof.
  revert a. induction l as [|x l IH]; intros a; [reflexivity |].
  cbn [map fold_left]. apply IH.
Qed.

Lemma getOwnerPasswordR2R3R4_spec (r keyBits : Z)
  (paddedUserPassword paddedOwnerPassword : Uint8Array) :
  0 <= keyBits <= 128 ->
  getOwnerPasswordR2R3R4 r keyBits paddedUserPassword paddedOwnerPassword
  = owner_entry_spec r keyBits paddedUserPassword paddedOwnerPassword.
Proof using L.
  intros Hk. unfold getOwnerPasswordR2R3R4, owner_entry_spec. cbv zeta.
  assert (Hn : 0 <= keyBits / 8 <= 16).
  { split; [apply Z.div_pos; lia |].
    apply Z.div_le_upper_bound; lia. }
  rewrite (for_range_iter _ (fun digest => md5Hash (MBytes digest))).
  fold MD5.
  rewrite slice_prefix by lia.
  set (rounds := if 3 <=? r then 51%nat else 1%nat).
  set (digest := Nat.iter rounds MD5 paddedOwnerPassword).
  assert (Hd : length digest = 16%nat /\ Forall is_byte digest).
  { unfold digest, rounds.
    destruct (3 <=? r); rewrite Nat.iter_succ;
      (split; [apply MD5_length | apply MD5_bytes]). }
  destruct Hd as [Hdl Hdb].
  set (key := take (Z.to_nat (keyBits / 8)) digest).
  assert (Hkl : length key = Z.to_nat (keyBits / 8)).
  { unfold key. rewrite length_take, Hdl. lia. }
  assert (Hkb : Forall is_byte key) by (apply Forall_take; exact Hdb).
  rewrite <- Hkl.
  destruct (3 <=? r).
  - unfold for_range. rewrite fold_left_map.
    apply fold_left_ext_in. intros cipher i Hi.
    apply in_seq in Hi.
    rewrite xor_key_bytes by (assumption || lia). reflexivity.
  - unfold for_range. cbn [seq fold_left].
    rewrite xor_key_bytes by (assumption || lia).
    cbn [Z.of_nat]. rewrite lxor_0_bytes. reflexivity.
Qed.

Lemma getOwnerPasswordR2R3R4_length (r keyBits : Z)
  (paddedUserPassword paddedOwnerPassword : Uint8Array) :
  length (getOwnerPasswordR2R3R4 r keyBits paddedUserPassword
            paddedOwnerPassword)
  = length paddedUserPassword.
Proof.
  unfold getOwnerPasswordR2R3R4. cbv zeta.
  apply (for_range_invariant
           (fun cipher => length cipher = length paddedUserPassword)).
  - reflexivity.
  - intros i cipher _ Hc. rewrite rc4_length. exact Hc.
Qed.

Lemma padded_owner_length (options : Options) (pu po : Uint8Array) :
  length pu = 32%nat -> padded_owner options pu = Ok po -> length po = 32%nat.
Proof.
  unfold padded_owner. destruct (given (ownerPassword options)).
  - intros _ H. eapply processPasswordR2R3R4_length. exact H.
  - intros Hpu H. injection H as <-. exact Hpu.
Qed.

(** C3: the owner entry of revisions 2 to 4.  For a key length between 0 and
    128 bits, [getOwnerPasswordR2R3R4] computes: the digest of the padded
    owner password under MD5 applied 51 times for revision 3 and later and
    once otherwise; as key the first [keyBits / 8] bytes of the digest; and as
    entry, under revision 2, RC4 of the padded user password under the key,
    and otherwise the outcome of the 20 RC4 rounds [i = 0 .. 19], round [i]
    keyed by the key with every byte XORed with [i].  The entry is as long as
    the padded user password.  For every pair of passwords, the [O] entry of a
    handler constructed for a PDF version other than 1.7ext3 is that value
    for the two padded passwords, and has exactly 32 bytes. *)
Theorem getOwnerPasswordR2R3R4_correct :
  (forall (r keyBits : Z) (paddedUserPassword paddedOwnerPassword : Uint8Array),
     0 <= keyBits <= 128 ->
     getOwnerPasswordR2R3R4 r keyBits paddedUserPassword paddedOwnerPassword
     = owner_entry_spec r keyBits paddedUserPassword paddedOwnerPassword /\
     length (getOwnerPasswordR2R3R4 r keyBits paddedUserPassword
               paddedOwnerPassword)
     = length paddedUserPassword) /\
  (forall (document : Document) (options : Options) (rs rs' : RandomSource)
          (security : PDFSecurity),
     version_is options "1.7ext3" = false ->
     PDFSecurity_new document options rs = Ok (security, rs') ->
     exists paddedUserPassword paddedOwnerPassword O : Uint8Array,
       processPasswordR2R3R4 (userPassword options) = Ok paddedUserPassword /\
       padded_owner options paddedUserPassword = Ok paddedOwnerPassword /\
       get_property "O" (dictionary security) = Some (VBuffer O) /\
       O = owner_entry_spec (revision_of (version security))
             (keyBits security) paddedUserPassword paddedOwnerPassword /\
       length O = 32%nat).
Proof using L.
  split.
  - intros r keyBits pu po Hk. split.
    + apply getOwnerPasswordR2R3R4_spec. exact Hk.
    + apply getOwnerPasswordR2R3R4_length.
  - intros document options rs rs' security H5 H.
    destruct (PDFSecurity_new_V1V2V4 _ _ _ _ _ H5 H)
      as (pu & po & U & Hv & _ & Hkb & Hpu & Hpo & _ & _ & _ & _ & HO & _).
    exists pu, po,
      (getOwnerPasswordR2R3R4 (revision_of (version security))
         (keyBits security) pu po).
    repeat split; try assumption.
    + apply getOwnerPasswordR2R3R4_spec.
      rewrite Hkb. destruct Hv as [-> | [-> | ->]]; cbn; lia.
    + rewrite getOwnerPasswordR2R3R4_length.
      eapply processPasswordR2R3R4_length. exact Hpu.
Qed.

(** ** The per-object encryptor *)

(** The states construction yields: the version with its key length, and a
    file key of [keyBits / 8] bytes (see [PDFSecurity_new_well_formed]). *)
Definition well_formed (this : PDFSecurity) : Prop :=
  (version this = 1 /\ keyBits this = 40 \/
   version this = 2 /\ keyBits this = 128 \/
   version this = 4 /\ keyBits this = 128 \/
   version this = 5 /\ keyBits this = 256) /\
  Z.of_nat (length (encryptionKey this)) = keyBits this / 8.

(** The random source after [n] more bytes were drawn. *)
Definition advance (rs : RandomSource) (n : nat) : RandomSource :=
  mkRandom (tape rs) (cursor rs + n)%nat.

(** The next [n] bytes of the random source. *)
Definition next_bytes (rs : RandomSource) (n : nat) : Uint8Array :=
  tape_segment rs (cursor rs) n.

(** The two kinds of function [getEncryptFn] returns. *)
Definition rc4_encryptor (key : Uint8Array) : Uint8Array -> M Uint8Array :=
  fun buffer rs => Ok (rc4 buffer key, rs).

Definition aes_encryptor (key iv : Uint8Array) : Uint8Array -> M Uint8Array :=
  fun buffer rs =>
    match aesCbcEncrypt buffer key iv true with
    | Ok encrypted => Ok (iv ++ encrypted, rs)
    | Throw e => Throw e
    end.

Definition salt_marker : Uint8Array := [0x73; 0x41; 0x6c; 0x54].

(** The key of the object [(obj, gen)] as the specification words it. *)
Definition object_key_spec (this : PDFSecurity) (obj gen : Z) : Uint8Array :=
  let suffix := le_bytes 3 obj ++ le_bytes 2 gen in
  let digest := encryptionKey this ++ suffix in
  let digest := if version this =? 4 then digest ++ salt_marker else digest in
  take (Z.to_nat (Z.min 16 (keyBits this / 8 + 5))) (MD5 digest).

Lemma getEncryptFn_rc4 (this : PDFSecurity) (obj gen : Z) (rs : RandomSource) :
  version this = 1 \/ version this = 2 -> 0 <= keyBits this ->
  exists f,
    getEncryptFn this obj gen rs = Ok (f, rs) /\
    forall buffer rs1,
      f buffer rs1 = rc4_encryptor (object_key_spec this obj gen) buffer rs1.
Proof.
  intros Hv Hk. unfold getEncryptFn. cbv zeta.
  rewrite object_suffix_bytes.
  assert (H12 : ((version this =? 1) || (version this =? 2)) = true).
  { destruct Hv as [-> | ->]; reflexivity. }
  assert (H4 : (version this =? 4) = false).
  { destruct Hv as [-> | ->]; reflexivity. }
  rewrite H12. eexists. split; [reflexivity |].
  intros buffer rs1. unfold rc4_encryptor, object_key_spec, ret. cbv zeta.
  rewrite H4. rewrite slice_prefix.
  - reflexivity.
  - assert (0 <= keyBits this / 8) by (apply Z.div_pos; lia). lia.
Qed.

Lemma getEncryptFn_aes (this : PDFSecurity) (obj gen : Z) (rs : RandomSource) :
  version this = 4 \/ version this = 5 ->
  exists f,
    getEncryptFn this obj gen rs = Ok (f, advance rs 16) /\
    forall buffer rs1,
      f buffer rs1 =
        aes_encryptor
          (if version this =? 4
           then MD5 ((encryptionKey this ++ le_bytes 3 obj ++ le_bytes 2 gen)
                     ++ salt_marker)
           else encryptionKey this)
          (next_bytes rs 16) buffer rs1.
Proof.
  intros Hv. unfold getEncryptFn. cbv zeta.
  rewrite object_suffix_bytes.
  assert (H12 : ((version this =? 1) || (version this =? 2)) = false).
  { destruct Hv as [-> | ->]; reflexivity. }
  rewrite H12.
  unfold bind at 1. unfold generateRandomWordArray, randomBytes, ret at 1.
  fold (next_bytes rs 16). fold (advance rs 16).
  eexists. split; [reflexivity |].
  intros buffer rs1. unfold aes_encryptor, bind, lift, ret.
  change (uint8_array [115; 65; 108; 84]) with salt_marker.
  unfold MD5.
  destruct (aesCbcEncrypt buffer _ _ true); reflexivity.
Qed.

Lemma next_bytes_length (rs : RandomSource) (n : nat) :
  length (next_bytes rs n) = n.
Proof.
  unfold next_bytes, tape_segment. rewrite length_map, length_seq. reflexivity.
Qed.

(** C1: the key of the per-object encryptor.  In a well-formed state, for
    every object number and generation: under versions 1 and 2
    [getEncryptFn] returns, without a random draw, the function that encrypts
    with RC4 under the first [min(16, keyBits / 8 + 5)] bytes of MD5 of the
    file key followed by the object number as 3 and the generation as 2
    little-endian bytes; under version 4 it returns the AES-CBC encryptor
    whose key is MD5 of the same input with 0x73 0x41 0x6c 0x54 appended, cut
    the same way; under version 5 the AES-CBC encryptor under the file key
    itself. *)
Theorem getEncryptFn_key (this : PDFSecurity) (obj gen : Z) (rs : RandomSource) :
  well_formed this ->
  (version this = 1 \/ version this = 2 ->
   exists f,
     getEncryptFn this obj gen rs = Ok (f, rs) /\
     forall buffer rs1,
       f buffer rs1 = rc4_encryptor (object_key_spec this obj gen) buffer rs1) /\
  (version this = 4 ->
   exists f,
     getEncryptFn this obj gen rs = Ok (f, advance rs 16) /\
     forall buffer rs1,
       f buffer rs1 =
         aes_encryptor (object_key_spec this obj gen) (next_bytes rs 16)
           buffer rs1) /\
  (version this = 5 ->
   exists f,
     getEncryptFn this obj gen rs = Ok (f, advance rs 16) /\
     forall buffer rs1,
       f buffer rs1 =
         aes_encryptor (encryptionKey this) (next_bytes rs 16) buffer rs1).
Proof using L.
  intros [Hvk Hlen]. split; [| split].
  - intros Hv. apply getEncryptFn_rc4; [exact Hv |].
    destruct Hvk as [[_ ->] | [[_ ->] | [[_ ->] | [_ ->]]]]; lia.
  - intros Hv.
    destruct (getEncryptFn_aes this obj gen rs (or_introl Hv)) as (f & Hf & Hcall).
    exists f. split; [exact Hf |].
    intros buffer rs1. rewrite Hcall.
    unfold object_key_spec. cbv zeta. rewrite Hv.
    assert (Hkb : keyBits this = 128).
    { destruct Hvk as [[Hv' _] | [[Hv' _] | [[_ Hk] | [Hv' _]]]];
        [congruence | congruence | exact Hk | congruence]. }
    rewrite Hkb.
    change (4 =? 4) with true. cbv iota.
    change (Z.to_nat (Z.min 16 (128 / 8 + 5))) with 16%nat.
    rewrite take_ge by (rewrite MD5_length; lia). reflexivity.
  - intros Hv.
    destruct (getEncryptFn_aes this obj gen rs (or_intror Hv)) as (f & Hf & Hcall).
    exists f. split; [exact Hf |].
    intros buffer rs1. rewrite Hcall. rewrite Hv.
    change (5 =? 4) with false. reflexivity.
Qed.

(** The key under which a version 4 or 5 encryptor runs is an AES key. *)
Lemma aes_key_well_formed (this : PDFSecurity) (obj gen : Z) :
  well_formed this -> version this = 4 \/ version this = 5 ->
  aes_key_length
    (if version this =? 4
     then MD5 ((encryptionKey this ++ le_bytes 3 obj ++ le_bytes 2 gen)
               ++ salt_marker)
     else encryptionKey this).
Proof using L.
  intros [Hvk Hlen] [Hv | Hv]; rewrite Hv.
  - change (4 =? 4) with true. cbv iota. left. apply MD5_length.
  - change (5 =? 4) with false. cbv iota. right. right.
    assert (Hkb : keyBits this = 256).
    { destruct Hvk as [[Hv' _] | [[Hv' _] | [[Hv' _] | [_ Hk]]]];
        [congruence | congruence | congruence | exact Hk]. }
    rewrite Hkb in Hlen. change (256 / 8) with 32 in Hlen. lia.
Qed.

Lemma advance_advance (rs : RandomSource) (a b : nat) :
  advance (advance rs a) b = advance rs (a + b).
Proof. unfold advance. cbn. f_equal. lia. Qed.

(** The bytes of the random source from [offset] cells after the cursor. *)
Definition random_at (rs : RandomSource) (offset n : nat) : Uint8Array :=
  tape_segment rs (cursor rs + offset) n.

Lemma next_bytes_advance (rs : RandomSource) (a n : nat) :
  next_bytes (advance rs a) n = random_at rs a n.
Proof. reflexivity. Qed.

Lemma random_at_advance (rs : RandomSource) (a b n : nat) :
  random_at (advance rs a) b n = random_at rs (a + b) n.
Proof. unfold random_at, advance. cbn. f_equal. lia. Qed.

Lemma next_bytes_random_at (rs : RandomSource) (n : nat) :
  next_bytes rs n = random_at rs 0 n.
Proof. unfold next_bytes, random_at. rewrite Nat.add_0_r. reflexivity. Qed.

Lemma random_at_length (rs : RandomSource) (a n : nat) :
  length (random_at rs a n) = n.
Proof.
  unfold random_at, tape_segment. rewrite length_map, length_seq. reflexivity.
Qed.

(** The key of a version 4 or 5 encryptor. *)
Definition aes_object_key (this : PDFSecurity) (obj gen : Z) : Uint8Array :=
  if version this =? 4 then object_key_spec this obj gen
  else encryptionKey this.

(** Under versions 4 and 5 [getEncryptFn] draws the IV, and the function it
    returns encrypts under that IV without touching the random source. *)
Lemma getEncryptFn_aes_calls (this : PDFSecurity) (obj gen : Z)
  (rs : RandomSource) :
  well_formed this -> version this = 4 \/ version this = 5 ->
  exists f,
    getEncryptFn this obj gen rs = Ok (f, advance rs 16) /\
    forall buffer rs1,
      exists encrypted,
        aesCbcEncrypt buffer (aes_object_key this obj gen) (next_bytes rs 16)
          true = Ok encrypted /\
        f buffer rs1 = Ok (next_bytes rs 16 ++ encrypted, rs1) /\
        take 16 (next_bytes rs 16 ++ encrypted) = next_bytes rs 16.
Proof using L.
  intros Hwf Hv.
  assert (Hiv : length (next_bytes rs 16) = 16%nat) by apply next_bytes_length.
  destruct (getEncryptFn_aes this obj gen rs Hv) as (f & Hf & Hcall).
  pose proof (aes_key_well_formed this obj gen Hwf Hv) as Hkey.
  assert (Hk : aes_object_key this obj gen
               = if version this =? 4
                 then MD5 ((encryptionKey this
                            ++ le_bytes 3 obj ++ le_bytes 2 gen)
                           ++ salt_marker)
                 else encryptionKey this).
  { unfold aes_object_key. destruct Hv as [Hv | Hv]; rewrite Hv.
    - change (4 =? 4) with true. cbv iota.
      unfold object_key_spec. cbv zeta. rewrite Hv.
      change (4 =? 4) with true. cbv iota.
      destruct Hwf as [Hvk _].
      assert (Hkb : keyBits this = 128).
      { destruct Hvk as [[Hv' _] | [[Hv' _] | [[_ Hk] | [Hv' _]]]];
          [congruence | congruence | exact Hk | congruence]. }
      rewrite Hkb.
      change (Z.to_nat (Z.min 16 (128 / 8 + 5))) with 16%nat.
      rewrite take_ge by (rewrite MD5_length; lia). reflexivity.
    - reflexivity. }
  rewrite <- Hk in Hcall, Hkey.
  exists f. split; [exact Hf |].
  intros buffer rs1.
  destruct (cbc_padded (aes_object_key this obj gen) (next_bytes rs 16) buffer
              Hkey Hiv) as (encrypted & Henc & _).
  exists encrypted.
  assert (Ha : aesCbcEncrypt buffer (aes_object_key this obj gen)
                 (next_bytes rs 16) true = Ok encrypted) by exact Henc.
  split; [exact Ha |]. split.
  - rewrite Hcall. unfold aes_encryptor. rewrite Ha. reflexivity.
  - rewrite take_app_le by lia. apply take_ge. lia.
Qed.

(** Running [getEncryptFn] and then the returned function twice on the same
    buffer. *)
Definition encrypt_twice (this : PDFSecurity) (obj gen : Z) (buffer : Uint8Array)
  : M (Uint8Array * Uint8Array) :=
  do f <- getEncryptFn this obj gen;
  do first <- f buffer;
  do second <- f buffer;
  ret (first, second).

(** Running [getEncryptFn] twice and then each returned function once on the
    same buffer. *)
Definition encrypt_each (this : PDFSecurity) (obj gen : Z) (buffer : Uint8Array)
  : M (Uint8Array * Uint8Array) :=
  do f <- getEncryptFn this obj gen;
  do g <- getEncryptFn this obj gen;
  do first <- f buffer;
  do second <- g buffer;
  ret (first, second).

(** C5, as the code has it: under versions 4 and 5 every call of
    [getEncryptFn] draws the next 16 bytes of the random source as IV, and
    every call of the function it returns draws nothing: it yields that same
    IV followed by the AES-CBC encryption (with padding) of its input under
    the per-object key (version 4) or the file key (version 5).  Two calls of
    the same returned function on the same input therefore yield the same
    bytes, while the functions of two calls of [getEncryptFn] carry the two
    successive draws. *)
Theorem getEncryptFn_iv (this : PDFSecurity) (obj gen : Z) (rs : RandomSource) :
  well_formed this -> version this = 4 \/ version this = 5 ->
  let iv := next_bytes rs 16 in
  let key := aes_object_key this obj gen in
  length iv = 16%nat /\
  (exists f,
     getEncryptFn this obj gen rs = Ok (f, advance rs 16) /\
     forall buffer rs1,
       exists encrypted,
         aesCbcEncrypt buffer key iv true = Ok encrypted /\
         f buffer rs1 = Ok (iv ++ encrypted, rs1) /\
         take 16 (iv ++ encrypted) = iv) /\
  (forall buffer,
     exists out,
       encrypt_twice this obj gen buffer rs = Ok ((out, out), advance rs 16)) /\
  (forall buffer,
     exists encrypted,
       aesCbcEncrypt buffer key (random_at rs 0 16) true = Ok encrypted /\
       exists encrypted',
         aesCbcEncrypt buffer key (random_at rs 16 16) true = Ok encrypted' /\
         encrypt_each this obj gen buffer rs
         = Ok ((random_at rs 0 16 ++ encrypted,
                random_at rs 16 16 ++ encrypted'), advance rs 32)).
Proof using L.
  intros Hwf Hv iv key.
  destruct (getEncryptFn_aes_calls this obj gen rs Hwf Hv) as (f & Hf & Hcalls).
  destruct (getEncryptFn_aes_calls this obj gen (advance rs 16) Hwf Hv)
    as (g & Hg & Hcalls').
  rewrite advance_advance in Hg. change (16 + 16)%nat with 32%nat in Hg.
  split; [apply next_bytes_length |].
  split; [exists f; split; [exact Hf | exact Hcalls] |].
  split.
  - intros buffer.
    destruct (Hcalls buffer (advance rs 16)) as (encrypted & _ & Hrun & _).
    exists (iv ++ encrypted).
    unfold encrypt_twice, bind, ret. rewrite Hf, Hrun, Hrun. reflexivity.
  - intros buffer.
    destruct (Hcalls buffer (advance rs 32)) as (encrypted & Henc & Hrun & _).
    destruct (Hcalls' buffer (advance rs 32)) as (encrypted' & Henc' & Hrun' & _).
    rewrite next_bytes_random_at in Henc, Hrun.
    rewrite next_bytes_advance in Henc', Hrun'.
    exists encrypted. split; [exact Henc |].
    exists encrypted'. split; [exact Henc' |].
    unfold encrypt_each, bind, ret. rewrite Hf, Hg, Hrun, Hrun'. reflexivity.
Qed.

(** [ceil(a / b)] on natural numbers. *)
Definition ceil_div (a b : nat) : nat := ((a + b - 1) / b)%nat.

Lemma ceil_div_succ_16 (n : nat) : ceil_div (n + 1) 16 = (n / 16 + 1)%nat.
Proof.
  unfold ceil_div.
  replace (n + 1 + 16 - 1)%nat with (n + 1 * 16)%nat by lia.
  apply Nat.div_add. lia.
Qed.

(** C6: the length of the encrypted bytes.  In a well-formed state
    [getEncryptFn] returns a function, and that function returns for every
    buffer of [n] bytes: exactly [n] bytes under versions 1 and 2, and exactly
    [16 + ceil((n + 1) / 16) * 16] bytes under versions 4 and 5. *)
Theorem getEncryptFn_length (this : PDFSecurity) (obj gen : Z)
  (rs rs1 : RandomSource) (buffer : Uint8Array) :
  well_formed this ->
  exists f rs' out,
    getEncryptFn this obj gen rs = Ok (f, rs') /\
    f buffer rs1 = Ok (out, rs1) /\
    (version this = 1 \/ version this = 2 -> length out = length buffer) /\
    (version this = 4 \/ version this = 5 ->
     length out = (16 + ceil_div (length buffer + 1) 16 * 16)%nat).
Proof using L.
  intros Hwf. pose proof Hwf as [Hvk Hlen].
  assert (Hcases : (version this = 1 \/ version this = 2)
                   \/ (version this = 4 \/ version this = 5)).
  { destruct Hvk as [[? _] | [[? _] | [[? _] | [? _]]]]; tauto. }
  destruct Hcases as [Hv | Hv].
  - destruct (getEncryptFn_rc4 this obj gen rs Hv) as (f & Hf & Hcall).
    { destruct Hvk as [[_ ->] | [[_ ->] | [[_ ->] | [_ ->]]]]; lia. }
    exists f, rs, (rc4 buffer (object_key_spec this obj gen)).
    split; [exact Hf |]. split; [apply Hcall |]. split.
    + intros _. apply rc4_length.
    + intros Hv'. exfalso. destruct Hv as [Hv | Hv], Hv' as [Hv' | Hv']; congruence.
  - destruct (getEncryptFn_aes this obj gen rs Hv) as (f & Hf & Hcall).
    pose proof (aes_key_well_formed this obj gen Hwf Hv) as Hkey.
    destruct (cbc_padded _ (next_bytes rs 16) buffer Hkey
                (next_bytes_length rs 16)) as (encrypted & Henc & Hel).
    exists f, (advance rs 16), (next_bytes rs 16 ++ encrypted).
    split; [exact Hf |]. split; [| split].
    + rewrite Hcall. unfold aes_encryptor, aesCbcEncrypt.
      change (negb true) with false. rewrite Henc. reflexivity.
    + intros Hv'. exfalso. destruct Hv as [Hv | Hv], Hv' as [Hv' | Hv']; congruence.
    + intros _. rewrite length_app, next_bytes_length, Hel, ceil_div_succ_16.
      reflexivity.
Qed.

(** ** Construction under version 5 *)

Lemma bind_inv {A B} (m : M A) (k : A -> M B) (rs rs' : RandomSource) (b : B) :
  bind m k rs = Ok (b, rs') ->
  exists a rs1, m rs = Ok (a, rs1) /\ k a rs1 = Ok (b, rs').
Proof.
  unfold bind. destruct (m rs) as [[a rs1] | e]; intros H; [| discriminate H].
  exists a, rs1. split; [reflexivity | exact H].
Qed.

Lemma lift_inv {A} (x : result A) (rs rs' : RandomSource) (a : A) :
  lift x rs = Ok (a, rs') -> x = Ok a /\ rs' = rs.
Proof.
  unfold lift. destruct x as [a' | e]; intros H; [| discriminate H].
  injection H as <- <-. split; reflexivity.
Qed.

Lemma ret_inv {A} (x a : A) (rs rs' : RandomSource) :
  ret x rs = Ok (a, rs') -> a = x /\ rs' = rs.
Proof. unfold ret. intros H. injection H as <- <-. split; reflexivity. Qed.

Lemma generateRandomWordArray_inv (n : nat) (rs rs' : RandomSource)
  (a : Uint8Array) :
  generateRandomWordArray n rs = Ok (a, rs') ->
  a = next_bytes rs n /\ rs' = advance rs n.
Proof.
  unfold generateRandomWordArray, randomBytes. intros H.
  injection H as <- <-. split; reflexivity.
Qed.

(** A password entry of revision 5: hash, validation salt, key salt. *)
Lemma entry_key_salt (hash validationSalt keySalt : Uint8Array) :
  length hash = 32%nat -> length validationSalt = 8%nat ->
  length keySalt = 8%nat ->
  slice (hash ++ validationSalt ++ keySalt) 40 48 = keySalt.
Proof.
  intros Hh Hv Hk.
  change 40 with (Z.of_nat 40). change 48 with (Z.of_nat 48).
  rewrite slice_range by (rewrite !length_app; lia).
  rewrite app_assoc.
  rewrite drop_app_length' by (rewrite length_app; lia).
  apply take_ge. lia.
Qed.

(** The encryption dictionary of version 5, property by property. *)
Definition dictionary_V5 (O OE U UE : Uint8Array) (P : Z) (Perms : Uint8Array)
  : Dict :=
  [("Filter"%string, VString (lit "Standard"));
   ("V"%string, VNumber 5);
   ("Length"%string, VNumber 256);
   ("CF"%string,
    VObject
      [("StdCF"%string,
        VObject [("AuthEvent"%string, VString (lit "DocOpen"));
                 ("CFM"%string, VString (lit "AESV3"));
                 ("Length"%string, VNumber (256 / 8))])]);
   ("StmF"%string, VString (lit "StdCF"));
   ("StrF"%string, VString (lit "StdCF"));
   ("R"%string, VNumber 5);
   ("O"%string, VBuffer O);
   ("OE"%string, VBuffer OE);
   ("U"%string, VBuffer U);
   ("UE"%string, VBuffer UE);
   ("P"%string, VNumber P);
   ("Perms"%string, VBuffer Perms)].

Lemma dictionary_V5_built (O OE U UE : Uint8Array) (P : Z) (Perms : Uint8Array) :
  set_property "Perms" (VBuffer Perms)
    (set_property "P" (VNumber P)
       (set_property "UE" (VBuffer UE)
          (set_property "U" (VBuffer U)
             (set_property "OE" (VBuffer OE)
                (set_property "O" (VBuffer O)
                   (set_property "R" (VNumber 5)
                      (set_property "StrF" (VString (lit "StdCF"))
                         (set_property "StmF" (VString (lit "StdCF"))
                            (set_property "CF"
                               (VObject
                                  [("StdCF"%string,
                                    VObject
                                      [("AuthEvent"%string,
                                        VString (lit "DocOpen"));
                                       ("CFM"%string, VString (lit "AESV3"));
                                       ("Length"%string, VNumber (256 / 8))])])
                               (set_property "Length" (VNumber 256)
                                  (set_property "V" (VNumber 5)
                                     initial_dictionary)))))))))))
  = dictionary_V5 O OE U UE P Perms.
Proof. reflexivity. Qed.

(** The block [getEncryptedPermissionsR5] encrypts. *)
Definition permissions_block (permissions : Z) (randomPart : Uint8Array)
  : Uint8Array :=
  le_bytes 4 permissions ++ [0xff; 0xff; 0xff; 0xff]
  ++ [0x54; 0x61; 0x64; 0x62] ++ randomPart.

Lemma getEncryptedPermissionsR5_inv (permissions : Z) (encryptionKey : Uint8Array)
  (rs rs' : RandomSource) (entry : Uint8Array) :
  getEncryptedPermissionsR5 permissions encryptionKey generateRandomWordArray rs
    = Ok (entry, rs') ->
  aesEcbEncrypt (permissions_block permissions (next_bytes rs 4)) encryptionKey
    = Ok entry /\
  rs' = advance rs 4.
Proof.
  unfold getEncryptedPermissionsR5. cbv zeta. intros H.
  apply bind_inv in H as (randomPart & rs1 & H1 & H).
  apply generateRandomWordArray_inv in H1 as [-> ->].
  apply bind_inv in H as (data & rs2 & H2 & H).
  apply lift_inv in H2 as [H2 ->].
  apply lift_inv in H as [H ->].
  split; [| reflexivity].
  assert (Hd : data = permissions_block permissions (next_bytes rs 4)).
  { unfold uint8_set in H2.
    rewrite !length_insert, length_replicate, next_bytes_length in H2.
    change (16 <? 12 + 4)%nat with false in H2. injection H2 as <-.
    unfold permissions_block. rewrite <- permissions_bytes.
    unfold uint8_array. cbn [map app].
    reflexivity. }
  rewrite <- Hd. exact H.
Qed.

Lemma getUserPasswordR5_inv (pu : Uint8Array) (rs rs' : RandomSource)
  (entry : Uint8Array) :
  getUserPasswordR5 pu generateRandomWordArray rs = Ok (entry, rs') ->
  entry = sha256Hash (pu ++ next_bytes rs 8) ++ next_bytes rs 8
          ++ random_at rs 8 8 /\
  rs' = advance rs 16.
Proof.
  unfold getUserPasswordR5. cbv zeta. intros H.
  apply bind_inv in H as (validationSalt & rs1 & H1 & H).
  apply generateRandomWordArray_inv in H1 as [-> ->].
  apply bind_inv in H as (keySalt & rs2 & H2 & H).
  apply generateRandomWordArray_inv in H2 as [-> ->].
  apply ret_inv in H as [-> ->].
  rewrite advance_advance, next_bytes_advance. split; reflexivity.
Qed.

Lemma getOwnerPasswordR5_inv (po U : Uint8Array) (rs rs' : RandomSource)
  (entry : Uint8Array) :
  getOwnerPasswordR5 po U generateRandomWordArray rs = Ok (entry, rs') ->
  entry = sha256Hash (po ++ next_bytes rs 8 ++ U) ++ next_bytes rs 8
          ++ random_at rs 8 8 /\
  rs' = advance rs 16.
Proof.
  unfold getOwnerPasswordR5. cbv zeta. intros H.
  apply bind_inv in H as (validationSalt & rs1 & H1 & H).
  apply generateRandomWordArray_inv in H1 as [-> ->].
  apply bind_inv in H as (keySalt & rs2 & H2 & H).
  apply generateRandomWordArray_inv in H2 as [-> ->].
  apply ret_inv in H as [-> ->].
  rewrite advance_advance, next_bytes_advance. split; reflexivity.
Qed.

(** The processed owner password: the owner password when it is given, and
    the user password otherwise. *)
Definition processed_owner (options : Options) (processedUserPassword : Uint8Array)
  : result Uint8Array :=
  if given (ownerPassword options)
  then processPasswordR5 (ownerPassword options)
  else Ok processedUserPassword.

(** The entries of revision 5, for the two processed passwords and the
    random bytes from the cursor of [rs] on: 32 bytes of file key, the two
    salts of the user entry, the two salts of the owner entry, and the 4
    random bytes of the permissions block. *)
Definition U_entry (rs : RandomSource) (pu : Uint8Array) : Uint8Array :=
  sha256Hash (pu ++ random_at rs 32 8) ++ random_at rs 32 8 ++ random_at rs 40 8.

Definition O_entry (rs : RandomSource) (pu po : Uint8Array) : Uint8Array :=
  sha256Hash (po ++ random_at rs 48 8 ++ U_entry rs pu)
  ++ random_at rs 48 8 ++ random_at rs 56 8.

Definition zero_iv : Uint8Array := replicate 16 0.

Lemma setupV5_inv (options : Options) (rs rs' : RandomSource) (kb : Z)
  (key : Uint8Array) (dict : Dict) :
  _setupEncryptionV5 initial_dictionary options rs = Ok ((kb, key, dict), rs') ->
  exists pu po UE OE Perms : Uint8Array,
    processPasswordR5 (userPassword options) = Ok pu /\
    processed_owner options pu = Ok po /\
    kb = 256 /\
    key = random_at rs 0 32 /\
    aesCbcEncrypt key (sha256Hash (pu ++ random_at rs 40 8)) zero_iv false
      = Ok UE /\
    aesCbcEncrypt key
      (sha256Hash (po ++ random_at rs 56 8 ++ U_entry rs pu)) zero_iv false
      = Ok OE /\
    aesEcbEncrypt
      (permissions_block (getPermissionsR3 (permissions options))
         (random_at rs 64 4)) key
      = Ok Perms /\
    dict = dictionary_V5 (O_entry rs pu po) OE (U_entry rs pu) UE
             (getPermissionsR3 (permissions options)) Perms /\
    rs' = advance rs 68.
Proof using L.
  unfold _setupEncryptionV5. cbv zeta. intros H.
  apply bind_inv in H as (pu & r & H1 & H).
  apply lift_inv in H1 as [Hpu ->].
  apply bind_inv in H as (po & r & H1 & H).
  apply lift_inv in H1 as [Hpo ->].
  apply bind_inv in H as (key' & r & H1 & H).
  apply generateRandomWordArray_inv in H1 as [-> ->].
  apply bind_inv in H as (U & r & H1 & H).
  apply getUserPasswordR5_inv in H1 as [-> ->].
  apply bind_inv in H as (UE & r & H1 & H).
  apply lift_inv in H1 as [HUE ->].
  apply bind_inv in H as (O & r & H1 & H).
  apply getOwnerPasswordR5_inv in H1 as [-> ->].
  apply bind_inv in H as (OE & r & H1 & H).
  apply lift_inv in H1 as [HOE ->].
  apply bind_inv in H as (Perms & r & H1 & H).
  apply getEncryptedPermissionsR5_inv in H1 as [HP ->].
  apply ret_inv in H as [H ->].
  pose proof (f_equal (fun x => fst (fst x)) H) as Hkb.
  pose proof (f_equal (fun x => snd (fst x)) H) as Hkey.
  pose proof (f_equal snd H) as Hdict.
  cbv beta in Hkb, Hkey, Hdict. cbn [fst snd] in Hkb, Hkey, Hdict.
  clear H. subst kb key dict.
  rewrite dictionary_V5_built.
  unfold getUserEncryptionKeyR5 in HUE. unfold getOwnerEncryptionKeyR5 in HOE.
  cbv zeta in HUE, HOE.
  rewrite !advance_advance in *.
  rewrite !next_bytes_advance, ?random_at_advance in *.
  change (32 + 8)%nat with 40%nat in *.
  change (32 + 16)%nat with 48%nat in *.
  change (48 + 8)%nat with 56%nat in *.
  change (48 + 16)%nat with 64%nat in *.
  change (64 + 4)%nat with 68%nat.
  fold (U_entry rs pu) in *. fold (O_entry rs pu po) in *.
  unfold U_entry in HUE at 1. unfold O_entry in HOE at 1.
  rewrite entry_key_salt in HUE, HOE
    by (apply sha256_length || apply random_at_length).
  rewrite next_bytes_random_at in *.
  fold zero_iv in HUE, HOE.
  exists pu, po, UE, OE, Perms.
  repeat split; assumption.
Qed.

Lemma bind_run {A B} (m : M A) (k : A -> M B) (rs rs1 : RandomSource) (a : A) :
  m rs = Ok (a, rs1) -> bind m k rs = k a rs1.
Proof. intros H. unfold bind. rewrite H. reflexivity. Qed.

Lemma lift_run {A} (x : result A) (a : A) (rs : RandomSource) :
  x = Ok a -> lift x rs = Ok (a, rs).
Proof. intros ->. reflexivity. Qed.

Lemma getUserPasswordR5_run (pu : Uint8Array) (rs : RandomSource) :
  getUserPasswordR5 pu generateRandomWordArray rs
  = Ok (sha256Hash (pu ++ next_bytes rs 8) ++ next_bytes rs 8
        ++ random_at rs 8 8, advance rs 16).
Proof.
  unfold getUserPasswordR5, bind, generateRandomWordArray, randomBytes, ret.
  cbv zeta. fold (next_bytes rs 8). fold (advance rs 8).
  fold (next_bytes (advance rs 8) 8). fold (advance (advance rs 8) 8).
  rewrite advance_advance, next_bytes_advance. reflexivity.
Qed.

Lemma getOwnerPasswordR5_run (po U : Uint8Array) (rs : RandomSource) :
  getOwnerPasswordR5 po U generateRandomWordArray rs
  = Ok (sha256Hash (po ++ next_bytes rs 8 ++ U) ++ next_bytes rs 8
        ++ random_at rs 8 8, advance rs 16).
Proof.
  unfold getOwnerPasswordR5, bind, generateRandomWordArray, randomBytes, ret.
  cbv zeta. fold (next_bytes rs 8). fold (advance rs 8).
  fold (next_bytes (advance rs 8) 8). fold (advance (advance rs 8) 8).
  rewrite advance_advance, next_bytes_advance. reflexivity.
Qed.

Lemma permissions_block_length (p : Z) (randomPart : Uint8Array) :
  length randomPart = 4%nat -> length (permissions_block p randomPart) = 16%nat.
Proof.
  intros H. unfold permissions_block, le_bytes.
  rewrite !length_app, length_map, length_seq, H. reflexivity.
Qed.

Lemma getEncryptedPermissionsR5_run (p : Z) (key entry : Uint8Array)
  (rs : RandomSource) :
  aesEcbEncrypt (permissions_block p (next_bytes rs 4)) key = Ok entry ->
  getEncryptedPermissionsR5 p key generateRandomWordArray rs
  = Ok (entry, advance rs 4).
Proof.
  intros H.
  destruct (getEncryptedPermissionsR5 p key generateRandomWordArray rs)
    as [[entry' rs'] | e] eqn:E.
  - apply getEncryptedPermissionsR5_inv in E as [E ->].
    rewrite H in E. injection E as ->. reflexivity.
  - exfalso. revert E.
    unfold getEncryptedPermissionsR5. cbv zeta.
    rewrite (bind_run _ _ rs (advance rs 4) (next_bytes rs 4))
      by reflexivity.
    set (data := <[11%nat:=_]> _).
    assert (Hset : uint8_set data (next_bytes rs 4) 12
                   = Ok (permissions_block p (next_bytes rs 4))).
    { unfold uint8_set, data.
      rewrite !length_insert, length_replicate, next_bytes_length.
      change (16 <? 12 + 4)%nat with false. cbv iota.
      unfold permissions_block. rewrite <- permissions_bytes.
      reflexivity. }
    rewrite (bind_run _ _ _ _ _ (lift_run _ _ _ Hset)).
    rewrite (lift_run _ _ _ H). discriminate.
Qed.

(** Under version 5 construction succeeds whenever the two passwords can be
    processed, and yields the entries below. *)
Lemma setupV5_run (options : Options) (rs : RandomSource) (pu po : Uint8Array) :
  processPasswordR5 (userPassword options) = Ok pu ->
  processed_owner options pu = Ok po ->
  exists UE OE Perms : Uint8Array,
    aesCbcEncrypt (random_at rs 0 32) (sha256Hash (pu ++ random_at rs 40 8))
      zero_iv false = Ok UE /\
    aesCbcEncrypt (random_at rs 0 32)
      (sha256Hash (po ++ random_at rs 56 8 ++ U_entry rs pu)) zero_iv false
      = Ok OE /\
    aesEcbEncrypt
      (permissions_block (getPermissionsR3 (permissions options))
         (random_at rs 64 4)) (random_at rs 0 32)
      = Ok Perms /\
    length UE = 32%nat /\ length OE = 32%nat /\ length Perms = 16%nat /\
    _setupEncryptionV5 initial_dictionary options rs
    = Ok ((256, random_at rs 0 32,
           dictionary_V5 (O_entry rs pu po) OE (U_entry rs pu) UE
             (getPermissionsR3 (permissions options)) Perms),
          advance rs 68).
Proof using L.
  intros Hpu Hpo.
  assert (Hsha : forall d, aes_key_length (sha256Hash d)).
  { intros d. right. right. apply sha256_length. }
  assert (Hkey : aes_key_length (random_at rs 0 32)).
  { right. right. apply random_at_length. }
  assert (Hiv : length zero_iv = 16%nat) by reflexivity.
  assert (Hdata : (length (random_at rs 0 32) mod 16 = 0)%nat).
  { rewrite random_at_length. reflexivity. }
  destruct (cbc_unpadded (sha256Hash (pu ++ random_at rs 40 8)) zero_iv
              (random_at rs 0 32) (Hsha _) Hiv Hdata) as (UE & HUE & HUEl).
  destruct (cbc_unpadded
              (sha256Hash (po ++ random_at rs 56 8 ++ U_entry rs pu)) zero_iv
              (random_at rs 0 32) (Hsha _) Hiv Hdata) as (OE & HOE & HOEl).
  destruct (ecb_unpadded (random_at rs 0 32)
              (permissions_block (getPermissionsR3 (permissions options))
                 (random_at rs 64 4)) Hkey) as (Perms & HP & HPl).
  { rewrite permissions_block_length by apply random_at_length. reflexivity. }
  rewrite random_at_length in HUEl, HOEl.
  rewrite permissions_block_length in HPl by apply random_at_length.
  exists UE, OE, Perms.
  repeat split; try assumption.
  unfold _setupEncryptionV5. cbv zeta.
  rewrite (bind_run _ _ _ _ _ (lift_run _ _ rs Hpu)).
  fold (processed_owner options pu).
  rewrite (bind_run _ _ _ _ _ (lift_run _ _ rs Hpo)).
  rewrite (bind_run _ _ rs (advance rs 32) (next_bytes rs 32)) by reflexivity.
  rewrite (bind_run _ _ _ _ _ (getUserPasswordR5_run pu (advance rs 32))).
  rewrite !advance_advance, !next_bytes_advance, ?random_at_advance.
  change (32 + 8)%nat with 40%nat. change (32 + 16)%nat with 48%nat.
  fold (U_entry rs pu).
  rewrite next_bytes_random_at.
  assert (HUE' : getUserEncryptionKeyR5 pu (slice (U_entry rs pu) 40 48)
                   (random_at rs 0 32) = Ok UE).
  { unfold getUserEncryptionKeyR5, U_entry. cbv zeta.
    rewrite entry_key_salt
      by (apply sha256_length || apply random_at_length).
    exact HUE. }
  rewrite (bind_run _ _ _ _ _ (lift_run _ _ _ HUE')).
  rewrite (bind_run _ _ _ _ _
             (getOwnerPasswordR5_run po (U_entry rs pu) (advance rs 48))).
  rewrite !advance_advance, !next_bytes_advance, ?random_at_advance.
  change (48 + 8)%nat with 56%nat. change (48 + 16)%nat with 64%nat.
  fold (O_entry rs pu po).
  assert (HOE' : getOwnerEncryptionKeyR5 po (slice (O_entry rs pu po) 40 48)
                   (U_entry rs pu) (random_at rs 0 32) = Ok OE).
  { unfold getOwnerEncryptionKeyR5, O_entry. cbv zeta.
    rewrite entry_key_salt
      by (apply sha256_length || apply random_at_length).
    exact HOE. }
  rewrite (bind_run _ _ _ _ _ (lift_run _ _ _ HOE')).
  assert (HP' : aesEcbEncrypt
                  (permissions_block (getPermissionsR3 (permissions options))
                     (next_bytes (advance rs 64) 4)) (random_at rs 0 32)
                = Ok Perms).
  { rewrite next_bytes_advance. exact HP. }
  rewrite (bind_run _ _ _ _ _ (getEncryptedPermissionsR5_run _ _ _ _ HP')).
  rewrite advance_advance. change (64 + 4)%nat with 68%nat.
  rewrite dictionary_V5_built. reflexivity.
Qed.

Lemma setupEncryption_V5 (document : Document) (options : Options)
  (rs : RandomSource) :
  version_is options "1.7ext3" = true ->
  _setupEncryption document options rs =
    match _setupEncryptionV5 initial_dictionary options rs with
    | Ok ((kb, key, dict), rs') =>
        Ok ({| version := 5; keyBits := kb; encryptionKey := key;
               dictionary := dict |}, rs')
    | Throw e => Throw e
    end.
Proof.
  intros H5. unfold _setupEncryption.
  change (if version_is options "1.4" || version_is options "1.5" then 2
          else if version_is options "1.6" || version_is options "1.7" then 4
          else if version_is options "1.7ext3" then 5 else 1)
    with (selected_version options).
  fold initial_dictionary. cbv zeta. unfold bind, ret.
  rewrite (selected_version_5 options H5).
  destruct (_setupEncryptionV5 initial_dictionary options rs)
    as [[[[kb key] dict] rs'] | e]; reflexivity.
Qed.

Lemma encryption_key_spec_length (r keyBits : Z) (pu O : Uint8Array) (P : Z)
  (fileID1 : Uint8Array) :
  0 <= keyBits <= 128 ->
  Z.of_nat (length (encryption_key_spec r keyBits pu O P fileID1)) = keyBits / 8.
Proof using L.
  intros Hk. unfold encryption_key_spec. cbv zeta.
  assert (Hn : 0 <= keyBits / 8 <= 16).
  { split; [apply Z.div_pos; lia | apply Z.div_le_upper_bound; lia]. }
  rewrite length_take.
  assert (Hl : length (if 3 <=? r
                       then Nat.iter 50
                              (fun k => MD5 (take (Z.to_nat (keyBits / 8)) k))
                              (MD5 (pu ++ O ++ le_bytes 4 P ++ fileID1))
                       else MD5 (pu ++ O ++ le_bytes 4 P ++ fileID1)) = 16%nat).
  { destruct (3 <=? r); [rewrite Nat.iter_succ |]; apply MD5_length. }
  rewrite Hl. lia.
Qed.

(** Construction yields a well-formed state. *)
Lemma PDFSecurity_new_well_formed (document : Document) (options : Options)
  (rs rs' : RandomSource) (security : PDFSecurity) :
  PDFSecurity_new document options rs = Ok (security, rs') ->
  well_formed security.
Proof using L.
  intros H. destruct (version_is options "1.7ext3") eqn:H5.
  - unfold PDFSecurity_new in H.
    destruct (negb (given (ownerPassword options))
              && negb (given (userPassword options))); [discriminate H |].
    rewrite setupEncryption_V5 in H by exact H5.
    destruct (_setupEncryptionV5 initial_dictionary options rs)
      as [[[[kb key] dict] rs1] | e] eqn:E; [| discriminate H].
    apply setupV5_inv in E
      as (pu & po & UE & OE & Perms & _ & _ & -> & -> & _).
    injection H as <- <-. unfold well_formed.
    cbn [version keyBits encryptionKey].
    split; [tauto |]. rewrite random_at_length. reflexivity.
  - destruct (PDFSecurity_new_V1V2V4 _ _ _ _ _ H5 H)
      as (pu & po & U & Hv & _ & Hkb & _ & _ & Hkey & _).
    unfold well_formed. split.
    + rewrite Hkb. destruct Hv as [Hv | [Hv | Hv]]; rewrite Hv; cbn; tauto.
    + rewrite Hkey. rewrite getEncryptionKeyR2R3R4_spec.
      * apply encryption_key_spec_length.
        rewrite Hkb. destruct Hv as [-> | [-> | ->]]; cbn; lia.
      * rewrite Hkb. destruct Hv as [-> | [-> | ->]]; cbn; lia.
Qed.

(** A password entry of revision 5: a SHA-256 hash of [hashed] followed by the
    8-byte validation salt and the 8-byte key salt. *)
Definition R5_password_entry (entry : Uint8Array)
  (hashed : Uint8Array -> Uint8Array) : Prop :=
  exists validationSalt keySalt : Uint8Array,
    length validationSalt = 8%nat /\ length keySalt = 8%nat /\
    length (sha256Hash (hashed validationSalt)) = 32%nat /\
    entry = sha256Hash (hashed validationSalt) ++ validationSalt ++ keySalt.

Lemma dictionary_V5_reads (O OE U UE : Uint8Array) (P : Z) (Perms : Uint8Array) :
  let dict := dictionary_V5 O OE U UE P Perms in
  get_property "V" dict = Some (VNumber 5) /\
  get_property "R" dict = Some (VNumber 5) /\
  get_property "O" dict = Some (VBuffer O) /\
  get_property "OE" dict = Some (VBuffer OE) /\
  get_property "U" dict = Some (VBuffer U) /\
  get_property "UE" dict = Some (VBuffer UE) /\
  get_property "P" dict = Some (VNumber P) /\
  get_property "Perms" dict = Some (VBuffer Perms).
Proof. cbv zeta. repeat split; reflexivity. Qed.

Lemma PDFSecurity_new_V5_inv (document : Document) (options : Options)
  (rs rs' : RandomSource) (security : PDFSecurity) :
  version_is options "1.7ext3" = true ->
  PDFSecurity_new document options rs = Ok (security, rs') ->
  version security = 5 /\
  _setupEncryptionV5 initial_dictionary options rs
  = Ok ((keyBits security, encryptionKey security, dictionary security), rs').
Proof.
  intros H5 H. unfold PDFSecurity_new in H.
  destruct (negb (given (ownerPassword options))
            && negb (given (userPassword options))); [discriminate H |].
  rewrite setupEncryption_V5 in H by exact H5.
  destruct (_setupEncryptionV5 initial_dictionary options rs)
    as [[[[kb key] dict] rs1] | e] eqn:E; [| discriminate H].
  injection H as <- <-. split; reflexivity.
Qed.

(** C7: the encryption dictionary of version 5 (PDF version 1.7ext3).
    Whenever construction succeeds, [U] and [O] have 48 bytes each: the
    32-byte SHA-256 hash (of the processed user password and the validation
    salt for [U]; of the processed owner password, the validation salt and
    [U] for [O]), the 8-byte validation salt and the 8-byte key salt; [UE]
    and [OE] have 32 bytes each; and [Perms] has 16 bytes and is the AES-ECB
    encryption, under the 32-byte file key, of the block made of the
    permissions [P] as 4 little-endian bytes, four bytes 0xff, the bytes 0x54
    0x61 0x64 0x62 and 4 random bytes.  Construction succeeds whenever a
    password is given and the passwords can be processed. *)
Theorem encryption_dictionary_V5 (document : Document) (options : Options)
  (rs : RandomSource) :
  version_is options "1.7ext3" = true ->
  (forall (security : PDFSecurity) (rs' : RandomSource),
     PDFSecurity_new document options rs = Ok (security, rs') ->
     exists (pu po U O UE OE Perms : Uint8Array) (P : Z),
       processPasswordR5 (userPassword options) = Ok pu /\
       processed_owner options pu = Ok po /\
       get_property "U" (dictionary security) = Some (VBuffer U) /\
       get_property "O" (dictionary security) = Some (VBuffer O) /\
       get_property "UE" (dictionary security) = Some (VBuffer UE) /\
       get_property "OE" (dictionary security) = Some (VBuffer OE) /\
       get_property "Perms" (dictionary security) = Some (VBuffer Perms) /\
       get_property "P" (dictionary security) = Some (VNumber P) /\
       length U = 48%nat /\ length O = 48%nat /\
       length UE = 32%nat /\ length OE = 32%nat /\ length Perms = 16%nat /\
       R5_password_entry U (fun validationSalt => pu ++ validationSalt) /\
       R5_password_entry O (fun validationSalt => po ++ validationSalt ++ U) /\
       length (encryptionKey security) = 32%nat /\
       exists randomPart : Uint8Array,
         length randomPart = 4%nat /\
         randomPart = random_at rs 64 4 /\
         aesEcbEncrypt
           (le_bytes 4 P ++ [0xff; 0xff; 0xff; 0xff]
            ++ [0x54; 0x61; 0x64; 0x62] ++ randomPart)
           (encryptionKey security)
         = Ok Perms) /\
  (forall pu po : Uint8Array,
     given (ownerPassword options) || given (userPassword options) = true ->
     processPasswordR5 (userPassword options) = Ok pu ->
     processed_owner options pu = Ok po ->
     exists security : PDFSecurity,
       PDFSecurity_new document options rs = Ok (security, advance rs 68)).
Proof using L.
  intros H5. split.
  - intros security rs' H.
    apply (PDFSecurity_new_V5_inv _ _ _ _ _ H5) in H as [_ H].
    pose proof H as Hinv.
    apply setupV5_inv in Hinv
      as (pu & po & UE & OE & Perms & Hpu & Hpo & Hkb & Hkey & HUE & HOE & HP
          & Hd & _).
    destruct (setupV5_run options rs pu po Hpu Hpo)
      as (UE' & OE' & Perms' & HUE' & HOE' & HP' & HUEl & HOEl & HPl & _).
    rewrite <- Hkey in HUE', HOE', HP'.
    rewrite HUE in HUE'. rewrite HOE in HOE'. rewrite HP in HP'.
    injection HUE' as <-. injection HOE' as <-. injection HP' as <-.
    destruct (dictionary_V5_reads (O_entry rs pu po) OE (U_entry rs pu) UE
                (getPermissionsR3 (permissions options)) Perms)
      as (_ & _ & HrO & HrOE & HrU & HrUE & HrP & HrPerms).
    rewrite <- Hd in HrO, HrOE, HrU, HrUE, HrP, HrPerms.
    exists pu, po, (U_entry rs pu), (O_entry rs pu po), UE, OE, Perms,
      (getPermissionsR3 (permissions options)).
    repeat (split; [assumption |]).
    split.
    { unfold U_entry.
      rewrite !length_app, sha256_length, !random_at_length. reflexivity. }
    split.
    { unfold O_entry.
      rewrite !length_app, sha256_length, !random_at_length. reflexivity. }
    repeat (split; [assumption |]).
    split.
    { exists (random_at rs 32 8), (random_at rs 40 8).
      rewrite !random_at_length, sha256_length.
      repeat split; reflexivity. }
    split.
    { exists (random_at rs 48 8), (random_at rs 56 8).
      rewrite !random_at_length, sha256_length.
      repeat split; reflexivity. }
    split.
    { rewrite Hkey. apply random_at_length. }
    exists (random_at rs 64 4).
    split; [apply random_at_length |]. split; [reflexivity |].
    exact HP.
  - intros pu po Hg Hpu Hpo.
    destruct (setupV5_run options rs pu po Hpu Hpo)
      as (UE & OE & Perms & _ & _ & _ & _ & _ & _ & Hrun).
    rewrite PDFSecurity_new_given by exact Hg.
    rewrite setupEncryption_V5 by exact H5.
    rewrite Hrun. eexists. reflexivity.
Qed.

(** ** The owner password defaults to the user password *)

(** [options] with [ownerPassword] set to the user password. *)
Definition owner_as_user (options : Options) : Options :=
  {| ownerPassword := userPassword options;
     userPassword := userPassword options;
     pdfVersion := pdfVersion options;
     permissions := permissions options |}.

Lemma selected_version_owner_as_user (options : Options) :
  selected_version (owner_as_user options) = selected_version options.
Proof. reflexivity. Qed.

Lemma setupV1V2V4_owner_as_user (document : Document) (v : Z)
  (options : Options) :
  v = 1 \/ v = 2 \/ v = 4 ->
  given (ownerPassword options) = false ->
  given (userPassword options) = true ->
  _setupEncryptionV1V2V4 document v initial_dictionary options
  = _setupEncryptionV1V2V4 document v initial_dictionary
      (owner_as_user options).
Proof.
  intros Hv Hgo Hgu. rewrite !setupV1V2V4_eq by exact Hv.
  unfold padded_owner, permissions_of, owner_as_user.
  cbn [ownerPassword userPassword pdfVersion permissions].
  rewrite Hgo, Hgu.
  destruct (processPasswordR2R3R4 (userPassword options)) as [pu | e];
    [| reflexivity].
  rewrite !(result_bind_Ok pu). cbv beta iota.
  rewrite ?(result_bind_Ok pu). cbv beta. reflexivity.
Qed.

Lemma setupV5_owner_as_user (options : Options) (rs : RandomSource) :
  given (ownerPassword options) = false ->
  given (userPassword options) = true ->
  _setupEncryptionV5 initial_dictionary options rs
  = _setupEncryptionV5 initial_dictionary (owner_as_user options) rs.
Proof.
  intros Hgo Hgu. unfold _setupEncryptionV5, owner_as_user. cbv zeta.
  cbn [ownerPassword userPassword pdfVersion permissions].
  rewrite Hgo, Hgu.
  destruct (processPasswordR5 (userPassword options)) as [pu | e].
  - rewrite !(bind_run _ _ rs rs pu (lift_run _ _ rs eq_refl)).
    cbv beta iota. reflexivity.
  - unfold bind at 1 3. unfold lift at 1 3. reflexivity.
Qed.

Lemma PDFSecurity_new_owner_as_user (document : Document) (options : Options)
  (rs : RandomSource) :
  given (ownerPassword options) = false ->
  given (userPassword options) = true ->
  PDFSecurity_new document options rs
  = PDFSecurity_new document (owner_as_user options) rs.
Proof.
  intros Hgo Hgu.
  rewrite !PDFSecurity_new_given
    by (cbn [owner_as_user ownerPassword userPassword]; rewrite ?Hgo, Hgu;
        reflexivity).
  destruct (version_is options "1.7ext3") eqn:H5.
  - rewrite !setupEncryption_V5 by exact H5.
    rewrite <- setupV5_owner_as_user by assumption. reflexivity.
  - pose proof (selected_version_not_5 options H5) as Hv.
    rewrite !setupEncryption_V1V2V4
      by (rewrite ?selected_version_owner_as_user; exact Hv).
    rewrite selected_version_owner_as_user.
    rewrite <- setupV1V2V4_owner_as_user by assumption. reflexivity.
Qed.

(** C10: when no owner password is given and a user password is, the handler
    uses the user password in place of the owner password.  Construction
    gives the same outcome as with [ownerPassword] set to the user password
    (the same handler, dictionary and random draws, or the same error).
    Under revisions 2 to 4 the [O] entry is the owner entry computed from the
    padded user password on both sides; under revision 5 the [O] and [OE]
    entries are computed from the processed user password. *)
Theorem owner_password_defaults_to_user (document : Document)
  (options : Options) (rs : RandomSource) :
  given (ownerPassword options) = false ->
  given (userPassword options) = true ->
  PDFSecurity_new document options rs
  = PDFSecurity_new document (owner_as_user options) rs /\
  forall (security : PDFSecurity) (rs' : RandomSource),
    PDFSecurity_new document options rs = Ok (security, rs') ->
    (version_is options "1.7ext3" = false ->
     exists pu : Uint8Array,
       processPasswordR2R3R4 (userPassword options) = Ok pu /\
       get_property "O" (dictionary security)
       = Some (VBuffer
                 (getOwnerPasswordR2R3R4 (revision_of (version security))
                    (keyBits security) pu pu))) /\
    (version_is options "1.7ext3" = true ->
     exists pu OE : Uint8Array,
       processPasswordR5 (userPassword options) = Ok pu /\
       get_property "O" (dictionary security)
       = Some (VBuffer
                 (sha256Hash (pu ++ random_at rs 48 8 ++ U_entry rs pu)
                  ++ random_at rs 48 8 ++ random_at rs 56 8)) /\
       get_property "OE" (dictionary security) = Some (VBuffer OE) /\
       aesCbcEncrypt (encryptionKey security)
         (sha256Hash (pu ++ random_at rs 56 8 ++ U_entry rs pu)) zero_iv false
       = Ok OE).
Proof using L.
  intros Hgo Hgu. split.
  { apply PDFSecurity_new_owner_as_user; assumption. }
  intros security rs' H. split; intros H5.
  - destruct (PDFSecurity_new_V1V2V4 _ _ _ _ _ H5 H)
      as (pu & po & U & _ & _ & _ & Hpu & Hpo & _ & _ & _ & _ & HO & _).
    unfold padded_owner in Hpo. rewrite Hgo in Hpo. injection Hpo as <-.
    exists pu. split; assumption.
  - apply (PDFSecurity_new_V5_inv _ _ _ _ _ H5) in H as [_ H].
    apply setupV5_inv in H
      as (pu & po & UE & OE & Perms & Hpu & Hpo & _ & Hkey & _ & HOE & _
          & Hd & _).
    unfold processed_owner in Hpo. rewrite Hgo in Hpo. injection Hpo as <-.
    destruct (dictionary_V5_reads (O_entry rs pu pu) OE (U_entry rs pu) UE
                (getPermissionsR3 (permissions options)) Perms)
      as (_ & _ & HrO & HrOE & _).
    rewrite <- Hd in HrO, HrOE.
    exists pu, OE.
    split; [exact Hpu |]. split; [exact HrO |].
    split; [exact HrOE | exact HOE].
Qed.

(** ** The file identifier *)








End Properties.

(** * Further properties

    Properties of the functions of [lib/security.js] and [lib/crypto] beyond
    those above: RC4 as a stream cipher, the entries a reader checks a
    password against, the handler the constructor builds, and the edges of
    the inputs. *)

(** ** RC4 as a stream cipher *)

(** The generator of the third loop of [rc4]: the step on [i], [j] and [s],
    and the byte [s[(s[i] + s[j]) & 0xff]] the step XORs into the data. *)
Definition rc4_next (st : Z * Z * Uint8Array) : Z * Z * Uint8Array :=
  let '(i, j, s) := st in
  let i := js_and (i + 1) 255 in
  let j := js_and (j + default 0 (s !! Z.to_nat i)) 255 in
  (i, j, swap s (Z.to_nat i) (Z.to_nat j)).

Definition rc4_key_byte (st : Z * Z * Uint8Array) : Z :=
  let '(i, j, s) := st in
  let si := default 0 (s !! Z.to_nat i) in
  let sj := default 0 (s !! Z.to_nat j) in
  default 0 (s !! Z.to_nat (js_and (si + sj) 255)).

(** [s] after the first two loops. *)
Definition rc4_key_schedule (key : Uint8Array) : Uint8Array :=
  snd (for_range 256 (rc4_schedule_step key)
         (0, for_range 256 (fun i s => <[i := u8 (Z.of_nat i)]> s)
               (replicate 256 0))).

(** The first [n] bytes the generator yields under [key]. *)
Definition rc4_keystream (key : Uint8Array) (n : nat) : Uint8Array :=
  map (fun k =>
         rc4_key_byte (Nat.iter (S k) rc4_next (0, 0, rc4_key_schedule key)))
    (seq 0 n).

(** [data[k] ^ x] as it is stored into [output]. *)
Definition xor_byte (d x : Z) : Z := u8 (js_xor d x).

Lemma rc4_output_step_next (data : Uint8Array) (k : nat)
  (st : Z * Z * Uint8Array) (output : Uint8Array) :
  rc4_output_step data k (st, output)
  = (rc4_next st,
     <[k := xor_byte (default 0 (data !! k)) (rc4_key_byte (rc4_next st))]>
       output).
Proof. destruct st as [[i j] s]. reflexivity. Qed.

Lemma rc4_output_loop (data s : Uint8Array) (m : nat) :
  (m <= length data)%nat ->
  for_range m (rc4_output_step data) (0, 0, s, replicate (length data) 0)
  = (Nat.iter m rc4_next (0, 0, s),
     map (fun k =>
            xor_byte (default 0 (data !! k))
              (rc4_key_byte (Nat.iter (S k) rc4_next (0, 0, s))))
       (seq 0 m)
     ++ replicate (length data - m) 0).
Proof.
  induction m as [|m IH]; intros Hm.
  - cbn [for_range seq fold_left map app Nat.iter nat_rect]. unfold for_range.
    rewrite Nat.sub_0_r. reflexivity.
  - rewrite for_range_S, IH by lia.
    rewrite rc4_output_step_next.
    replace (length data - m)%nat with (S (length data - S m)) by lia.
    cbn [replicate].
    set (f := fun k => xor_byte (default 0 (data !! k))
                         (rc4_key_byte (Nat.iter (S k) rc4_next (0, 0, s)))).
    assert (Hl : length (map f (seq 0 m)) = m)
      by (rewrite length_map, length_seq; reflexivity).
    rewrite <- Hl at 2. rewrite insert_middle.
    rewrite seq_S, map_app, <- app_assoc. reflexivity.
Qed.

Lemma zip_with_seq_lookup (f : Z -> Z -> Z) (data : Uint8Array) (g : nat -> Z) :
  map (fun k => f (default 0 (data !! k)) (g k)) (seq 0 (length data))
  = zip_with f data (map g (seq 0 (length data))).
Proof.
  revert g. induction data as [|d data IH]; intros g; [reflexivity |].
  cbn [length seq map zip_with]. f_equal.
  rewrite <- seq_shift, !map_map. apply (IH (fun k => g (S k))).
Qed.

(** [rc4] XORs the data, byte by byte, with the key stream; the key stream
    depends on the key and on the number of bytes only. *)
Lemma rc4_keystream_xor (data key : Uint8Array) :
  rc4 data key = zip_with xor_byte data (rc4_keystream key (length data)).
Proof.
  unfold rc4, rc4_keystream, rc4_key_schedule.
  destruct (for_range 256 (rc4_schedule_step key) _) as [j s].
  cbn [snd].
  rewrite (rc4_output_loop data s (length data)) by lia.
  rewrite Nat.sub_diag. cbn [replicate]. rewrite app_nil_r.
  destruct (Nat.iter (length data) rc4_next (0, 0, s)) as [[i1 j1] s1].
  apply (zip_with_seq_lookup xor_byte data
           (fun k => rc4_key_byte (Nat.iter (S k) rc4_next (0, 0, s)))).
Qed.

Lemma rc4_keystream_length (key : Uint8Array) (n : nat) :
  length (rc4_keystream key n) = n.
Proof. unfold rc4_keystream. rewrite length_map, length_seq. reflexivity. Qed.

Lemma rc4_keystream_app (key : Uint8Array) (n m : nat) :
  take n (rc4_keystream key (n + m)) = rc4_keystream key n.
Proof.
  unfold rc4_keystream. rewrite seq_app, map_app.
  rewrite take_app_length'; [reflexivity |].
  rewrite length_map, length_seq. reflexivity.
Qed.

(** *** The bytes of the state *)

Lemma default_lookup_byte (s : Uint8Array) (i : nat) :
  Forall is_byte s -> is_byte (default 0 (s !! i)).
Proof.
  intros Hs. destruct (s !! i) as [x|] eqn:E; cbn.
  - eapply Forall_lookup_1; eassumption.
  - unfold is_byte. lia.
Qed.

Lemma swap_bytes (s : Uint8Array) (i j : nat) :
  Forall is_byte s -> Forall is_byte (swap s i j).
Proof.
  intros Hs. unfold swap. cbv zeta.
  apply Forall_insert; [apply Forall_insert |];
    auto using default_lookup_byte.
Qed.

Lemma u8_is_byte (v : Z) : is_byte (u8 v).
Proof. unfold is_byte, u8. apply Z.mod_pos_bound. lia. Qed.

Lemma rc4_key_schedule_bytes (key : Uint8Array) :
  Forall is_byte (rc4_key_schedule key).
Proof.
  unfold rc4_key_schedule.
  apply (for_range_invariant (fun st : Z * Uint8Array => Forall is_byte (snd st))).
  - cbn [snd].
    apply (for_range_invariant (Forall is_byte)).
    + apply Forall_replicate. unfold is_byte. lia.
    + intros i s _ Hs. apply Forall_insert; [exact Hs | apply u8_is_byte].
  - intros i [j s] _ Hs. cbn [snd] in Hs. unfold rc4_schedule_step.
    destruct (key !! (i mod length key)%nat); cbn [snd];
      apply swap_bytes; exact Hs.
Qed.

Lemma rc4_next_bytes (st : Z * Z * Uint8Array) :
  Forall is_byte (snd st) -> Forall is_byte (snd (rc4_next st)).
Proof.
  destruct st as [[i j] s]. cbn [snd rc4_next]. apply swap_bytes.
Qed.

Lemma rc4_key_byte_is_byte (st : Z * Z * Uint8Array) :
  Forall is_byte (snd st) -> is_byte (rc4_key_byte st).
Proof.
  destruct st as [[i j] s]. cbn [snd rc4_key_byte]. apply default_lookup_byte.
Qed.

Lemma rc4_keystream_bytes (key : Uint8Array) (n : nat) :
  Forall is_byte (rc4_keystream key n).
Proof.
  unfold rc4_keystream. apply Forall_forall. intros x Hx.
  apply list_elem_of_In, in_map_iff in Hx as (k & <- & _).
  apply rc4_key_byte_is_byte.
  generalize (S k). intros m. induction m as [|m IH].
  - cbn [Nat.iter nat_rect snd]. apply rc4_key_schedule_bytes.
  - rewrite Nat.iter_succ. apply rc4_next_bytes, IH.
Qed.

Lemma xor_byte_twice (d x : Z) :
  is_byte d -> is_byte x -> xor_byte (xor_byte d x) x = d.
Proof.
  intros Hd Hx. unfold xor_byte.
  rewrite (js_xor_byte d x) by assumption.
  rewrite js_xor_byte by (try apply lxor_byte; assumption).
  rewrite Z.lxor_assoc, Z.lxor_nilpotent. apply Z.lxor_0_r.
Qed.

Lemma zip_with_xor_twice (data ks : Uint8Array) :
  Forall is_byte data -> Forall is_byte ks -> length ks = length data ->
  zip_with xor_byte (zip_with xor_byte data ks) ks = data.
Proof.
  intros Hd. revert ks. induction Hd as [|d data Hd Hdata IH];
    intros ks Hks Hl.
  - destruct ks; reflexivity.
  - destruct ks as [|x ks]; [discriminate Hl |].
    apply Forall_cons in Hks as [Hx Hks].
    cbn [zip_with]. rewrite xor_byte_twice by assumption.
    f_equal. apply IH; [exact Hks | ]. cbn in Hl. lia.
Qed.

Lemma zip_with_xor_bytes (data ks : Uint8Array) :
  Forall is_byte (zip_with xor_byte data ks).
Proof.
  revert ks. induction data as [|d data IH]; intros [|x ks];
    cbn [zip_with]; constructor; [apply u8_is_byte | apply IH].
Qed.

(** Encrypting twice under one key gives the bytes back. *)
Lemma rc4_involution (data key : Uint8Array) :
  Forall is_byte data -> rc4 (rc4 data key) key = data.
Proof.
  intros Hd. rewrite (rc4_keystream_xor (rc4 data key) key).
  rewrite rc4_length. rewrite (rc4_keystream_xor data key).
  apply zip_with_xor_twice.
  - exact Hd.
  - apply rc4_keystream_bytes.
  - apply rc4_keystream_length.
Qed.

(** X1: RC4 is its own inverse.  For every key (the empty key included) and
    every array of bytes, the encrypted array is as long as the data, and
    encrypting it again under the same key gives the data back. *)
Theorem rc4_round_trip (data key : Uint8Array) :
  Forall is_byte data ->
  length (rc4 data key) = length data /\ rc4 (rc4 data key) key = data.
Proof.
  intros Hd. split; [apply rc4_length |].
  rewrite (rc4_keystream_xor (rc4 data key) key), rc4_length.
  rewrite (rc4_keystream_xor data key).
  generalize (rc4_keystream_bytes key (length data)).
  generalize (rc4_keystream_length key (length data)).
  generalize (rc4_keystream key (length data)). intros ks Hl Hks.
  apply zip_with_xor_twice; assumption.
Qed.

(** X2: the output of [rc4] is an array of bytes as long as the data, whatever
    the data and the key hold, and the encryption of a prefix of the data is
    the prefix of the encryption: the bytes that follow do not change the
    bytes before them. *)
Theorem rc4_prefix (data rest key : Uint8Array) :
  Forall is_byte (rc4 data key) /\
  length (rc4 (data ++ rest) key) = (length data + length rest)%nat /\
  take (length data) (rc4 (data ++ rest) key) = rc4 data key.
Proof.
  split; [| split].
  - rewrite rc4_keystream_xor. apply zip_with_xor_bytes.
  - rewrite rc4_length. apply length_app.
  - rewrite !rc4_keystream_xor, length_app.
    rewrite zip_with_take, take_app_length, rc4_keystream_app. reflexivity.
Qed.

(** *** The key *)

Lemma for_range_ext {S : Type} (n : nat) (f g : nat -> S -> S) (s : S) :
  (forall i s, (i < n)%nat -> f i s = g i s) ->
  for_range n f s = for_range n g s.
Proof.
  intros H. unfold for_range. apply fold_left_ext_in.
  intros a i Hi. apply in_seq in Hi. apply H. lia.
Qed.

(** The cipher depends on the key through the bytes the key schedule reads,
    [key[i % key.length]] for [i] below 256. *)
Lemma rc4_same_schedule (data key key' : Uint8Array) :
  (forall i, (i < 256)%nat ->
             key !! (i mod length key)%nat = key' !! (i mod length key')%nat) ->
  rc4 data key = rc4 data key'.
Proof.
  intros H.
  assert (Hs : rc4_key_schedule key = rc4_key_schedule key').
  { unfold rc4_key_schedule. f_equal.
    apply for_range_ext. intros i [j s] Hi. unfold rc4_schedule_step.
    rewrite (H i Hi). reflexivity. }
  rewrite !rc4_keystream_xor. unfold rc4_keystream. rewrite Hs. reflexivity.
Qed.

(** X3: the key schedule of [rc4] reads the key cyclically and stops after 256
    bytes: a key and the key repeated give the same cipher, and of a key
    longer than 256 bytes only the first 256 count. *)
Theorem rc4_key_cyclic (data key : Uint8Array) :
  rc4 data (key ++ key) = rc4 data key /\
  ((256 <= length key)%nat -> rc4 data (take 256 key) = rc4 data key).
Proof.
  split.
  - apply rc4_same_schedule. intros i _. rewrite length_app.
    destruct key as [|k0 key0]; [reflexivity |].
    set (key := k0 :: key0). set (n := length key).
    assert (Hn : (0 < n)%nat) by (unfold n, key; cbn; lia).
    pose proof (Nat.mod_upper_bound i (n + n)) as Hr.
    assert (Hm : (i mod n = (i mod (n + n)) mod n)%nat).
    { replace (n + n)%nat with (n * 2)%nat by lia.
      rewrite Nat.Div0.mod_mul_r.
      rewrite Nat.mul_comm, Nat.Div0.mod_add. symmetry.
      apply Nat.Div0.mod_mod. }
    rewrite Hm.
    destruct (Nat.lt_ge_cases (i mod (n + n)) n) as [Hlt | Hge].
    + rewrite lookup_app_l by exact Hlt.
      rewrite (Nat.mod_small (i mod (n + n)) n) by exact Hlt. reflexivity.
    + rewrite lookup_app_r by exact Hge. f_equal.
      replace (i mod (n + n))%nat
        with ((i mod (n + n) - n) + 1 * n)%nat at 2 by lia.
      rewrite Nat.Div0.mod_add. symmetry. apply Nat.mod_small. lia.
  - intros Hl. apply rc4_same_schedule. intros i Hi.
    rewrite length_take, Nat.min_l by exact Hl.
    rewrite !Nat.mod_small by lia.
    apply lookup_take_lt. exact Hi.
Qed.

Section FurtherProperties.

Context {C : CryptoLib}.

(** ** The permissions values *)

(** The mask of a permission that is granted. *)
Definition granted (b : bool) (mask : Z) : Z := if b then mask else 0.

(** X4: the permissions value of revision 2.  It is [-64] (every bit from
    bit 7 of the PDF numbering on set, the six bits below clear) plus 4, 8, 16
    and 32 for a truthy [printing], [modifying], [copying] and [annotating];
    the other options have no part in it.  So the value is negative, bits 1
    and 2 are clear, bits 3 to 6 are set exactly for the four options, and
    every bit from 7 on is set. *)
Theorem getPermissionsR2_value (permissionObject : option Permissions) :
  let o := default no_permissions permissionObject in
  let p := getPermissionsR2 permissionObject in
  p = -64 + granted (truthy (printing o)) 4 + granted (truthy (modifying o)) 8
      + granted (truthy (copying o)) 16 + granted (truthy (annotating o)) 32 /\
  -64 <= p <= -4 /\
  Z.testbit p 0 = false /\
  Z.testbit p 1 = false /\
  Z.testbit p 2 = truthy (printing o) /\
  Z.testbit p 3 = truthy (modifying o) /\
  Z.testbit p 4 = truthy (copying o) /\
  Z.testbit p 5 = truthy (annotating o) /\
  (forall i, 6 <= i -> Z.testbit p i = true).
Proof.
  intros o p. subst p. unfold getPermissionsR2. fold o.
  generalize (truthy (printing o)), (truthy (modifying o)),
    (truthy (copying o)), (truthy (annotating o)).
  intros b1 b2 b3 b4.
  destruct b1, b2, b3, b4;
    (split; [vm_compute; reflexivity |];
     split; [vm_compute; split; discriminate |];
     repeat (split; [vm_compute; reflexivity |]);
     intros i Hi; apply (testbit_high_ones _ 6); [lia | reflexivity | lia]).
Qed.

Lemma printing_exclusive (v : JsValue) :
  strict_equal v "lowResolution" && strict_equal v "highResolution" = false.
Proof.
  destruct v as [| b | t]; try reflexivity. unfold strict_equal.
  destruct (bool_decide (t = lit "lowResolution")) eqn:E1; [| reflexivity].
  apply bool_decide_eq_true in E1. subst t. reflexivity.
Qed.

(** X5: the permissions value of revision 3 and later.  It is [-3904] (bits 7
    and 8 and every bit from 13 on set) plus 4 for [printing] equal to
    ['lowResolution'], 2052 for ['highResolution'], and 8, 16, 32, 256, 512
    and 1024 for a truthy [modifying], [copying], [annotating],
    [fillingForms], [contentAccessibility] and [documentAssembly].  Bits 4, 5
    and 6 are set exactly for [modifying], [copying] and [annotating], and
    bit 8 is always set. *)
Theorem getPermissionsR3_value (permissionObject : option Permissions) :
  let o := default no_permissions permissionObject in
  let p := getPermissionsR3 permissionObject in
  p = -3904
      + granted (strict_equal (printing o) "lowResolution") 4
      + granted (strict_equal (printing o) "highResolution") 2052
      + granted (truthy (modifying o)) 8
      + granted (truthy (copying o)) 16
      + granted (truthy (annotating o)) 32
      + granted (truthy (fillingForms o)) 256
      + granted (truthy (contentAccessibility o)) 512
      + granted (truthy (documentAssembly o)) 1024 /\
  -3904 <= p <= -4 /\
  Z.testbit p 3 = truthy (modifying o) /\
  Z.testbit p 4 = truthy (copying o) /\
  Z.testbit p 5 = truthy (annotating o) /\
  Z.testbit p 7 = true.
Proof.
  intros o p. subst p. unfold getPermissionsR3. fold o.
  pose proof (printing_exclusive (printing o)) as Hex. revert Hex.
  generalize (strict_equal (printing o) "lowResolution").
  generalize (strict_equal (printing o) "highResolution").
  generalize (truthy (modifying o)), (truthy (copying o)),
    (truthy (annotating o)), (truthy (fillingForms o)),
    (truthy (contentAccessibility o)), (truthy (documentAssembly o)).
  intros b1 b2 b3 b4 b5 b6 b7 b8 Hex.
  destruct b8, b7; try discriminate Hex;
    destruct b1, b2, b3, b4, b5, b6;
    (split; [vm_compute; reflexivity |];
     split; [vm_compute; split; discriminate |];
     repeat split; vm_compute; reflexivity).
Qed.

(** ** The padded password *)

(** [String.fromCharCode(...bytes)] *)
Definition string_of_bytes (b : Uint8Array) : jsstring := map Z.to_N b.

Lemma code_bytes_latin1 (s : jsstring) :
  Forall (fun c => (c <= 0xff)%N) s -> Forall is_byte (code_bytes s).
Proof.
  intros H. unfold code_bytes. apply Forall_map.
  eapply Forall_impl; [exact H |]. intros c Hc.
  unfold compose, is_byte. cbv beta in *. lia.
Qed.

Lemma string_of_bytes_latin1 (b : Uint8Array) :
  Forall is_byte b -> forallb latin1 (string_of_bytes b) = true.
Proof.
  intros H. apply forallb_latin1_true. unfold string_of_bytes.
  apply Forall_map. eapply Forall_impl; [exact H |].
  intros x Hx. unfold compose, is_byte in *. cbv beta in *. lia.
Qed.

Lemma code_bytes_string_of_bytes (b : Uint8Array) :
  Forall is_byte b -> code_bytes (string_of_bytes b) = b.
Proof.
  intros H. unfold code_bytes, string_of_bytes. rewrite map_map.
  rewrite <- (map_id b) at 2. apply map_ext_in. intros x Hx.
  rewrite Forall_forall in H. apply list_elem_of_In, H in Hx.
  unfold is_byte in Hx. lia.
Qed.

(** X6: padding is idempotent.  Whenever [processPasswordR2R3R4] returns, its
    result is 32 bytes, and the string of those 32 characters is processed to
    the same 32 bytes: a short password and its padded form are the same
    password to the handler (the empty password and the 32 characters of the
    padding constant, for one). *)
Theorem processPasswordR2R3R4_idempotent (password : option jsstring)
  (out : Uint8Array) :
  processPasswordR2R3R4 password = Ok out ->
  length out = 32%nat /\
  Forall is_byte out /\
  processPasswordR2R3R4 (Some (string_of_bytes out)) = Ok out.
Proof.
  intros H. pose proof (processPasswordR2R3R4_length _ _ H) as Hl.
  assert (Hb : Forall is_byte out).
  { destruct (processPasswordR2R3R4_cases password) as [[_ Hr] | [HF Hr]];
      rewrite Hr in H; [discriminate H |].
    injection H as <-. apply Forall_app. split.
    - apply code_bytes_latin1, HF.
    - apply Forall_take, PASSWORD_PADDING_bytes. }
  split; [exact Hl |]. split; [exact Hb |].
  rewrite processPasswordR2R3R4_eq. cbv zeta. cbn [default from_option id].
  assert (Hs : length (string_of_bytes out) = 32%nat).
  { unfold string_of_bytes. rewrite length_map. exact Hl. }
  rewrite take_ge by lia.
  rewrite string_of_bytes_latin1 by exact Hb.
  rewrite code_bytes_string_of_bytes by exact Hb.
  rewrite Hs. change (32 - 32)%nat with 0%nat. cbn [take].
  rewrite app_nil_r. reflexivity.
Qed.

(** ** [create] and the constructor *)

Lemma setupV1V2V4_not_no_password (document : Document) (v : Z)
  (encDict : Dict) (options : Options) :
  _setupEncryptionV1V2V4 document v encDict options
  <> Throw (JsError no_password_message).
Proof.
  unfold _setupEncryptionV1V2V4.
  destruct (match v with 1 => _ | 2 => _ | 4 => _ | _ => _ end)
    as [[r kb] perms].
  assert (Hp : forall p, processPasswordR2R3R4 p
                         <> Throw (JsError no_password_message)).
  { intros p.
    destruct (processPasswordR2R3R4_cases p) as [[_ Hr] | [_ Hr]];
      rewrite Hr; discriminate. }
  apply result_bind_not_throw; [apply Hp |]. intros pu.
  apply result_bind_not_throw.
  { destruct (given (ownerPassword options)); [apply Hp | discriminate]. }
  intros po.
  apply result_bind_not_throw;
    [apply getUserPassword_not_JsError | discriminate].
Qed.

(** X7: [PDFSecurity.create] returns [null] exactly when neither password is a
    non-empty string, and then draws no random byte; the constructor throws
    'None of owner password and user password is defined.' in that case, and,
    for a PDF version other than 1.7ext3, in no other. *)
Theorem create_returns_null (document : Document) (options : Options)
  (rs : RandomSource) :
  let absent :=
    given (ownerPassword options) = false
    /\ given (userPassword options) = false in
  (forall rs', create document options rs = Ok (None, rs')
               <-> absent /\ rs' = rs) /\
  (absent ->
   PDFSecurity_new document options rs = Throw (JsError no_password_message)) /\
  (version_is options "1.7ext3" = false ->
   PDFSecurity_new document options rs = Throw (JsError no_password_message) ->
   absent).
Proof.
  cbv zeta. split; [| split].
  - intros rs'. unfold create.
    destruct (given (ownerPassword options)), (given (userPassword options));
      cbn [negb andb].
    4: { unfold ret. split.
         - intros H. injection H as <-. tauto.
         - intros [_ ->]. reflexivity. }
    all: split; [| intros [[? ?] _]; discriminate].
    all: unfold bind, ret;
      destruct (PDFSecurity_new document options rs) as [[s r] | e];
      discriminate.
  - intros [Ho Hu]. unfold PDFSecurity_new. rewrite Ho, Hu. reflexivity.
  - intros H5 H.
    destruct (given (ownerPassword options) || given (userPassword options))
      eqn:Hg.
    + exfalso. rewrite PDFSecurity_new_given in H by exact Hg.
      rewrite setupEncryption_V1V2V4 in H
        by (apply selected_version_not_5; exact H5).
      destruct (_setupEncryptionV1V2V4 document (selected_version options)
                  initial_dictionary options) as [[[kb key] dict] | e] eqn:E;
        [discriminate H |].
      injection H as ->. revert E. apply setupV1V2V4_not_no_password.
    + apply orb_false_iff in Hg. exact Hg.
Qed.

(** ** Passwords longer than 32 characters *)

(** [options] with both passwords cut after 32 characters. *)
Definition truncate_passwords (options : Options) : Options :=
  {| ownerPassword := option_map (take 32) (ownerPassword options);
     userPassword := option_map (take 32) (userPassword options);
     pdfVersion := pdfVersion options;
     permissions := permissions options |}.

Lemma processPasswordR2R3R4_take (password : option jsstring) :
  processPasswordR2R3R4 (option_map (take 32) password)
  = processPasswordR2R3R4 password.
Proof.
  destruct password as [s|]; [| reflexivity].
  rewrite !processPasswordR2R3R4_eq. cbv zeta.
  cbn [option_map default from_option id].
  rewrite take_take, Nat.min_id, length_take.
  destruct (Nat.le_gt_cases 32 (length s)) as [Hl | Hl].
  - rewrite Nat.min_l by exact Hl.
    replace (32 - length s)%nat with (32 - 32)%nat by lia. reflexivity.
  - rewrite Nat.min_r by lia. reflexivity.
Qed.

Lemma given_take (password : option jsstring) :
  given (option_map (take 32) password) = given password.
Proof. destruct password as [[|c s]|]; reflexivity. Qed.

(** X25: for a PDF version other than 1.7ext3 only the first 32 characters of
    a password count.  Construction with the passwords cut after 32
    characters gives the same outcome: the same handler, with the same key
    and dictionary, or the same error. *)
Theorem passwords_cut_at_32 (document : Document) (options : Options)
  (rs : RandomSource) :
  version_is options "1.7ext3" = false ->
  PDFSecurity_new document (truncate_passwords options) rs
  = PDFSecurity_new document options rs.
Proof.
  intros H5. pose proof (selected_version_not_5 options H5) as Hv.
  assert (Hsel : selected_version (truncate_passwords options)
                 = selected_version options) by reflexivity.
  unfold PDFSecurity_new.
  cbn [truncate_passwords ownerPassword userPassword].
  rewrite !given_take.
  destruct (negb (given (ownerPassword options))
            && negb (given (userPassword options))); [reflexivity |].
  rewrite !setupEncryption_V1V2V4 by (rewrite ?Hsel; exact Hv).
  rewrite Hsel.
  assert (Hsetup : _setupEncryptionV1V2V4 document (selected_version options)
                     initial_dictionary (truncate_passwords options)
                   = _setupEncryptionV1V2V4 document (selected_version options)
                       initial_dictionary options).
  { rewrite !setupV1V2V4_eq by exact Hv.
    unfold padded_owner, permissions_of.
    cbn [truncate_passwords ownerPassword userPassword permissions].
    rewrite !given_take, !processPasswordR2R3R4_take. reflexivity. }
  rewrite Hsetup. reflexivity.
Qed.

(** ** What the constructor builds *)

(** X8: under a PDF version other than 1.7ext3 construction draws no random
    byte: it leaves the random source where it was, and yields the same
    handler, or throws the same error, whatever the random source holds.  The
    handler is a function of the passwords, the permissions, the PDF version
    and the document identifier. *)
Theorem construction_draws_nothing (document : Document) (options : Options)
  (rs rs2 : RandomSource) :
  version_is options "1.7ext3" = false ->
  match PDFSecurity_new document options rs with
  | Ok (security, rs') =>
      rs' = rs /\ PDFSecurity_new document options rs2 = Ok (security, rs2)
  | Throw e => PDFSecurity_new document options rs2 = Throw e
  end.
Proof.
  intros H5. pose proof (selected_version_not_5 options H5) as Hv.
  unfold PDFSecurity_new.
  destruct (negb (given (ownerPassword options))
            && negb (given (userPassword options))); [reflexivity |].
  rewrite !setupEncryption_V1V2V4 by exact Hv.
  destruct (_setupEncryptionV1V2V4 document (selected_version options)
              initial_dictionary options) as [[[kb key] dict] | e].
  - split; reflexivity.
  - reflexivity.
Qed.

(** The crypt filter dictionary [{ StdCF: { AuthEvent, CFM, Length } }]. *)
Definition crypt_filter (method : string) (keyBits : Z) : PDFValue :=
  VObject
    [("StdCF"%string,
      VObject [("AuthEvent"%string, VString (lit "DocOpen"));
               ("CFM"%string, VString (lit method));
               ("Length"%string, VNumber (keyBits / 8))])].

(** The entries of the encryption dictionary that depend on the version
    alone. *)
Definition version_entries (d : Dict) (R : Z) (Length : option Z)
  (CF : option PDFValue) : Prop :=
  get_property "Filter" d = Some (VString (lit "Standard")) /\
  get_property "R" d = Some (VNumber R) /\
  get_property "Length" d = option_map VNumber Length /\
  get_property "CF" d = CF /\
  get_property "StmF" d = option_map (fun _ => VString (lit "StdCF")) CF /\
  get_property "StrF" d = option_map (fun _ => VString (lit "StdCF")) CF.

Lemma dictionary_V1V2V4_entries (O U : Uint8Array) (P : Z) :
  version_entries (dictionary_V1V2V4 1 2 40 O U P) 2 None None /\
  version_entries (dictionary_V1V2V4 2 3 128 O U P) 3 (Some 128) None /\
  version_entries (dictionary_V1V2V4 4 4 128 O U P) 4 (Some 128)
    (Some (crypt_filter "AESV2" 128)).
Proof. unfold version_entries. repeat split; reflexivity. Qed.

Lemma dictionary_V5_entries (O OE U UE : Uint8Array) (P : Z)
  (Perms : Uint8Array) :
  version_entries (dictionary_V5 O OE U UE P Perms) 5 (Some 256)
    (Some (crypt_filter "AESV3" 256)).
Proof. unfold version_entries. repeat split; reflexivity. Qed.

Context {L : CryptoLaws C}.

(** X9: the parameters of a constructed handler, by PDF version.  The
    version is 2 for '1.4' and '1.5', 4 for '1.6' and '1.7', 5 for '1.7ext3'
    and 1 for every other value, an absent one included.  The dictionary
    has [Filter] 'Standard' and [V] the version; version 1 has a 40-bit key,
    [R] 2 and neither [Length] nor a crypt filter; version 2 a 128-bit key,
    [R] 3 and [Length] 128; version 4 in addition the crypt filter AESV2 of
    length 16 as [StmF] and [StrF], and [R] 4; version 5 a 256-bit key, [R]
    5, [Length] 256 and the crypt filter AESV3 of length 32. *)
Theorem encryption_parameters (document : Document) (options : Options)
  (rs rs' : RandomSource) (security : PDFSecurity) :
  PDFSecurity_new document options rs = Ok (security, rs') ->
  let d := dictionary security in
  version security =
    (if version_is options "1.4" || version_is options "1.5" then 2
     else if version_is options "1.6" || version_is options "1.7" then 4
     else if version_is options "1.7ext3" then 5
     else 1) /\
  get_property "V" d = Some (VNumber (version security)) /\
  (version security = 1 /\ keyBits security = 40 /\
   version_entries d 2 None None
   \/
   version security = 2 /\ keyBits security = 128 /\
   version_entries d 3 (Some 128) None
   \/
   version security = 4 /\ keyBits security = 128 /\
   version_entries d 4 (Some 128) (Some (crypt_filter "AESV2" 128))
   \/
   version security = 5 /\ keyBits security = 256 /\
   version_entries d 5 (Some 256) (Some (crypt_filter "AESV3" 256))).
Proof using L.
  intros H. cbv zeta. fold (selected_version options).
  destruct (version_is options "1.7ext3") eqn:H5.
  - destruct (PDFSecurity_new_V5_inv _ _ _ _ _ H5 H) as [Hv Hs].
    apply setupV5_inv in Hs
      as (pu & po & UE & OE & Perms & _ & _ & Hkb & _ & _ & _ & _ & Hd & _).
    rewrite Hv, Hd, Hkb. rewrite (selected_version_5 options H5).
    split; [reflexivity |]. split; [reflexivity |].
    right. right. right.
    split; [reflexivity |]. split; [reflexivity |].
    apply dictionary_V5_entries.
  - destruct (PDFSecurity_new_V1V2V4_inv _ _ _ _ _ H5 H)
      as (_ & Hver & Hv & Hs).
    destruct (setupV1V2V4_inv _ _ _ _ _ _ Hv Hs)
      as (pu & po & U & _ & _ & Hkb & _ & _ & Hd).
    rewrite Hver. split; [reflexivity |].
    rewrite Hd, Hkb.
    set (O := getOwnerPasswordR2R3R4 _ _ _ _).
    set (P := permissions_of _ _).
    destruct (dictionary_V1V2V4_entries O U P) as (H1 & H2 & H4).
    destruct Hv as [Hv | [Hv | Hv]]; rewrite Hv in *.
    + split; [reflexivity |]. left.
      split; [reflexivity |]. split; [reflexivity | exact H1].
    + split; [reflexivity |]. right. left.
      split; [reflexivity |]. split; [reflexivity | exact H2].
    + split; [reflexivity |]. right. right. left.
      split; [reflexivity |]. split; [reflexivity | exact H4].
Qed.

(** ** The entries a reader checks a password against *)

(** RC4 applied in turn under each key of a list. *)
Definition rc4_rounds (keys : list Uint8Array) (data : Uint8Array)
  : Uint8Array :=
  fold_left rc4 keys data.

(** The keys of the 20 rounds of revision 3 and later: [key] with every byte
    XORed with the round number. *)
Definition round_keys (key : Uint8Array) (rounds : list nat)
  : list Uint8Array :=
  map (fun i => map (fun b => Z.lxor b (Z.of_nat i)) key) rounds.

Lemma rc4_bytes (data key : Uint8Array) : Forall is_byte (rc4 data key).
Proof. rewrite rc4_keystream_xor. apply zip_with_xor_bytes. Qed.

Lemma fold_left_preserves {A B} (P : A -> Prop) (f : A -> B -> A)
  (l : list B) (a : A) :
  (forall a b, P a -> P (f a b)) -> P a -> P (fold_left f l a).
Proof.
  intros Hf. revert a. induction l as [|b l IH]; intros a Ha; [exact Ha |].
  apply IH, Hf, Ha.
Qed.

(** Rounds that are their own inverses are undone in the opposite order. *)
Lemma fold_left_rev_undo {A B} (P : A -> Prop) (f : A -> B -> A)
  (l : list B) (a : A) :
  (forall a b, P a -> f (f a b) b = a) -> (forall a b, P (f a b)) ->
  P a -> fold_left f (rev l) (fold_left f l a) = a.
Proof.
  intros Hinv HP. revert a. induction l as [|b l IH]; intros a Ha;
    [reflexivity |].
  cbn [rev fold_left]. rewrite fold_left_app. cbn [fold_left].
  rewrite IH by apply HP. apply Hinv, Ha.
Qed.

Lemma rc4_rounds_length (keys : list Uint8Array) (data : Uint8Array) :
  length (rc4_rounds keys data) = length data.
Proof.
  unfold rc4_rounds.
  apply (fold_left_preserves (fun c => length c = length data)).
  - intros c k Hc. rewrite rc4_length. exact Hc.
  - reflexivity.
Qed.

(** Undoing the rounds in the opposite order gives the data back. *)
Lemma rc4_rounds_rev (keys : list Uint8Array) (data : Uint8Array) :
  Forall is_byte data -> rc4_rounds (rev keys) (rc4_rounds keys data) = data.
Proof.
  intros Hd. unfold rc4_rounds.
  apply (fold_left_rev_undo (Forall is_byte)).
  - intros a b. apply rc4_involution.
  - apply rc4_bytes.
  - exact Hd.
Qed.

Lemma round_keys_rev (key : Uint8Array) (rounds : list nat) :
  round_keys key (rev rounds) = rev (round_keys key rounds).
Proof. unfold round_keys. apply map_rev. Qed.

(** The loop of 20 rounds, as the rounds under the round keys. *)
Lemma for_range_rounds (key cipher : Uint8Array) :
  Forall is_byte key ->
  for_range 20 (fun i cipher => rc4 cipher (xor_key key (length key) i)) cipher
  = rc4_rounds (round_keys key (seq 0 20)) cipher.
Proof.
  intros Hk. unfold for_range, rc4_rounds, round_keys.
  rewrite fold_left_map. apply fold_left_ext_in. intros c i Hi.
  apply in_seq in Hi. rewrite xor_key_bytes by (assumption || lia).
  reflexivity.
Qed.

Lemma getUserPasswordR2_eq (encryptionKey : Uint8Array) :
  getUserPasswordR2 encryptionKey = Ok (rc4 PASSWORD_PADDING encryptionKey).
Proof.
  unfold getUserPasswordR2. rewrite processPasswordR2R3R4_default.
  rewrite result_bind_Ok. reflexivity.
Qed.

(** X10: the user entry of revision 2 is RC4 of the padding constant under the
    file key, for every key: it has 32 bytes, and RC4 under the same key
    turns it back into the padding constant, which is the check of the user
    password. *)
Theorem getUserPasswordR2_round_trip (encryptionKey : Uint8Array) :
  getUserPasswordR2 encryptionKey = Ok (rc4 PASSWORD_PADDING encryptionKey) /\
  length (rc4 PASSWORD_PADDING encryptionKey) = 32%nat /\
  rc4 (rc4 PASSWORD_PADDING encryptionKey) encryptionKey = PASSWORD_PADDING.
Proof.
  split; [apply getUserPasswordR2_eq |]. split.
  - rewrite rc4_length. reflexivity.
  - apply rc4_involution, PASSWORD_PADDING_bytes.
Qed.

Lemma slice_whole (a : Uint8Array) : slice a 0 (Z.of_nat (length a)) = a.
Proof. rewrite slice_prefix by lia. rewrite Nat2Z.id. apply take_ge. lia. Qed.

Lemma getUserPasswordR3R4_eq (documentId encryptionKey : Uint8Array) :
  Forall is_byte encryptionKey ->
  getUserPasswordR3R4 documentId encryptionKey
  = uint8_set (replicate 32 0)
      (rc4_rounds (round_keys encryptionKey (seq 0 20))
         (MD5 (PASSWORD_PADDING ++ documentId))) 0.
Proof.
  intros Hk. unfold getUserPasswordR3R4. cbv zeta.
  rewrite processPasswordR2R3R4_default, result_bind_Ok.
  rewrite slice_whole. rewrite (for_range_rounds encryptionKey) by exact Hk.
  reflexivity.
Qed.

(** A 16-byte cipher followed by 16 zero bytes. *)
Lemma padded_cipher (cipher : Uint8Array) :
  length cipher = 16%nat ->
  length (cipher ++ replicate 16 0) = 32%nat /\
  take 16 (cipher ++ replicate 16 0) = cipher /\
  drop 16 (cipher ++ replicate 16 0) = replicate 16 0.
Proof.
  intros Hc. split; [| split].
  - rewrite length_app, Hc. reflexivity.
  - apply take_app_length'. symmetry. exact Hc.
  - apply drop_app_length'. symmetry. exact Hc.
Qed.

(** The user entry of revisions 3 and 4, for a file key of bytes. *)
Lemma getUserPasswordR3R4_value (documentId encryptionKey : Uint8Array) :
  Forall is_byte encryptionKey ->
  getUserPasswordR3R4 documentId encryptionKey
  = Ok (rc4_rounds (round_keys encryptionKey (seq 0 20))
          (MD5 (PASSWORD_PADDING ++ documentId))
        ++ replicate 16 0).
Proof using L.
  intros Hk. rewrite getUserPasswordR3R4_eq by exact Hk.
  pose proof (rc4_rounds_length (round_keys encryptionKey (seq 0 20))
                (MD5 (PASSWORD_PADDING ++ documentId))) as Hc.
  rewrite MD5_length in Hc. revert Hc.
  generalize (rc4_rounds (round_keys encryptionKey (seq 0 20))
                (MD5 (PASSWORD_PADDING ++ documentId))).
  intros cipher Hc.
  unfold uint8_set. rewrite length_replicate, Hc.
  change (32 <? 0 + 16)%nat with false. cbv iota.
  change (drop (0 + 16) (replicate 32 0)) with (replicate 16 0).
  reflexivity.
Qed.

(** X11: the user entry of revisions 3 and 4, for a file key of bytes.  The
    function returns 32 bytes: MD5 of the padding constant and the document
    identifier, encrypted by the 20 RC4 rounds [i = 0 .. 19] under the key
    XORed with [i], and 16 zero bytes after it.  The rounds in the order 19
    to 0 turn the first 16 bytes back into that MD5 digest. *)
Theorem getUserPasswordR3R4_round_trip (documentId encryptionKey : Uint8Array) :
  Forall is_byte encryptionKey ->
  let digest := MD5 (PASSWORD_PADDING ++ documentId) in
  exists U : Uint8Array,
    getUserPasswordR3R4 documentId encryptionKey = Ok U /\
    length U = 32%nat /\
    take 16 U = rc4_rounds (round_keys encryptionKey (seq 0 20)) digest /\
    drop 16 U = replicate 16 0 /\
    rc4_rounds (round_keys encryptionKey (rev (seq 0 20))) (take 16 U) = digest.
Proof using L.
  intros Hk. cbv zeta.
  rewrite (getUserPasswordR3R4_value documentId encryptionKey Hk).
  pose proof (MD5_bytes (PASSWORD_PADDING ++ documentId)) as Hb.
  pose proof (MD5_length (PASSWORD_PADDING ++ documentId)) as Hl.
  revert Hb Hl. generalize (MD5 (PASSWORD_PADDING ++ documentId)).
  intros digest Hb Hl.
  pose proof (rc4_rounds_rev (round_keys encryptionKey (seq 0 20)) digest Hb)
    as Hrev.
  pose proof (rc4_rounds_length (round_keys encryptionKey (seq 0 20)) digest)
    as Hc.
  rewrite <- round_keys_rev in Hrev. rewrite Hl in Hc.
  revert Hrev Hc.
  generalize (rc4_rounds (round_keys encryptionKey (seq 0 20)) digest).
  intros cipher Hrev Hc.
  destruct (padded_cipher cipher Hc) as (H32 & Ht & Hd).
  exists (cipher ++ replicate 16 0).
  split; [reflexivity |]. split; [exact H32 |]. split; [exact Ht |].
  split; [exact Hd |]. rewrite Ht. exact Hrev.
Qed.


Lemma owner_rounds (key data : Uint8Array) (rounds : list nat) :
  fold_left (fun cipher i => rc4 cipher (map (fun b => Z.lxor b i) key))
    (map Z.of_nat rounds) data
  = rc4_rounds (round_keys key rounds) data.
Proof. unfold rc4_rounds, round_keys. rewrite !fold_left_map. reflexivity. Qed.

(** X12: the owner entry decrypts to the padded user password.  For a key
    length between 0 and 128 bits and a padded user password of bytes, RC4 of
    the owner entry under the owner key (the first [keyBits / 8] bytes of MD5
    of the padded owner password, applied 51 times under revision 3 and
    later) is the padded user password under revision 2; under revision 3
    and later the 20 rounds in the order 19 to 0 give it back. *)
Theorem getOwnerPasswordR2R3R4_round_trip (r keyBits : Z)
  (paddedUserPassword paddedOwnerPassword : Uint8Array) :
  0 <= keyBits <= 128 -> Forall is_byte paddedUserPassword ->
  let O :=
    getOwnerPasswordR2R3R4 r keyBits paddedUserPassword paddedOwnerPassword in
  let key :=
    take (Z.to_nat (keyBits / 8))
      (Nat.iter (if 3 <=? r then 51%nat else 1%nat) MD5 paddedOwnerPassword) in
  (if 3 <=? r then rc4_rounds (round_keys key (rev (seq 0 20))) O
   else rc4 O key)
  = paddedUserPassword.
Proof using L.
  intros Hk Hpu. cbv zeta.
  rewrite getOwnerPasswordR2R3R4_spec by exact Hk.
  unfold owner_entry_spec. cbv zeta.
  remember (take (Z.to_nat (keyBits / 8))
              (Nat.iter (if 3 <=? r then 51%nat else 1%nat) MD5
                 paddedOwnerPassword)) as key eqn:Ekey.
  clear Ekey.
  destruct (3 <=? r).
  - rewrite owner_rounds, round_keys_rev.
    apply rc4_rounds_rev. exact Hpu.
  - apply rc4_involution. exact Hpu.
Qed.

(** ** The per-object encryptor, further *)

(** X13: under versions 1 and 2 the function [getEncryptFn] returns is its own
    inverse on arrays of bytes: applied to its output it returns its input,
    so that the same function decrypts. *)
Theorem getEncryptFn_rc4_round_trip (this : PDFSecurity) (obj gen : Z)
  (rs : RandomSource) :
  version this = 1 \/ version this = 2 -> 0 <= keyBits this ->
  exists f,
    getEncryptFn this obj gen rs = Ok (f, rs) /\
    forall buffer rs1,
      Forall is_byte buffer ->
      exists out,
        f buffer rs1 = Ok (out, rs1) /\ length out = length buffer /\
        f out rs1 = Ok (buffer, rs1).
Proof.
  intros Hv Hk.
  destruct (getEncryptFn_rc4 this obj gen rs Hv Hk) as (f & Hf & Hcall).
  exists f. split; [exact Hf |].
  intros buffer rs1 Hb.
  exists (rc4 buffer (object_key_spec this obj gen)).
  rewrite !Hcall. unfold rc4_encryptor.
  rewrite rc4_involution by exact Hb. rewrite rc4_length.
  repeat split; reflexivity.
Qed.

Lemma le_bytes_3_wraps (obj k : Z) :
  le_bytes 3 (obj + k * 2 ^ 24) = le_bytes 3 obj.
Proof.
  unfold le_bytes. apply map_ext_in. intros j Hj. apply in_seq in Hj.
  assert (Hc : j = 0%nat \/ j = 1%nat \/ j = 2%nat) by lia.
  destruct Hc as [-> | [-> | ->]]; cbn [Z.of_nat Z.mul Pos.of_succ_nat
    Pos.succ Pos.mul].
  - rewrite Z.pow_0_r, !Z.div_1_r.
    replace (k * 2 ^ 24) with (k * 65536 * 256) by (change (2 ^ 24) with 16777216; lia).
    apply Z_mod_plus_full.
  - change (2 ^ 8) with 256.
    replace (k * 2 ^ 24) with (k * 65536 * 256) by (change (2 ^ 24) with 16777216; lia).
    rewrite Z.div_add by lia.
    replace (k * 65536) with (k * 256 * 256) by lia.
    apply Z_mod_plus_full.
  - change (2 ^ 16) with 65536.
    replace (k * 2 ^ 24) with (k * 256 * 65536) by (change (2 ^ 24) with 16777216; lia).
    rewrite Z.div_add by lia. apply Z_mod_plus_full.
Qed.

Lemma le_bytes_2_wraps (gen k : Z) :
  le_bytes 2 (gen + k * 2 ^ 16) = le_bytes 2 gen.
Proof.
  unfold le_bytes. apply map_ext_in. intros j Hj. apply in_seq in Hj.
  assert (Hc : j = 0%nat \/ j = 1%nat) by lia.
  destruct Hc as [-> | ->]; cbn [Z.of_nat Z.mul Pos.of_succ_nat
    Pos.succ Pos.mul].
  - rewrite Z.pow_0_r, !Z.div_1_r.
    replace (k * 2 ^ 16) with (k * 256 * 256) by (change (2 ^ 16) with 65536; lia).
    apply Z_mod_plus_full.
  - change (2 ^ 8) with 256.
    replace (k * 2 ^ 16) with (k * 256 * 256) by (change (2 ^ 16) with 65536; lia).
    rewrite Z.div_add by lia. apply Z_mod_plus_full.
Qed.

(** X14: [getEncryptFn] reads the low 24 bits of the object number and the
    low 16 bits of the generation only: object numbers that differ by a
    multiple of [2 ^ 24] (and generations by a multiple of [2 ^ 16]) get the
    same encryptor.  Under version 5 the object number and the generation
    play no part at all. *)
Theorem getEncryptFn_object_number_wraps (this : PDFSecurity)
  (obj gen k l : Z) :
  getEncryptFn this (obj + k * 2 ^ 24) (gen + l * 2 ^ 16)
  = getEncryptFn this obj gen /\
  (version this = 5 ->
   forall obj' gen', getEncryptFn this obj' gen' = getEncryptFn this obj gen).
Proof.
  split.
  - unfold getEncryptFn. cbv zeta. rewrite !object_suffix_bytes.
    rewrite le_bytes_3_wraps, le_bytes_2_wraps. reflexivity.
  - intros Hv obj' gen'. unfold getEncryptFn. cbv zeta. rewrite Hv.
    change ((5 =? 1) || (5 =? 2)) with false.
    change (5 =? 4) with false. cbv iota. reflexivity.
Qed.

(** ** The password of revision 5 *)

Lemma utf8_of_code_point_bytes (cp : N) : Forall is_byte (utf8_of_code_point cp).
Proof.
  unfold utf8_of_code_point. cbv zeta. unfold is_byte.
  destruct (Z.of_N cp <? 0x80) eqn:E1.
  { apply Z.ltb_lt in E1. repeat constructor; lia. }
  destruct (Z.of_N cp <? 0x800) eqn:E2.
  { apply Z.ltb_lt in E2. apply Z.ltb_ge in E1.
    repeat constructor; Z.div_mod_to_equations; lia. }
  destruct (Z.of_N cp <? 0x10000) eqn:E3.
  { apply Z.ltb_lt in E3. apply Z.ltb_ge in E2.
    repeat constructor; Z.div_mod_to_equations; lia. }
  repeat constructor; Z.div_mod_to_equations; lia.
Qed.

Lemma utf8_binary_string_bytes (s : jsstring) (b : Uint8Array) :
  utf8_binary_string s = Ok b -> Forall is_byte b.
Proof.
  remember (length s) as n eqn:Hn. revert s b Hn.
  induction n as [n IH] using lt_wf_ind. intros s b Hn.
  destruct s as [|c rest]; cbn [utf8_binary_string].
  { intros H. injection H as <-. constructor. }
  destruct ((c <? 0xD800) || (0xDFFF <? c))%N.
  { intros H. apply result_bind_inv in H as (r & Hr & H). injection H as <-.
    apply Forall_app. split; [apply utf8_of_code_point_bytes |].
    apply (IH (length rest)) with (s := rest); [cbn in Hn; lia | reflexivity |].
    exact Hr. }
  destruct (0xDC00 <=? c)%N; [discriminate |].
  destruct rest as [|d rest']; [discriminate |].
  destruct ((0xDC00 <=? d) && (d <=? 0xDFFF))%N; [| discriminate].
  intros H. apply result_bind_inv in H as (r & Hr & H). injection H as <-.
  apply Forall_app. split; [apply utf8_of_code_point_bytes |].
  apply (IH (length rest')) with (s := rest'); [cbn in Hn; lia | reflexivity |].
  exact Hr.
Qed.

(** Characters below 0x80 are their own UTF-8 encoding. *)
Lemma utf8_binary_string_ascii (s : jsstring) :
  Forall (fun c => (c < 0x80)%N) s -> utf8_binary_string s = Ok (code_bytes s).
Proof.
  induction 1 as [|c rest Hc Hrest IH]; [reflexivity |].
  cbn [utf8_binary_string].
  assert (H1 : ((c <? 0xD800) || (0xDFFF <? c))%N = true).
  { apply orb_true_iff. left. apply N.ltb_lt. lia. }
  rewrite H1, IH, result_bind_Ok. unfold utf8_of_code_point. cbv zeta.
  assert (H2 : (Z.of_N c <? 0x80) = true) by (apply Z.ltb_lt; lia).
  rewrite H2. reflexivity.
Qed.

(** The copy loop of [processPasswordR5]. *)
Lemma copy_bytes (password : Uint8Array) (n : nat) :
  Forall is_byte password -> (n <= length password)%nat ->
  for_range n (fun i out => <[i := u8 (default 0 (password !! i))]> out)
    (replicate n 0)
  = take n password.
Proof.
  intros Hb Hn.
  rewrite (for_range_fill (fun i => u8 (default 0 (password !! i)))).
  revert n Hn. induction Hb as [|x password Hx Hb IH]; intros n Hn.
  - cbn in Hn. replace n with 0%nat by lia. reflexivity.
  - destruct n as [|n]; [reflexivity |].
    cbn [seq map take lookup list_lookup default from_option id].
    rewrite u8_byte by exact Hx. f_equal.
    rewrite <- seq_shift, map_map. cbn [lookup list_lookup].
    apply IH. cbn in Hn. lia.
Qed.

(** X15: the processed password of revision 5 is the UTF-8 encoding of the
    prepared password, cut after 127 bytes (in the middle of a character, if
    need be): at most 127 bytes.  A prepared password of characters below
    0x80 is processed to its first 127 character codes.  An error of
    [saslprep] or of [encodeURIComponent] is passed on. *)
Theorem processPasswordR5_utf8 (password : option jsstring) :
  (forall prepared bytes,
     saslprep (default [] password) = Ok prepared ->
     utf8_binary_string prepared = Ok bytes ->
     processPasswordR5 password = Ok (take 127 bytes) /\
     (length (take 127 bytes) <= 127)%nat /\
     Forall is_byte (take 127 bytes)) /\
  (forall prepared,
     saslprep (default [] password) = Ok prepared ->
     Forall (fun c => (c < 0x80)%N) prepared ->
     processPasswordR5 password = Ok (take 127 (code_bytes prepared))) /\
  (forall e,
     saslprep (default [] password) = Throw e ->
     processPasswordR5 password = Throw e) /\
  (forall prepared e,
     saslprep (default [] password) = Ok prepared ->
     utf8_binary_string prepared = Throw e ->
     processPasswordR5 password = Throw e).
Proof.
  assert (Hmain : forall prepared bytes,
            saslprep (default [] password) = Ok prepared ->
            utf8_binary_string prepared = Ok bytes ->
            processPasswordR5 password = Ok (take 127 bytes)).
  { intros prepared bytes Hp Hu. unfold processPasswordR5. cbv zeta.
    rewrite Hp, result_bind_Ok, Hu, result_bind_Ok.
    pose proof (utf8_binary_string_bytes _ _ Hu) as Hb.
    rewrite copy_bytes by (exact Hb || lia).
    f_equal. destruct (Nat.le_gt_cases (length bytes) 127).
    - rewrite Nat.min_r by lia. rewrite !take_ge by lia. reflexivity.
    - rewrite Nat.min_l by lia. reflexivity. }
  split; [| split; [| split]].
  - intros prepared bytes Hp Hu. split; [now apply (Hmain prepared) |].
    split; [rewrite length_take; lia |].
    apply Forall_take. eapply utf8_binary_string_bytes. exact Hu.
  - intros prepared Hp Ha. apply (Hmain prepared); [exact Hp |].
    apply utf8_binary_string_ascii, Ha.
  - intros e He. unfold processPasswordR5. cbv zeta. rewrite He. reflexivity.
  - intros prepared e Hp He. unfold processPasswordR5. cbv zeta.
    rewrite Hp, result_bind_Ok, He. reflexivity.
Qed.

(** ** The file identifier, further *)


(** ** The entries of revision 5, further *)

Lemma entry_hash (hash validationSalt keySalt : Uint8Array) :
  length hash = 32%nat ->
  take 32 (hash ++ validationSalt ++ keySalt) = hash.
Proof. intros Hh. apply take_app_length'. symmetry. exact Hh. Qed.

Lemma entry_validation_salt (hash validationSalt keySalt : Uint8Array) :
  length hash = 32%nat -> length validationSalt = 8%nat ->
  slice (hash ++ validationSalt ++ keySalt) 32 40 = validationSalt.
Proof.
  intros Hh Hv.
  change 32 with (Z.of_nat 32). change 40 with (Z.of_nat 40).
  rewrite slice_range by (rewrite !length_app; lia).
  rewrite drop_app_length' by (symmetry; exact Hh).
  apply take_app_length'. symmetry. exact Hv.
Qed.

(** X17: how the entries of revision 5 hold the file key.  In a handler
    constructed for PDF 1.7ext3 the file key is the first 32 bytes drawn from
    the random source, whatever the passwords, the permissions and the
    document are.  The first 32 bytes of [U] are SHA-256 of the processed
    user password and the validation salt [U[32..40)], and [UE] is the file
    key under AES-CBC without padding, with a zero IV and the key SHA-256 of
    the password and the key salt [U[40..48)]; [O] and [OE] are the same for
    the processed owner password, with [U] appended to the hashed bytes. *)
Theorem encryption_key_wrapped_V5 (document : Document) (options : Options)
  (rs rs' : RandomSource) (security : PDFSecurity) :
  version_is options "1.7ext3" = true ->
  PDFSecurity_new document options rs = Ok (security, rs') ->
  encryptionKey security = next_bytes rs 32 /\
  (forall document',
     PDFSecurity_new document' options rs = Ok (security, rs')) /\
  exists pu po U O UE OE : Uint8Array,
    processPasswordR5 (userPassword options) = Ok pu /\
    processed_owner options pu = Ok po /\
    get_property "U" (dictionary security) = Some (VBuffer U) /\
    get_property "UE" (dictionary security) = Some (VBuffer UE) /\
    get_property "O" (dictionary security) = Some (VBuffer O) /\
    get_property "OE" (dictionary security) = Some (VBuffer OE) /\
    take 32 U = sha256Hash (pu ++ slice U 32 40) /\
    aesCbcEncrypt (encryptionKey security)
      (sha256Hash (pu ++ slice U 40 48)) (replicate 16 0) false = Ok UE /\
    take 32 O = sha256Hash (po ++ slice O 32 40 ++ U) /\
    aesCbcEncrypt (encryptionKey security)
      (sha256Hash (po ++ slice O 40 48 ++ U)) (replicate 16 0) false = Ok OE.
Proof using L.
  intros H5 H.
  split; [| split].
  - apply (PDFSecurity_new_V5_inv _ _ _ _ _ H5) in H as [_ H].
    apply setupV5_inv in H as (pu & po & UE & OE & Perms & _ & _ & _ & Hkey & _).
    rewrite Hkey. symmetry. apply next_bytes_random_at.
  - intros document'. rewrite <- H. unfold PDFSecurity_new.
    destruct (negb (given (ownerPassword options))
              && negb (given (userPassword options))); [reflexivity |].
    rewrite !setupEncryption_V5 by exact H5. reflexivity.
  - apply (PDFSecurity_new_V5_inv _ _ _ _ _ H5) in H as [_ H].
    apply setupV5_inv in H
      as (pu & po & UE & OE & Perms & Hpu & Hpo & _ & Hkey & HUE & HOE & _
          & Hd & _).
    destruct (dictionary_V5_reads (O_entry rs pu po) OE (U_entry rs pu) UE
                (getPermissionsR3 (permissions options)) Perms)
      as (_ & _ & HrO & HrOE & HrU & HrUE & _).
    rewrite <- Hd in HrO, HrOE, HrU, HrUE.
    exists pu, po, (U_entry rs pu), (O_entry rs pu po), UE, OE.
    repeat (split; [assumption |]).
    assert (Hs : forall d, length (sha256Hash d) = 32%nat)
      by (intros d; apply sha256_length).
    unfold O_entry at 1 2 3. unfold U_entry at 1 2 3.
    rewrite !entry_hash, !entry_validation_salt, !entry_key_salt
      by (apply Hs || apply random_at_length).
    fold (U_entry rs pu). fold zero_iv.
    repeat split; try reflexivity; assumption.
Qed.

(** ** The file key and the user entry of a constructed handler *)

Lemma Ok_inj {A} (a b : A) : Ok a = Ok b -> a = b.
Proof. intros H. injection H as ->. reflexivity. Qed.

Lemma encryption_key_spec_bytes (r keyBits : Z) (pu O : Uint8Array) (P : Z)
  (fileID1 : Uint8Array) :
  Forall is_byte (encryption_key_spec r keyBits pu O P fileID1).
Proof using L.
  unfold encryption_key_spec. cbv zeta. apply Forall_take.
  destruct (3 <=? r); [rewrite Nat.iter_succ |]; apply MD5_bytes.
Qed.

Lemma random_at_bytes (rs : RandomSource) (a n : nat) :
  Forall is_byte (random_at rs a n).
Proof.
  unfold random_at, tape_segment. apply Forall_forall. intros x Hx.
  apply list_elem_of_In, in_map_iff in Hx as (k & <- & _). apply u8_is_byte.
Qed.

(** X18: the file key of a constructed handler is an array of bytes of
    [keyBits / 8] elements: 5 under version 1, 16 under versions 2 and 4, and
    32 under version 5. *)
Theorem encryption_key_invariant (document : Document) (options : Options)
  (rs rs' : RandomSource) (security : PDFSecurity) :
  PDFSecurity_new document options rs = Ok (security, rs') ->
  Forall is_byte (encryptionKey security) /\
  Z.of_nat (length (encryptionKey security)) = keyBits security / 8 /\
  length (encryptionKey security)
  = match version security with 1 => 5%nat | 5 => 32%nat | _ => 16%nat end.
Proof using L.
  intros H.
  destruct (PDFSecurity_new_well_formed _ _ _ _ _ H) as [Hvk Hlen].
  split; [| split; [exact Hlen |]].
  - destruct (version_is options "1.7ext3") eqn:H5.
    + apply (PDFSecurity_new_V5_inv _ _ _ _ _ H5) in H as [_ H].
      apply setupV5_inv in H
        as (pu & po & UE & OE & Perms & _ & _ & _ & Hkey & _).
      rewrite Hkey. apply random_at_bytes.
    + destruct (PDFSecurity_new_V1V2V4 _ _ _ _ _ H5 H)
        as (pu & po & U & Hv & _ & Hkb & _ & _ & Hkey & _).
      rewrite Hkey. rewrite getEncryptionKeyR2R3R4_spec.
      * apply encryption_key_spec_bytes.
      * rewrite Hkb. destruct Hv as [-> | [-> | ->]]; cbn; lia.
  - destruct Hvk as [[Hv Hk] | [[Hv Hk] | [[Hv Hk] | [Hv Hk]]]];
      rewrite Hv; rewrite Hk in Hlen;
      [change (40 / 8) with 5 in Hlen | change (128 / 8) with 16 in Hlen
       | change (128 / 8) with 16 in Hlen | change (256 / 8) with 32 in Hlen];
      lia.
Qed.

(** X19: the user entry of a handler constructed for a PDF version other than
    1.7ext3 has 32 bytes and proves the file key.  Under version 1, RC4 of
    [U] under the file key is the padding constant.  Under versions 2 and 4
    the last 16 bytes are zero, and the 20 RC4 rounds in the order 19 to 0,
    each under the file key XORed with the round number, turn the first 16
    bytes into MD5 of the padding constant and the document identifier. *)
Theorem user_entry_proves_key (document : Document) (options : Options)
  (rs rs' : RandomSource) (security : PDFSecurity) :
  version_is options "1.7ext3" = false ->
  PDFSecurity_new document options rs = Ok (security, rs') ->
  exists U : Uint8Array,
    get_property "U" (dictionary security) = Some (VBuffer U) /\
    length U = 32%nat /\
    (version security = 1 ->
     rc4 U (encryptionKey security) = PASSWORD_PADDING) /\
    (version security <> 1 ->
     drop 16 U = replicate 16 0 /\
     rc4_rounds (round_keys (encryptionKey security) (rev (seq 0 20)))
       (take 16 U)
     = MD5 (PASSWORD_PADDING ++ _id document)).
Proof using L.
  intros H5 H.
  assert (Hb : Forall is_byte (encryptionKey security)).
  { destruct (PDFSecurity_new_V1V2V4 _ _ _ _ _ H5 H)
      as (pu & po & U & Hv & _ & Hkb & _ & _ & Hkey & _).
    rewrite Hkey. rewrite getEncryptionKeyR2R3R4_spec.
    - apply encryption_key_spec_bytes.
    - rewrite Hkb. destruct Hv as [-> | [-> | ->]]; cbn; lia. }
  destruct (PDFSecurity_new_V1V2V4 _ _ _ _ _ H5 H)
    as (pu & po & U & Hv & _ & _ & _ & _ & _ & HU & _ & _ & _ & HrU & _).
  revert Hb HU. generalize (encryptionKey security). intros key Hb HU.
  exists U. split; [exact HrU |].
  unfold user_entry in HU.
  destruct Hv as [Hv | Hv].
  - rewrite Hv in HU. change (revision_of 1 =? 2) with true in HU.
    cbv iota in HU. rewrite getUserPasswordR2_eq in HU.
    apply Ok_inj in HU. subst U.
    split; [rewrite rc4_length; reflexivity |]. split.
    + intros _. apply rc4_involution, PASSWORD_PADDING_bytes.
    + intros Hn. exfalso. apply Hn, Hv.
  - assert (Hr : (revision_of (version security) =? 2) = false)
      by (destruct Hv as [-> | ->]; reflexivity).
    rewrite Hr in HU. rewrite (getUserPasswordR3R4_value _ _ Hb) in HU.
    apply Ok_inj in HU. subst U.
    pose proof (MD5_bytes (PASSWORD_PADDING ++ _id document)) as Hdb.
    pose proof (rc4_rounds_rev (round_keys key (seq 0 20)) _ Hdb) as Hrev.
    pose proof (rc4_rounds_length (round_keys key (seq 0 20))
                  (MD5 (PASSWORD_PADDING ++ _id document))) as Hc.
    rewrite <- round_keys_rev in Hrev. rewrite MD5_length in Hc.
    revert Hrev Hc.
    generalize (rc4_rounds (round_keys key (seq 0 20))
                  (MD5 (PASSWORD_PADDING ++ _id document))).
    intros cipher Hrev Hc.
    destruct (padded_cipher cipher Hc) as (H32 & Ht & Hd).
    split; [exact H32 |]. split.
    + intros H1. exfalso. destruct Hv as [Hv | Hv]; rewrite Hv in H1;
        discriminate H1.
    + intros _. split; [exact Hd |]. rewrite Ht. exact Hrev.
Qed.
End FurtherProperties.

(** * The JPEG image: [lib/image/jpeg.js]

    A [Buffer] is the list of its bytes, as values of [N].  The functions
    read it through [data[pos]], which is [undefined] past the end, and
    through [readUInt16BE] and its kin, which throw a [RangeError] there.
    The [while] loops take fuel; [None] is a run that used it up. *)

Module JPEG.

Abbreviation Buffer := (list N) (only parsing).

Inductive thrown : Type :=
| ThrownString (text : string)   (* [throw 'text'] *)
| OutOfRange.                    (* the [RangeError] of a read past the end *)

Inductive outcome (A : Type) : Type :=
| Return (a : A)
| Raise (e : thrown).
Arguments Return {A} a.
Arguments Raise {A} e.

Definition and_then {A B} (o : outcome A) (k : A -> outcome B) : outcome B :=
  match o with
  | Return a => k a
  | Raise e => Raise e
  end.

(** [data.readUInt16BE(offset)]: Node reads [data[offset]] and
    [data[offset + 1]] and throws when one of them is [undefined]. *)
Definition readUInt16BE (data : Buffer) (offset : nat) : outcome N :=
  match data !! offset, data !! (offset + 1)%nat with
  | Some first, Some last => Return (first * 256 + last)%N
  | _, _ => Raise OutOfRange
  end.

Definition readUInt16LE (data : Buffer) (offset : nat) : outcome N :=
  match data !! offset, data !! (offset + 1)%nat with
  | Some first, Some last => Return (first + last * 256)%N
  | _, _ => Raise OutOfRange
  end.

(** [readUInt32BE] and [readUInt32LE] check [data[offset]] and
    [data[offset + 3]]. *)
Definition readUInt32BE (data : Buffer) (offset : nat) : outcome N :=
  match data !! offset, data !! (offset + 3)%nat with
  | Some first, Some last =>
      Return (first * 2 ^ 24 + default 0 (data !! (offset + 1)%nat) * 2 ^ 16
              + default 0 (data !! (offset + 2)%nat) * 2 ^ 8 + last)%N
  | _, _ => Raise OutOfRange
  end.

Definition readUInt32LE (data : Buffer) (offset : nat) : outcome N :=
  match data !! offset, data !! (offset + 3)%nat with
  | Some first, Some last =>
      Return (first + default 0 (data !! (offset + 1)%nat) * 2 ^ 8
              + default 0 (data !! (offset + 2)%nat) * 2 ^ 16 + last * 2 ^ 24)%N
  | _, _ => Raise OutOfRange
  end.

(** [data.subarray(start, end)], for [start <= end]. *)
Definition subarray (data : Buffer) (start end_ : nat) : Buffer :=
  take (end_ - start) (drop start data).

(** The characters of [buf.toString('ascii')]: the high bit of every byte is
    cleared. *)
Definition ascii_codes (b : Buffer) : list N := map (fun x => N.land x 0x7f) b.

(** [while (pos < data.length && data[pos] !== 0xff) pos++], over the bytes
    from [pos] on. *)
Fixpoint skip_padding (rest : Buffer) (pos : nat) : nat :=
  match rest with
  | [] => pos
  | b :: rest' => if (b =? 0xff)%N then pos else skip_padding rest' (S pos)
  end.

Definition skip (data : Buffer) (pos : nat) : nat :=
  skip_padding (drop pos data) pos.

(** ** [parseExifOrientation] *)

(** The [for] loop over the entries of IFD0, [count] entries being left. *)
Fixpoint scan_entries (data : Buffer) (read16 : nat -> outcome N)
  (ifdPos : nat) (count : nat) (i : nat) : outcome (option N) :=
  match count with
  | O => Return None
  | S count' =>
      let entryPos := (ifdPos + 2 + i * 12)%nat in
      if (length data <? entryPos + 12)%nat then Return None
      else
        and_then (read16 entryPos) (fun tag =>
        if (tag =? 0x0112)%N then
          and_then (read16 (entryPos + 8)%nat) (fun value =>
          Return (if (1 <=? value)%N && (value <=? 8)%N then Some value
                  else None))
        else scan_entries data read16 ifdPos count' (S i))
  end.

(** The body of [if (exifHeader === 'Exif\x00\x00')], [pos] being the
    offset of the segment length. *)
Definition parse_tiff (data : Buffer) (pos : nat) : outcome (option N) :=
  let tiffStart := (pos + 8)%nat in
  if (length data <? tiffStart + 8)%nat then Return None
  else
    let byteOrder := ascii_codes (subarray data tiffStart (tiffStart + 2)) in
    let isLittleEndian := bool_decide (byteOrder = [0x49; 0x49]%N) in
    if negb isLittleEndian && negb (bool_decide (byteOrder = [0x4d; 0x4d]%N))
    then Return None
    else
      let read16 :=
        if isLittleEndian then readUInt16LE data else readUInt16BE data in
      let read32 :=
        if isLittleEndian then readUInt32LE data else readUInt32BE data in
      and_then (read16 (tiffStart + 2)%nat) (fun magic =>
      if negb (magic =? 42)%N then Return None
      else
        and_then (read32 (tiffStart + 4)%nat) (fun offset =>
        let ifdPos := (tiffStart + N.to_nat offset)%nat in
        if (length data <? ifdPos + 2)%nat then Return None
        else
          and_then (read16 ifdPos) (fun entryCount =>
          scan_entries data read16 ifdPos (N.to_nat entryCount) 0))).

(** ['Exif\x00\x00'] *)
Definition exif_header : Buffer := [0x45; 0x78; 0x69; 0x66; 0; 0]%N.

(** The outer [while (pos < data.length - 4)] loop; it runs for buffers of
    20 bytes and more, so that [data.length - 4] is not negative. *)
Fixpoint scan_segments (fuel : nat) (data : Buffer) (pos : nat)
  : option (outcome (option N)) :=
  match fuel with
  | O => None
  | S fuel' =>
      if negb (pos <? length data - 4)%nat then Some (Return None)
      else
        let pos := skip data pos in
        if (length data - 4 <=? pos)%nat then Some (Return None)
        else
          match readUInt16BE data pos with
          | Raise e => Some (Raise e)
          | Return marker =>
              let pos := (pos + 2)%nat in
              if (marker =? 0xffda)%N then Some (Return None)
              else if ((0xffd0 <=? marker)%N && (marker <=? 0xffd9)%N)
                      || (marker =? 0xff01)%N
              then scan_segments fuel' data pos
              else if (length data <? pos + 2)%nat then Some (Return None)
              else
                match readUInt16BE data pos with
                | Raise e => Some (Raise e)
                | Return segmentLength =>
                    if (marker =? 0xffe1)%N && (pos + 8 <=? length data)%nat
                       && bool_decide
                            (subarray data (pos + 2) (pos + 8) = exif_header)
                    then Some (parse_tiff data pos)
                    else
                      scan_segments fuel' data
                        (pos + N.to_nat segmentLength)%nat
                end
          end
  end.

(** Every round moves [pos] by 2 at least, so [data.length] rounds of fuel
    are enough. *)
Definition parseExifOrientation (data : Buffer) : option (outcome (option N)) :=
  if (length data <? 20)%nat then Some (Return None)
  else scan_segments (length data) data 2.

(** ** The constructor *)

Definition MARKERS : list N :=
  [0xffc0; 0xffc1; 0xffc2; 0xffc3; 0xffc5; 0xffc6; 0xffc7; 0xffc8; 0xffc9;
   0xffca; 0xffcb; 0xffcc; 0xffcd; 0xffce; 0xffcf]%N.

(** [MARKERS.includes(marker)] *)
Definition is_frame_marker (marker : N) : bool :=
  bool_decide (marker ∈ MARKERS).

(** [COLOR_SPACE_MAP[channels]] *)
Definition COLOR_SPACE_MAP (channels : option N) : option string :=
  match channels with
  | Some 1%N => Some "DeviceGray"%string
  | Some 3%N => Some "DeviceRGB"%string
  | Some 4%N => Some "DeviceCMYK"%string
  | _ => None
  end.

Record Image : Type := {
  orientation : N;
  bits : option N;
  height : N;
  width : N;
  colorSpace : option string
}.

(** The [while (pos < this.data.length)] loop of the constructor: it yields
    [pos] and [marker] as they are when the loop is left. *)
Fixpoint find_frame (fuel : nat) (data : Buffer) (pos : nat) (marker : option N)
  : option (outcome (nat * option N)) :=
  match fuel with
  | O => None
  | S fuel' =>
      if negb (pos <? length data)%nat then Some (Return (pos, marker))
      else
        let pos := skip data pos in
        if (length data <=? pos)%nat then Some (Return (pos, marker))
        else
          match readUInt16BE data pos with
          | Raise e => Some (Raise e)
          | Return m =>
              let pos := (pos + 2)%nat in
              if is_frame_marker m then Some (Return (pos, Some m))
              else
                match readUInt16BE data pos with
                | Raise e => Some (Raise e)
                | Return skipped =>
                    find_frame fuel' data (pos + N.to_nat skipped)%nat (Some m)
                end
          end
  end.

(** [new JPEG(data, label)] *)
Definition JPEG_new (data : Buffer) : option (outcome Image) :=
  match readUInt16BE data 0 with
  | Raise e => Some (Raise e)
  | Return soi =>
      if negb (soi =? 0xffd8)%N
      then Some (Raise (ThrownString "SOI not found in JPEG"))
      else
        match parseExifOrientation data with
        | None => None
        | Some (Raise e) => Some (Raise e)
        | Some (Return parsed) =>
            let orientation :=
              match parsed with
              | Some value => if (value =? 0)%N then 1%N else value
              | None => 1%N
              end in
            match find_frame (length data) data 2 None with
            | None => None
            | Some (Raise e) => Some (Raise e)
            | Some (Return (pos, marker)) =>
                if negb (match marker with
                         | Some m => is_frame_marker m
                         | None => false
                         end)
                then Some (Raise (ThrownString "Invalid JPEG."))
                else
                  let pos := (pos + 2)%nat in
                  let bits := data !! pos in
                  let pos := (pos + 1)%nat in
                  Some
                    (and_then (readUInt16BE data pos) (fun height =>
                     let pos := (pos + 2)%nat in
                     and_then (readUInt16BE data pos) (fun width =>
                     let pos := (pos + 2)%nat in
                     let channels := data !! pos in
                     Return {| orientation := orientation; bits := bits;
                               height := height; width := width;
                               colorSpace := COLOR_SPACE_MAP channels |})))
            end
        end
  end.

(** ** Reads within the buffer *)

Lemma lookup_within (data : Buffer) (i : nat) :
  (i < length data)%nat -> exists b, data !! i = Some b.
Proof. intros H. apply lookup_lt_is_Some_2. exact H. Qed.

Lemma readUInt16BE_within (data : Buffer) (offset : nat) :
  (offset + 2 <= length data)%nat -> exists v, readUInt16BE data offset = Return v.
Proof.
  intros H. unfold readUInt16BE.
  destruct (lookup_within data offset) as [a ->]; [lia |].
  destruct (lookup_within data (offset + 1)) as [b ->]; [lia |].
  eexists. reflexivity.
Qed.

Lemma readUInt16LE_within (data : Buffer) (offset : nat) :
  (offset + 2 <= length data)%nat -> exists v, readUInt16LE data offset = Return v.
Proof.
  intros H. unfold readUInt16LE.
  destruct (lookup_within data offset) as [a ->]; [lia |].
  destruct (lookup_within data (offset + 1)) as [b ->]; [lia |].
  eexists. reflexivity.
Qed.

Lemma readUInt32BE_within (data : Buffer) (offset : nat) :
  (offset + 4 <= length data)%nat -> exists v, readUInt32BE data offset = Return v.
Proof.
  intros H. unfold readUInt32BE.
  destruct (lookup_within data offset) as [a ->]; [lia |].
  destruct (lookup_within data (offset + 3)) as [b ->]; [lia |].
  eexists. reflexivity.
Qed.

Lemma readUInt32LE_within (data : Buffer) (offset : nat) :
  (offset + 4 <= length data)%nat -> exists v, readUInt32LE data offset = Return v.
Proof.
  intros H. unfold readUInt32LE.
  destruct (lookup_within data offset) as [a ->]; [lia |].
  destruct (lookup_within data (offset + 3)) as [b ->]; [lia |].
  eexists. reflexivity.
Qed.

Lemma skip_padding_ge (rest : Buffer) (pos : nat) :
  (pos <= skip_padding rest pos)%nat.
Proof.
  revert pos. induction rest as [|b rest IH]; intros pos; cbn [skip_padding];
    [lia |].
  destruct (b =? 0xff)%N; [lia |]. specialize (IH (S pos)). lia.
Qed.

Lemma skip_ge (data : Buffer) (pos : nat) : (pos <= skip data pos)%nat.
Proof. apply skip_padding_ge. Qed.

(** ** [parseExifOrientation] returns *)

(** A result of [parseExifOrientation]: [null], or a value from 1 to 8. *)
Definition valid_orientation (r : option N) : Prop :=
  match r with
  | None => True
  | Some value => (1 <= value <= 8)%N
  end.

Lemma scan_entries_returns (data : Buffer) (read16 : nat -> outcome N)
  (ifdPos count i : nat) :
  (forall o, (o + 2 <= length data)%nat -> exists v, read16 o = Return v) ->
  exists r,
    scan_entries data read16 ifdPos count i = Return r /\ valid_orientation r.
Proof.
  intros Hread. revert i. induction count as [|count IH]; intros i;
    cbn [scan_entries].
  { exists None. split; [reflexivity | exact I]. }
  cbv zeta.
  destruct (length data <? ifdPos + 2 + i * 12 + 12)%nat eqn:E.
  { exists None. split; [reflexivity | exact I]. }
  apply Nat.ltb_ge in E.
  destruct (Hread (ifdPos + 2 + i * 12)%nat) as [tag ->]; [lia |].
  cbn [and_then]. destruct (tag =? 274)%N.
  - destruct (Hread (ifdPos + 2 + i * 12 + 8)%nat) as [value ->]; [lia |].
    cbn [and_then].
    destruct ((1 <=? value)%N && (value <=? 8)%N) eqn:Ev.
    + exists (Some value). split; [reflexivity |].
      apply andb_true_iff in Ev as [H1 H8].
      apply N.leb_le in H1. apply N.leb_le in H8. split; assumption.
    + exists None. split; [reflexivity | exact I].
  - apply IH.
Qed.

Lemma parse_tiff_returns (data : Buffer) (pos : nat) :
  exists r, parse_tiff data pos = Return r /\ valid_orientation r.
Proof.
  unfold parse_tiff. cbv zeta.
  destruct (length data <? pos + 8 + 8)%nat eqn:E.
  { exists None. split; [reflexivity | exact I]. }
  apply Nat.ltb_ge in E.
  set (le := bool_decide (_ = [73; 73]%N)).
  destruct (negb le && negb (bool_decide (_ = [77; 77]%N))).
  { exists None. split; [reflexivity | exact I]. }
  set (read16 := if le then readUInt16LE data else readUInt16BE data).
  set (read32 := if le then readUInt32LE data else readUInt32BE data).
  assert (H16 : forall o, (o + 2 <= length data)%nat ->
                          exists v, read16 o = Return v).
  { intros o Ho. unfold read16.
    destruct le; [apply readUInt16LE_within | apply readUInt16BE_within];
      exact Ho. }
  assert (H32 : forall o, (o + 4 <= length data)%nat ->
                          exists v, read32 o = Return v).
  { intros o Ho. unfold read32.
    destruct le; [apply readUInt32LE_within | apply readUInt32BE_within];
      exact Ho. }
  destruct (H16 (pos + 8 + 2)%nat) as [magic ->]; [lia |]. cbn [and_then].
  destruct (negb (magic =? 42)%N).
  { exists None. split; [reflexivity | exact I]. }
  destruct (H32 (pos + 8 + 4)%nat) as [offset ->]; [lia |]. cbn [and_then].
  destruct (length data <? pos + 8 + N.to_nat offset + 2)%nat eqn:E2.
  { exists None. split; [reflexivity | exact I]. }
  apply Nat.ltb_ge in E2.
  destruct (H16 (pos + 8 + N.to_nat offset)%nat) as [count ->]; [lia |].
  cbn [and_then]. apply scan_entries_returns. exact H16.
Qed.

Lemma scan_segments_returns (data : Buffer) (fuel pos : nat) :
  (4 <= length data)%nat -> (1 <= fuel)%nat ->
  (length data + 1 <= fuel + pos)%nat ->
  exists r,
    scan_segments fuel data pos = Some (Return r) /\ valid_orientation r.
Proof.
  intros H4. revert pos. induction fuel as [|fuel IH]; intros pos H1 Hf;
    [lia |].
  cbn [scan_segments]. cbv zeta.
  destruct (pos <? length data - 4)%nat eqn:E; cbn [negb].
  2: { exists None. split; [reflexivity | exact I]. }
  apply Nat.ltb_lt in E. pose proof (skip_ge data pos) as Hs.
  destruct (length data - 4 <=? skip data pos)%nat eqn:E2.
  { exists None. split; [reflexivity | exact I]. }
  apply Nat.leb_gt in E2.
  destruct (readUInt16BE_within data (skip data pos)) as [marker ->]; [lia |].
  destruct (marker =? 65498)%N.
  { exists None. split; [reflexivity | exact I]. }
  destruct ((65488 <=? marker)%N && (marker <=? 65497)%N || (marker =? 65281)%N).
  { apply IH; lia. }
  destruct (length data <? skip data pos + 2 + 2)%nat eqn:E3.
  { exists None. split; [reflexivity | exact I]. }
  apply Nat.ltb_ge in E3.
  destruct (readUInt16BE_within data (skip data pos + 2)) as [len ->]; [lia |].
  destruct ((marker =? 65505)%N && (skip data pos + 2 + 8 <=? length data)%nat
            && bool_decide (_ = exif_header)).
  - destruct (parse_tiff_returns data (skip data pos + 2)) as (r & -> & Hr).
    exists r. split; [reflexivity | exact Hr].
  - apply IH; lia.
Qed.

(** Whatever the buffer holds, the loop over the segments is left with a
    result. *)
Lemma parseExifOrientation_valid (data : Buffer) :
  exists r,
    parseExifOrientation data = Some (Return r) /\ valid_orientation r.
Proof.
  unfold parseExifOrientation.
  destruct (length data <? 20)%nat eqn:E.
  - exists None. split; [reflexivity | exact I].
  - apply Nat.ltb_ge in E. apply scan_segments_returns; lia.
Qed.

(** X20: [parseExifOrientation] returns for every buffer, and never throws:
    every read it makes lies within the buffer.  The result is [null] or a
    value from 1 to 8, and it is [null] for a buffer of less than 20
    bytes. *)
Theorem parseExifOrientation_returns (data : Buffer) :
  (exists r,
     parseExifOrientation data = Some (Return r) /\ valid_orientation r) /\
  ((length data < 20)%nat -> parseExifOrientation data = Some (Return None)).
Proof.
  split.
  - unfold parseExifOrientation.
    destruct (length data <? 20)%nat eqn:E.
    + exists None. split; [reflexivity | exact I].
    + apply Nat.ltb_ge in E.
      destruct (scan_segments_returns data (length data) 2) as (r & Hr & Hv);
        [lia | lia | lia |].
      exists r. split; [exact Hr | exact Hv].
  - intros H. unfold parseExifOrientation.
    apply Nat.ltb_lt in H. rewrite H. reflexivity.
Qed.

(** ** The constructor returns or throws *)

Lemma find_frame_ends (data : Buffer) (fuel pos : nat) (marker : option N) :
  (1 <= fuel)%nat -> (length data + 1 <= fuel + pos)%nat ->
  exists o, find_frame fuel data pos marker = Some o.
Proof.
  revert pos marker. induction fuel as [|fuel IH]; intros pos marker H1 Hf;
    [lia |].
  cbn [find_frame]. cbv zeta.
  destruct (pos <? length data)%nat eqn:E; cbn [negb];
    [| eexists; reflexivity].
  apply Nat.ltb_lt in E. pose proof (skip_ge data pos) as Hs.
  destruct (length data <=? skip data pos)%nat; [eexists; reflexivity |].
  destruct (readUInt16BE data (skip data pos)) as [m | e];
    [| eexists; reflexivity].
  destruct (is_frame_marker m); [eexists; reflexivity |].
  destruct (readUInt16BE data (skip data pos + 2)) as [skipped | e];
    [| eexists; reflexivity].
  apply IH; lia.
Qed.

Lemma readUInt16BE_short (data : Buffer) (offset : nat) :
  (length data < offset + 2)%nat -> readUInt16BE data offset = Raise OutOfRange.
Proof.
  intros H. unfold readUInt16BE.
  destruct (data !! offset) as [a|] eqn:Ea; [| reflexivity].
  rewrite (lookup_ge_None_2 data (offset + 1)) by lia. reflexivity.
Qed.

Lemma readUInt16BE_raises (data : Buffer) (offset : nat) (e : thrown) :
  readUInt16BE data offset = Raise e -> e = OutOfRange.
Proof.
  unfold readUInt16BE.
  destruct (data !! offset), (data !! (offset + 1)%nat); try discriminate;
    intros H; injection H as <-; reflexivity.
Qed.

(** The loop of the constructor throws nothing but the error of a read. *)
Lemma find_frame_raises (data : Buffer) (fuel pos : nat) (marker : option N)
  (e : thrown) :
  find_frame fuel data pos marker = Some (Raise e) -> e = OutOfRange.
Proof.
  revert pos marker. induction fuel as [|fuel IH]; intros pos marker;
    cbn [find_frame]; [discriminate |].
  cbv zeta. destruct (negb (pos <? length data)%nat); [discriminate |].
  destruct (length data <=? skip data pos)%nat; [discriminate |].
  destruct (readUInt16BE data (skip data pos)) as [m | e1] eqn:E1.
  2: { intros H. injection H as <-. eapply readUInt16BE_raises, E1. }
  destruct (is_frame_marker m); [discriminate |].
  destruct (readUInt16BE data (skip data pos + 2)) as [skipped | e2] eqn:E2.
  2: { intros H. injection H as <-. eapply readUInt16BE_raises, E2. }
  apply IH.
Qed.

(** The colour spaces of [COLOR_SPACE_MAP]. *)
Definition known_color_space (c : option string) : Prop :=
  c = None \/ c = Some "DeviceGray"%string \/ c = Some "DeviceRGB"%string
  \/ c = Some "DeviceCMYK"%string.

Lemma COLOR_SPACE_MAP_known (channels : option N) :
  known_color_space (COLOR_SPACE_MAP channels).
Proof.
  unfold known_color_space, COLOR_SPACE_MAP.
  destruct channels as [[|[[|[]|]|[|[]|]|]]|]; tauto.
Qed.

(** X21: the constructor ends for every buffer: it returns an image, or throws
    one of the two strings, or the [RangeError] of a read past the end of the
    buffer.  An image it returns has an orientation from 1 to 8 and a colour
    space of the map or [undefined].  A buffer of less than 2 bytes gives the
    [RangeError], and a buffer that does not start with 0xff 0xd8 gives 'SOI
    not found in JPEG'. *)
Theorem JPEG_new_outcomes (data : Buffer) :
  (exists o,
     JPEG_new data = Some o /\
     match o with
     | Return image =>
         readUInt16BE data 0 = Return 0xffd8%N /\
         (1 <= orientation image <= 8)%N /\
         known_color_space (colorSpace image)
     | Raise (ThrownString text) =>
         text = "SOI not found in JPEG"%string \/ text = "Invalid JPEG."%string
     | Raise OutOfRange => True
     end) /\
  ((length data < 2)%nat -> JPEG_new data = Some (Raise OutOfRange)) /\
  (forall soi,
     readUInt16BE data 0 = Return soi -> soi <> 0xffd8%N ->
     JPEG_new data = Some (Raise (ThrownString "SOI not found in JPEG"))).
Proof.
  split; [| split].
  - unfold JPEG_new.
    destruct (readUInt16BE data 0) as [soi | e] eqn:Esoi.
    2: { exists (Raise e). split; [reflexivity |].
         rewrite (readUInt16BE_raises _ _ _ Esoi). exact I. }
    destruct (soi =? 0xffd8)%N eqn:E; cbn [negb].
    2: { eexists. split; [reflexivity |]. left. reflexivity. }
    apply N.eqb_eq in E. subst soi.
    assert (Hlen : (2 <= length data)%nat).
    { destruct (Nat.lt_ge_cases (length data) 2) as [Hs | Hs]; [| exact Hs].
      rewrite readUInt16BE_short in Esoi by lia. discriminate Esoi. }
    destruct (parseExifOrientation_valid data) as (r & -> & Hr).
    assert (Ho : (1 <= match r with
                       | Some value => if (value =? 0)%N then 1 else value
                       | None => 1
                       end <= 8)%N).
    { destruct r as [value|]; [| lia]. cbn in Hr.
      destruct (value =? 0)%N; lia. }
    destruct (find_frame_ends data (length data) 2 None) as [o Hfind];
      [lia | lia |].
    rewrite Hfind. destruct o as [[pos marker] | e].
    2: { exists (Raise e). split; [reflexivity |].
         rewrite (find_frame_raises _ _ _ _ _ Hfind). exact I. }
    destruct (match marker with Some m => is_frame_marker m | None => false end);
      cbn [negb].
    2: { eexists. split; [reflexivity |]. right. reflexivity. }
    destruct (readUInt16BE data (pos + 2 + 1)) as [h | e] eqn:Eh; cbn [and_then].
    2: { exists (Raise e). split; [reflexivity |].
         rewrite (readUInt16BE_raises _ _ _ Eh). exact I. }
    destruct (readUInt16BE data (pos + 2 + 1 + 2)) as [w | e] eqn:Ew;
      cbn [and_then].
    2: { exists (Raise e). split; [reflexivity |].
         rewrite (readUInt16BE_raises _ _ _ Ew). exact I. }
    eexists. split; [reflexivity |]. cbn [orientation colorSpace].
    split; [reflexivity |]. split; [exact Ho | apply COLOR_SPACE_MAP_known].
  - intros H. unfold JPEG_new. rewrite readUInt16BE_short by lia. reflexivity.
  - intros soi Hs Hn. unfold JPEG_new. rewrite Hs.
    apply N.eqb_neq in Hn. rewrite Hn. reflexivity.
Qed.

(** ** Reading a well-formed file *)

Lemma lookup_at (pre tail : Buffer) (x : N) (n : nat) :
  n = length pre -> (pre ++ x :: tail) !! n = Some x.
Proof. intros ->. apply list_lookup_middle. reflexivity. Qed.

Lemma readUInt16BE_at (pre tail : Buffer) (a b : N) (n : nat) :
  n = length pre ->
  readUInt16BE (pre ++ a :: b :: tail) n = Return (a * 256 + b)%N.
Proof.
  intros ->. unfold readUInt16BE.
  rewrite (lookup_at pre (b :: tail) a) by reflexivity.
  replace (pre ++ a :: b :: tail) with ((pre ++ [a]) ++ b :: tail)
    by (rewrite <- app_assoc; reflexivity).
  rewrite (lookup_at (pre ++ [a]) tail b)
    by (rewrite length_app; reflexivity).
  reflexivity.
Qed.

(** Bytes other than 0xff before a marker are skipped. *)
Lemma skip_padding_at (padding tail : Buffer) (pos : nat) :
  Forall (fun b => b <> 0xff%N) padding ->
  skip_padding (padding ++ 0xff%N :: tail) pos = (pos + length padding)%nat.
Proof.
  intros H. revert pos. induction H as [|b padding Hb Hp IH]; intros pos.
  - cbn. lia.
  - cbn [app skip_padding length]. apply N.eqb_neq in Hb. rewrite Hb.
    rewrite IH. lia.
Qed.

Lemma skip_at (pre padding tail : Buffer) (pos : nat) :
  pos = length pre -> Forall (fun b => b <> 0xff%N) padding ->
  skip (pre ++ padding ++ 0xff%N :: tail) pos = (pos + length padding)%nat.
Proof.
  intros -> H. unfold skip. rewrite drop_app_length.
  apply skip_padding_at. exact H.
Qed.

(** A segment the constructor passes over: padding bytes, the marker
    [0xff m], the two bytes of the length, and the payload the length
    counts. *)
Record Segment : Type := {
  seg_padding : Buffer;
  seg_marker : N;
  seg_length_high : N;
  seg_length_low : N;
  seg_payload : Buffer
}.

Definition segment_bytes (s : Segment) : Buffer :=
  seg_padding s
  ++ [0xff%N; seg_marker s; seg_length_high s; seg_length_low s]
  ++ seg_payload s.

Definition passed_over (s : Segment) : Prop :=
  Forall (fun b => b <> 0xff%N) (seg_padding s) /\
  is_frame_marker (0xff * 256 + seg_marker s) = false /\
  N.to_nat (seg_length_high s * 256 + seg_length_low s)
  = (length (seg_payload s) + 2)%nat.

Definition segments_bytes (segments : list Segment) : Buffer :=
  concat (map segment_bytes segments).

(** One round of the loop over a segment that is passed over. *)
Lemma find_frame_passes (pre rest : Buffer) (s : Segment) (fuel : nat)
  (marker : option N) :
  passed_over s ->
  find_frame (S fuel) (pre ++ segment_bytes s ++ rest) (length pre) marker
  = find_frame fuel (pre ++ segment_bytes s ++ rest)
      (length pre + length (segment_bytes s))
      (Some (0xff * 256 + seg_marker s)%N).
Proof.
  intros (Hp & Hm & Hl).
  remember (pre ++ segment_bytes s ++ rest) as data eqn:Hdata.
  assert (H1 : data = pre ++ seg_padding s
                      ++ 0xff%N :: seg_marker s :: seg_length_high s
                         :: seg_length_low s :: seg_payload s ++ rest).
  { rewrite Hdata. unfold segment_bytes. rewrite <- !app_assoc. reflexivity. }
  assert (H2 : data = (pre ++ seg_padding s)
                      ++ 0xff%N :: seg_marker s :: seg_length_high s
                         :: seg_length_low s :: seg_payload s ++ rest).
  { rewrite H1, <- app_assoc. reflexivity. }
  assert (H3 : data = (pre ++ seg_padding s ++ [0xff%N; seg_marker s])
                      ++ seg_length_high s :: seg_length_low s
                         :: seg_payload s ++ rest).
  { rewrite H1, <- !app_assoc. reflexivity. }
  assert (Hlen : length data
                 = (length pre + length (seg_padding s) + 4
                    + length (seg_payload s) + length rest)%nat).
  { rewrite H1, !length_app. cbn [length]. rewrite length_app. lia. }
  assert (Hseg : length (segment_bytes s)
                 = (length (seg_padding s) + 4 + length (seg_payload s))%nat).
  { unfold segment_bytes. rewrite !length_app. cbn [length]. lia. }
  cbn [find_frame]. cbv zeta.
  assert (Hlt : (length pre <? length data)%nat = true)
    by (apply Nat.ltb_lt; lia).
  rewrite Hlt. cbn [negb].
  assert (Hskip : skip data (length pre)
                  = (length pre + length (seg_padding s))%nat).
  { rewrite H1. apply skip_at; [reflexivity | exact Hp]. }
  rewrite Hskip.
  assert (Hle : (length data <=? length pre + length (seg_padding s))%nat
                = false) by (apply Nat.leb_gt; lia).
  rewrite Hle.
  assert (Hr1 : readUInt16BE data (length pre + length (seg_padding s))
                = Return (0xff * 256 + seg_marker s)%N).
  { rewrite H2. apply readUInt16BE_at. rewrite length_app. reflexivity. }
  rewrite Hr1, Hm.
  assert (Hr2 : readUInt16BE data (length pre + length (seg_padding s) + 2)
                = Return (seg_length_high s * 256 + seg_length_low s)%N).
  { rewrite H3. apply readUInt16BE_at. rewrite !length_app. cbn [length]. lia. }
  rewrite Hr2, Hl. f_equal. lia.
Qed.

(** At the frame marker the loop is left. *)
Lemma find_frame_stops (pre padding tail : Buffer) (m : N) (fuel : nat)
  (marker : option N) :
  Forall (fun b => b <> 0xff%N) padding ->
  is_frame_marker (0xff * 256 + m) = true ->
  find_frame (S fuel) (pre ++ padding ++ 0xff%N :: m :: tail) (length pre)
    marker
  = Some (Return ((length pre + length padding + 2)%nat,
                  Some (0xff * 256 + m)%N)).
Proof.
  intros Hp Hm.
  remember (pre ++ padding ++ 0xff%N :: m :: tail) as data eqn:Hdata.
  assert (H2 : data = (pre ++ padding) ++ 0xff%N :: m :: tail).
  { rewrite Hdata, <- app_assoc. reflexivity. }
  assert (Hlen : length data
                 = (length pre + length padding + 2 + length tail)%nat).
  { rewrite Hdata, !length_app. cbn [length]. lia. }
  cbn [find_frame]. cbv zeta.
  assert (Hlt : (length pre <? length data)%nat = true)
    by (apply Nat.ltb_lt; lia).
  rewrite Hlt. cbn [negb].
  assert (Hskip : skip data (length pre) = (length pre + length padding)%nat).
  { rewrite Hdata. apply skip_at; [reflexivity | exact Hp]. }
  rewrite Hskip.
  assert (Hle : (length data <=? length pre + length padding)%nat = false)
    by (apply Nat.leb_gt; lia).
  rewrite Hle.
  assert (Hr1 : readUInt16BE data (length pre + length padding)
                = Return (0xff * 256 + m)%N).
  { rewrite H2. apply readUInt16BE_at. rewrite length_app. reflexivity. }
  rewrite Hr1, Hm. reflexivity.
Qed.

Lemma find_frame_finds (segments : list Segment) :
  forall (pre padding tail : Buffer) (m : N) (fuel : nat) (marker : option N),
    Forall passed_over segments ->
    Forall (fun b => b <> 0xff%N) padding ->
    is_frame_marker (0xff * 256 + m) = true ->
    (length segments < fuel)%nat ->
    find_frame fuel
      (pre ++ segments_bytes segments ++ padding ++ 0xff%N :: m :: tail)
      (length pre) marker
    = Some (Return
              ((length pre + length (segments_bytes segments)
                + length padding + 2)%nat,
               Some (0xff * 256 + m)%N)).
Proof.
  induction segments as [|s segments IH];
    intros pre padding tail m fuel marker Hs Hp Hm Hf.
  - destruct fuel as [|fuel]; [cbn in Hf; lia |].
    cbn [segments_bytes map concat app length].
    rewrite (find_frame_stops pre padding tail m fuel marker Hp Hm).
    do 3 f_equal. lia.
  - apply Forall_cons in Hs as [Hs0 Hs].
    destruct fuel as [|fuel]; [cbn in Hf; lia |].
    assert (Hb : segments_bytes (s :: segments)
                 = segment_bytes s ++ segments_bytes segments) by reflexivity.
    rewrite Hb, <- app_assoc.
    rewrite (find_frame_passes pre _ s fuel marker Hs0).
    rewrite <- length_app.
    rewrite (app_assoc pre (segment_bytes s)).
    rewrite (IH (pre ++ segment_bytes s) padding tail m fuel _ Hs Hp Hm)
      by (cbn in Hf; lia).
    do 3 f_equal. rewrite !length_app. lia.
Qed.

Lemma segments_bytes_length (segments : list Segment) :
  (length segments <= length (segments_bytes segments))%nat.
Proof.
  induction segments as [|s segments IH]; [cbn; lia |].
  change (segments_bytes (s :: segments))
    with (segment_bytes s ++ segments_bytes segments).
  rewrite length_app. unfold segment_bytes. rewrite !length_app.
  cbn [length]. lia.
Qed.

(** X22: the constructor reads the frame header behind any number of segments.
    For a buffer made of the marker 0xff 0xd8, segments that are passed over
    (each with padding bytes other than 0xff before its marker, a marker that
    is no frame marker, and a length that counts its payload), padding, and
    a frame marker followed by its length, the precision, the height, the
    width and the number of channels, the image has that precision as [bits],
    that height and width, the colour space of the channels, and the
    orientation [parseExifOrientation] finds, or 1 when it finds none. *)
Theorem JPEG_new_reads_frame (segments : list Segment) (padding tail : Buffer)
  (m lengthHigh lengthLow precision h1 h2 w1 w2 channels : N) :
  Forall passed_over segments ->
  Forall (fun b => b <> 0xff%N) padding ->
  is_frame_marker (0xff * 256 + m) = true ->
  let data :=
    [0xff; 0xd8]%N ++ segments_bytes segments ++ padding
    ++ [0xff%N; m; lengthHigh; lengthLow; precision; h1; h2; w1; w2; channels]
    ++ tail in
  exists r,
    parseExifOrientation data = Some (Return r) /\
    JPEG_new data
    = Some (Return {| orientation := default 1%N r;
                      bits := Some precision;
                      height := h1 * 256 + h2;
                      width := w1 * 256 + w2;
                      colorSpace := COLOR_SPACE_MAP (Some channels) |}).
Proof.
  intros Hs Hp Hm. cbv zeta.
  remember ([0xff; 0xd8]%N ++ segments_bytes segments ++ padding
            ++ [0xff%N; m; lengthHigh; lengthLow; precision; h1; h2; w1; w2;
                channels] ++ tail) as data eqn:Hdata.
  set (p := (2 + length (segments_bytes segments) + length padding)%nat).
  set (P := [0xff; 0xd8]%N ++ segments_bytes segments ++ padding).
  assert (HP : length P = p).
  { unfold P, p. rewrite !length_app. cbn [length]. lia. }
  assert (H0 : data = [] ++ 0xff%N :: 0xd8%N
                      :: segments_bytes segments ++ padding
                         ++ [0xff%N; m; lengthHigh; lengthLow; precision; h1;
                             h2; w1; w2; channels] ++ tail).
  { rewrite Hdata. reflexivity. }
  assert (H1 : data = [0xff; 0xd8]%N ++ segments_bytes segments ++ padding
                      ++ 0xff%N :: m
                         :: [lengthHigh; lengthLow; precision; h1; h2; w1; w2;
                             channels] ++ tail).
  { rewrite Hdata. reflexivity. }
  assert (H4 : data = (P ++ [0xff%N; m; lengthHigh; lengthLow])
                      ++ precision :: [h1; h2; w1; w2; channels] ++ tail).
  { rewrite Hdata. unfold P. rewrite <- !app_assoc. reflexivity. }
  assert (H5 : data = (P ++ [0xff%N; m; lengthHigh; lengthLow; precision])
                      ++ h1 :: h2 :: [w1; w2; channels] ++ tail).
  { rewrite Hdata. unfold P. rewrite <- !app_assoc. reflexivity. }
  assert (H7 : data = (P ++ [0xff%N; m; lengthHigh; lengthLow; precision; h1;
                             h2])
                      ++ w1 :: w2 :: [channels] ++ tail).
  { rewrite Hdata. unfold P. rewrite <- !app_assoc. reflexivity. }
  assert (H9 : data = (P ++ [0xff%N; m; lengthHigh; lengthLow; precision; h1;
                             h2; w1; w2])
                      ++ channels :: tail).
  { rewrite Hdata. unfold P. rewrite <- !app_assoc. reflexivity. }
  assert (Hlen : length data = (p + 10 + length tail)%nat).
  { rewrite H9, !length_app, HP. cbn [length]. lia. }
  destruct (parseExifOrientation_valid data) as (r & Hr & Hv).
  exists r. split; [exact Hr |].
  assert (Ho : match r with
               | Some value => if (value =? 0)%N then 1%N else value
               | None => 1%N
               end = default 1%N r).
  { destruct r as [value|]; [| reflexivity]. cbn in Hv.
    destruct (value =? 0)%N eqn:E; [| reflexivity].
    apply N.eqb_eq in E. lia. }
  unfold JPEG_new.
  assert (Hsoi : readUInt16BE data 0 = Return 0xffd8%N).
  { rewrite H0. apply (readUInt16BE_at [] _ 0xff 0xd8). reflexivity. }
  rewrite Hsoi. change (negb (0xffd8 =? 0xffd8)%N) with false. cbv iota.
  rewrite Hr.
  assert (Hfind : find_frame (length data) data 2 None
                  = Some (Return ((p + 2)%nat, Some (0xff * 256 + m)%N))).
  { rewrite H1 at 2.
    rewrite (find_frame_finds segments [0xff; 0xd8]%N padding _ m (length data)
               None Hs Hp Hm).
    - cbn [length]. unfold p. do 3 f_equal.
    - pose proof (segments_bytes_length segments). lia. }
  rewrite Hfind. rewrite Hm. cbn [negb]. cbv zeta.
  assert (Hbits : data !! (p + 2 + 2)%nat = Some precision).
  { rewrite H4. apply lookup_at. rewrite length_app, HP. cbn [length]. lia. }
  assert (Hh : readUInt16BE data (p + 2 + 2 + 1) = Return (h1 * 256 + h2)%N).
  { rewrite H5. apply readUInt16BE_at. rewrite length_app, HP.
    cbn [length]. lia. }
  assert (Hw : readUInt16BE data (p + 2 + 2 + 1 + 2)
               = Return (w1 * 256 + w2)%N).
  { rewrite H7. apply readUInt16BE_at. rewrite length_app, HP.
    cbn [length]. lia. }
  assert (Hc : data !! (p + 2 + 2 + 1 + 2 + 2)%nat = Some channels).
  { rewrite H9. apply lookup_at. rewrite length_app, HP. cbn [length]. lia. }
  rewrite Hbits, Hh. cbn [and_then]. rewrite Hw. cbn [and_then].
  rewrite Hc, Ho. reflexivity.
Qed.

(** ** Reading the orientation of a well-formed EXIF segment *)

(** Two bytes in the byte order of the TIFF header. *)
Definition u16 (littleEndian : bool) (high low : N) : Buffer :=
  if littleEndian then [low; high] else [high; low].

(** ['II'] or ['MM'], the magic number 42 and the offset 8 of IFD0. *)
Definition tiff_header (littleEndian : bool) : Buffer :=
  (if littleEndian then [0x49; 0x49]%N else [0x4d; 0x4d]%N)
  ++ u16 littleEndian 0 42
  ++ (if littleEndian then [8; 0; 0; 0]%N else [0; 0; 0; 8]%N).

(** An entry of an IFD: tag, type, count, and the value with two bytes of
    fill. *)
Record IfdEntry : Type := {
  tag_high : N; tag_low : N;
  type_high : N; type_low : N;
  count0 : N; count1 : N; count2 : N; count3 : N;
  value_high : N; value_low : N;
  fill0 : N; fill1 : N
}.

Definition entry_bytes (littleEndian : bool) (e : IfdEntry) : Buffer :=
  u16 littleEndian (tag_high e) (tag_low e)
  ++ u16 littleEndian (type_high e) (type_low e)
  ++ [count0 e; count1 e; count2 e; count3 e]
  ++ u16 littleEndian (value_high e) (value_low e)
  ++ [fill0 e; fill1 e].

Definition entries_bytes (littleEndian : bool) (entries : list IfdEntry)
  : Buffer :=
  concat (map (entry_bytes littleEndian) entries).

(** [read16] of [parseExifOrientation]. *)
Definition read16 (littleEndian : bool) (data : Buffer) : nat -> outcome N :=
  if littleEndian then readUInt16LE data else readUInt16BE data.

Lemma readUInt16LE_at (pre tail : Buffer) (a b : N) (n : nat) :
  n = length pre ->
  readUInt16LE (pre ++ a :: b :: tail) n = Return (a + b * 256)%N.
Proof.
  intros ->. unfold readUInt16LE.
  rewrite (lookup_at pre (b :: tail) a) by reflexivity.
  replace (pre ++ a :: b :: tail) with ((pre ++ [a]) ++ b :: tail)
    by (rewrite <- app_assoc; reflexivity).
  rewrite (lookup_at (pre ++ [a]) tail b)
    by (rewrite length_app; reflexivity).
  reflexivity.
Qed.

Lemma read16_at (littleEndian : bool) (pre tail : Buffer) (high low : N)
  (n : nat) :
  n = length pre ->
  read16 littleEndian (pre ++ u16 littleEndian high low ++ tail) n
  = Return (high * 256 + low)%N.
Proof.
  intros Hn. unfold read16, u16. destruct littleEndian; cbn [app].
  - rewrite readUInt16LE_at by exact Hn. f_equal. lia.
  - apply readUInt16BE_at. exact Hn.
Qed.

Lemma entry_bytes_length (littleEndian : bool) (e : IfdEntry) :
  length (entry_bytes littleEndian e) = 12%nat.
Proof. unfold entry_bytes, u16. destruct littleEndian; reflexivity. Qed.

Lemma entries_bytes_length (littleEndian : bool) (entries : list IfdEntry) :
  length (entries_bytes littleEndian entries) = (12 * length entries)%nat.
Proof.
  induction entries as [|e entries IH]; [reflexivity |].
  change (entries_bytes littleEndian (e :: entries))
    with (entry_bytes littleEndian e ++ entries_bytes littleEndian entries).
  rewrite length_app, entry_bytes_length, IH. cbn [length]. lia.
Qed.

(** The value of the tag 0x0112, as the function returns it. *)
Definition orientation_of (value : N) : option N :=
  if (1 <=? value)%N && (value <=? 8)%N then Some value else None.

(** The loop over the entries passes the entries with another tag and
    returns at the first entry with the tag 0x0112. *)
Lemma scan_entries_finds (littleEndian : bool) (before : list IfdEntry) :
  forall (pre tail : Buffer) (e : IfdEntry) (ifdPos count i : nat),
    Forall (fun x => (tag_high x * 256 + tag_low x)%N <> 0x0112%N) before ->
    (tag_high e * 256 + tag_low e)%N = 0x0112%N ->
    length pre = (ifdPos + 2 + i * 12)%nat ->
    (length before < count)%nat ->
    let data :=
      pre ++ entries_bytes littleEndian before
      ++ entry_bytes littleEndian e ++ tail in
    scan_entries data (read16 littleEndian data) ifdPos count i
    = Return (orientation_of (value_high e * 256 + value_low e)).
Proof.
  induction before as [|x before IH];
    intros pre tail e ifdPos count i Hb He Hpre Hc data.
  - subst data. cbn [entries_bytes map concat app].
    destruct count as [|count]; [cbn in Hc; lia |].
    cbn [scan_entries]. cbv zeta.
    remember (pre ++ entry_bytes littleEndian e ++ tail) as data eqn:Hdata.
    assert (Hlen : length data = (length pre + 12 + length tail)%nat).
    { rewrite Hdata, !length_app, entry_bytes_length. lia. }
    assert (Hlt : (length data <? ifdPos + 2 + i * 12 + 12)%nat = false)
      by (apply Nat.ltb_ge; lia).
    rewrite Hlt.
    assert (Htag : read16 littleEndian data (ifdPos + 2 + i * 12)
                   = Return (tag_high e * 256 + tag_low e)%N).
    { rewrite Hdata. unfold entry_bytes. rewrite <- !app_assoc.
      apply read16_at. symmetry. exact Hpre. }
    rewrite Htag. cbn [and_then]. rewrite He.
    change (0x0112 =? 0x0112)%N with true. cbv iota.
    assert (Hval : read16 littleEndian data (ifdPos + 2 + i * 12 + 8)
                   = Return (value_high e * 256 + value_low e)%N).
    { rewrite Hdata. unfold entry_bytes. rewrite <- !app_assoc.
      rewrite (app_assoc pre), (app_assoc (pre ++ _)), (app_assoc ((pre ++ _) ++ _)).
      apply read16_at. rewrite !length_app. unfold u16.
      destruct littleEndian; cbn [length]; lia. }
    rewrite Hval. reflexivity.
  - apply Forall_cons in Hb as [Hx Hb]. subst data.
    destruct count as [|count]; [cbn in Hc; lia |].
    change (entries_bytes littleEndian (x :: before))
      with (entry_bytes littleEndian x ++ entries_bytes littleEndian before).
    rewrite <- app_assoc.
    remember (pre ++ entry_bytes littleEndian x
              ++ entries_bytes littleEndian before
              ++ entry_bytes littleEndian e ++ tail) as data eqn:Hdata.
    cbn [scan_entries]. cbv zeta.
    assert (Hlen : length data
                   = (length pre + 12 + 12 * length before + 12
                      + length tail)%nat).
    { rewrite Hdata, !length_app, !entry_bytes_length, entries_bytes_length.
      lia. }
    assert (Hlt : (length data <? ifdPos + 2 + i * 12 + 12)%nat = false)
      by (apply Nat.ltb_ge; lia).
    rewrite Hlt.
    assert (Htag : read16 littleEndian data (ifdPos + 2 + i * 12)
                   = Return (tag_high x * 256 + tag_low x)%N).
    { rewrite Hdata. unfold entry_bytes at 1. rewrite <- !app_assoc.
      apply read16_at. symmetry. exact Hpre. }
    rewrite Htag. cbn [and_then].
    apply N.eqb_neq in Hx. rewrite Hx.
    pose proof (IH (pre ++ entry_bytes littleEndian x) tail e ifdPos count
                  (S i) Hb He) as IH'.
    cbv zeta in IH'. rewrite <- app_assoc in IH'. rewrite <- Hdata in IH'.
    apply IH'.
    + rewrite length_app, entry_bytes_length. lia.
    + cbn in Hc. lia.
Qed.

(** X23: [parseExifOrientation] reads the orientation of a well-formed file.
    For a buffer made of the marker 0xff 0xd8, the APP1 marker 0xff 0xe1 with
    its length, ['Exif\x00\x00'], a TIFF header in either byte order with
    IFD0 at offset 8, the number of entries, entries with other tags, and an
    entry with the tag 0x0112, the result is the value of that entry when it
    lies between 1 and 8, and [null] otherwise. *)
Theorem parseExifOrientation_reads_exif (littleEndian : bool)
  (lengthHigh lengthLow countHigh countLow : N)
  (before : list IfdEntry) (e : IfdEntry) (tail : Buffer) :
  Forall (fun x => (tag_high x * 256 + tag_low x)%N <> 0x0112%N) before ->
  (tag_high e * 256 + tag_low e)%N = 0x0112%N ->
  (length before < N.to_nat (countHigh * 256 + countLow))%nat ->
  parseExifOrientation
    ([0xff; 0xd8; 0xff; 0xe1; lengthHigh; lengthLow]%N ++ exif_header
     ++ tiff_header littleEndian ++ u16 littleEndian countHigh countLow
     ++ entries_bytes littleEndian before
     ++ entry_bytes littleEndian e ++ tail)
  = Some (Return (orientation_of (value_high e * 256 + value_low e))).
Proof.
  intros Hb He Hc.
  set (hd := [0xff; 0xd8; 0xff; 0xe1; lengthHigh; lengthLow]%N ++ exif_header
             ++ tiff_header littleEndian
             ++ u16 littleEndian countHigh countLow).
  remember ([0xff; 0xd8; 0xff; 0xe1; lengthHigh; lengthLow]%N ++ exif_header
            ++ tiff_header littleEndian ++ u16 littleEndian countHigh countLow
            ++ entries_bytes littleEndian before
            ++ entry_bytes littleEndian e ++ tail) as data eqn:Hdata.
  assert (Hhd : data = hd ++ entries_bytes littleEndian before
                       ++ entry_bytes littleEndian e ++ tail).
  { rewrite Hdata. unfold hd. rewrite <- !app_assoc. reflexivity. }
  assert (Hhl : length hd = 22%nat).
  { unfold hd, tiff_header, u16. destruct littleEndian; reflexivity. }
  assert (Hlen : length data
                 = (22 + 12 * length before + 12 + length tail)%nat).
  { rewrite Hhd, !length_app, Hhl, entries_bytes_length, entry_bytes_length.
    lia. }
  assert (Hfound :
            scan_entries data (read16 littleEndian data) 20
              (N.to_nat (countHigh * 256 + countLow)) 0
            = Return (orientation_of (value_high e * 256 + value_low e))).
  { rewrite Hhd.
    apply (scan_entries_finds littleEndian before hd tail e 20
             (N.to_nat (countHigh * 256 + countLow)) 0 Hb He);
      [rewrite Hhl; reflexivity | exact Hc]. }
  assert (Hskip : skip data 2 = 2%nat).
  { rewrite Hdata. reflexivity. }
  assert (Hmarker : readUInt16BE data 2 = Return 0xffe1%N).
  { rewrite Hdata. reflexivity. }
  assert (Hseg : readUInt16BE data 4 = Return (lengthHigh * 256 + lengthLow)%N).
  { rewrite Hdata. reflexivity. }
  assert (Hexif : subarray data (4 + 2) (4 + 8) = exif_header).
  { rewrite Hdata. reflexivity. }
  assert (Horder : ascii_codes (subarray data (4 + 8) (4 + 8 + 2))
                   = if littleEndian then [0x49; 0x49]%N else [0x4d; 0x4d]%N).
  { rewrite Hdata. unfold tiff_header. destruct littleEndian; reflexivity. }
  assert (Hmagic : read16 littleEndian data (4 + 8 + 2) = Return 42%N).
  { rewrite Hdata. unfold tiff_header, read16, u16.
    destruct littleEndian; reflexivity. }
  assert (Hoffset : (if littleEndian then readUInt32LE data
                     else readUInt32BE data) (4 + 8 + 4)%nat
                    = Return 8%N).
  { rewrite Hdata. unfold tiff_header, u16.
    destruct littleEndian; reflexivity. }
  assert (Hcount : read16 littleEndian data (4 + 8 + N.to_nat 8)
                   = Return (countHigh * 256 + countLow)%N).
  { rewrite Hhd. rewrite app_assoc.
    replace hd with (firstn 20 hd ++ u16 littleEndian countHigh countLow).
    - rewrite <- !app_assoc. apply read16_at.
      unfold hd, tiff_header, u16. destruct littleEndian; reflexivity.
    - unfold hd, tiff_header, u16. destruct littleEndian; reflexivity. }
  clear Hdata Hhd. unfold parseExifOrientation.
  assert (H20 : (length data <? 20)%nat = false) by (apply Nat.ltb_ge; lia).
  rewrite H20.
  replace (length data) with (S (length data - 1)) at 1 by lia.
  cbn [scan_segments]. cbv zeta.
  assert (H1 : (2 <? length data - 4)%nat = true) by (apply Nat.ltb_lt; lia).
  rewrite H1. cbn [negb]. rewrite Hskip.
  assert (H2 : (length data - 4 <=? 2)%nat = false) by (apply Nat.leb_gt; lia).
  rewrite H2, Hmarker.
  change (0xffe1 =? 0xffda)%N with false.
  change ((0xffd0 <=? 0xffe1)%N && (0xffe1 <=? 0xffd9)%N || (0xffe1 =? 0xff01)%N)
    with false.
  cbv iota. change (2 + 2)%nat with 4%nat.
  assert (H3 : (length data <? 4 + 2)%nat = false)
    by (apply Nat.ltb_ge; lia).
  rewrite H3, Hseg.
  change (0xffe1 =? 0xffe1)%N with true.
  assert (H4 : (4 + 8 <=? length data)%nat = true)
    by (apply Nat.leb_le; lia).
  rewrite H4.
  rewrite (bool_decide_eq_true_2 _ Hexif). cbn [andb]. f_equal.
  unfold parse_tiff. cbv zeta.
  assert (H5 : (length data <? 4 + 8 + 8)%nat = false)
    by (apply Nat.ltb_ge; lia).
  rewrite H5, Horder.
  assert (Hle : bool_decide
                  ((if littleEndian then [0x49; 0x49]%N else [0x4d; 0x4d]%N)
                   = [0x49; 0x49]%N) = littleEndian).
  { destruct littleEndian; reflexivity. }
  assert (Hbe : bool_decide
                  ((if littleEndian then [0x49; 0x49]%N else [0x4d; 0x4d]%N)
                   = [0x4d; 0x4d]%N) = negb littleEndian).
  { destruct littleEndian; reflexivity. }
  rewrite Hle, Hbe.
  assert (Hn : negb littleEndian && negb (negb littleEndian) = false)
    by (destruct littleEndian; reflexivity).
  rewrite Hn. fold (read16 littleEndian data).
  rewrite Hmagic. cbn [and_then]. change (negb (42 =? 42)%N) with false.
  cbv iota. rewrite Hoffset. cbn [and_then].
  assert (H6 : (length data <? 4 + 8 + N.to_nat 8 + 2)%nat = false).
  { apply Nat.ltb_ge. change (N.to_nat 8) with 8%nat. lia. }
  rewrite H6, Hcount. cbn [and_then].
  change (4 + 8 + N.to_nat 8)%nat with 20%nat. exact Hfound.
Qed.

(** ** Files that end too early *)

Lemma skip_padding_all (padding : Buffer) (pos : nat) :
  Forall (fun b => b <> 0xff%N) padding ->
  skip_padding padding pos = (pos + length padding)%nat.
Proof.
  intros H. revert pos. induction H as [|b padding Hb Hp IH]; intros pos.
  - cbn. lia.
  - cbn [skip_padding length]. apply N.eqb_neq in Hb. rewrite Hb, IH. lia.
Qed.

(** X24: what the constructor does with a file that ends too early.  Behind
    the marker 0xff 0xd8 and bytes other than 0xff: when the file ends there,
    it throws 'Invalid JPEG.'; when the file ends with a single 0xff, or with
    a frame marker followed by less than 7 bytes, it throws the [RangeError]
    of the read past the end. *)
Theorem JPEG_new_truncated (padding short : Buffer) (m : N) :
  Forall (fun b => b <> 0xff%N) padding ->
  JPEG_new ([0xff; 0xd8]%N ++ padding)
  = Some (Raise (ThrownString "Invalid JPEG.")) /\
  JPEG_new ([0xff; 0xd8]%N ++ padding ++ [0xff%N]) = Some (Raise OutOfRange) /\
  (is_frame_marker (0xff * 256 + m) = true -> (length short < 7)%nat ->
   JPEG_new ([0xff; 0xd8]%N ++ padding ++ 0xff%N :: m :: short)
   = Some (Raise OutOfRange)).
Proof.
  intros Hp. split; [| split].
  - remember ([0xff; 0xd8]%N ++ padding) as data eqn:Hdata.
    assert (Hlen : length data = (2 + length padding)%nat).
    { rewrite Hdata, length_app. reflexivity. }
    destruct (parseExifOrientation_valid data) as (r & Hr & _).
    unfold JPEG_new.
    assert (Hsoi : readUInt16BE data 0 = Return 0xffd8%N).
    { rewrite Hdata. reflexivity. }
    rewrite Hsoi. change (negb (0xffd8 =? 0xffd8)%N) with false. cbv iota.
    rewrite Hr.
    assert (Hfind : find_frame (length data) data 2 None
                    = Some (Return (length data, None))).
    { replace (length data) with (S (length data - 1)) at 1 by lia.
      cbn [find_frame]. cbv zeta.
      destruct (2 <? length data)%nat eqn:E; cbn [negb].
      - assert (Hskip : skip data 2 = length data).
        { rewrite Hdata. unfold skip. cbn [app drop]. rewrite drop_0.
          rewrite skip_padding_all by exact Hp. cbn [length]. lia. }
        rewrite Hskip, Nat.leb_refl. reflexivity.
      - apply Nat.ltb_ge in E. do 3 f_equal. lia. }
    rewrite Hfind. reflexivity.
  - remember ([0xff; 0xd8]%N ++ padding ++ [0xff%N]) as data eqn:Hdata.
    assert (Hlen : length data = (2 + length padding + 1)%nat).
    { rewrite Hdata, !length_app. cbn [length]. lia. }
    destruct (parseExifOrientation_valid data) as (r & Hr & _).
    unfold JPEG_new.
    assert (Hsoi : readUInt16BE data 0 = Return 0xffd8%N).
    { rewrite Hdata. destruct padding; reflexivity. }
    rewrite Hsoi. change (negb (0xffd8 =? 0xffd8)%N) with false. cbv iota.
    rewrite Hr.
    assert (Hfind : find_frame (length data) data 2 None
                    = Some (Raise OutOfRange)).
    { replace (length data) with (S (length data - 1)) at 1 by lia.
      cbn [find_frame]. cbv zeta.
      assert (H2 : (2 <? length data)%nat = true) by (apply Nat.ltb_lt; lia).
      rewrite H2. cbn [negb].
      assert (Hskip : skip data 2 = (2 + length padding)%nat).
      { rewrite Hdata.
        apply (skip_at [0xff; 0xd8]%N padding []); [reflexivity | exact Hp]. }
      rewrite Hskip.
      assert (H3 : (length data <=? 2 + length padding)%nat = false)
        by (apply Nat.leb_gt; lia).
      rewrite H3. rewrite readUInt16BE_short by lia. reflexivity. }
    rewrite Hfind. reflexivity.
  - intros Hm Hshort.
    remember ([0xff; 0xd8]%N ++ padding ++ 0xff%N :: m :: short) as data
      eqn:Hdata.
    assert (Hlen : length data = (2 + length padding + 2 + length short)%nat).
    { rewrite Hdata, !length_app. cbn [length]. lia. }
    destruct (parseExifOrientation_valid data) as (r & Hr & _).
    unfold JPEG_new.
    assert (Hsoi : readUInt16BE data 0 = Return 0xffd8%N).
    { rewrite Hdata. destruct padding; reflexivity. }
    rewrite Hsoi. change (negb (0xffd8 =? 0xffd8)%N) with false. cbv iota.
    rewrite Hr.
    assert (Hfind : find_frame (length data) data 2 None
                    = Some (Return ((2 + length padding + 2)%nat,
                                    Some (0xff * 256 + m)%N))).
    { replace (length data) with (S (length data - 1)) at 1 by lia.
      rewrite Hdata.
      apply (find_frame_stops [0xff; 0xd8]%N padding short m); assumption. }
    rewrite Hfind, Hm. cbn [negb]. cbv zeta.
    destruct (readUInt16BE data (2 + length padding + 2 + 2 + 1))
      as [h | e] eqn:Eh; cbn [and_then].
    + rewrite readUInt16BE_short by lia. reflexivity.
    + rewrite (readUInt16BE_raises _ _ _ Eh). reflexivity.
Qed.

End JPEG.

(** * A reference for the imported libraries

    MD5 (RFC 1321), SHA-256 (FIPS 180-4) and AES with the CBC and ECB modes
    (FIPS 197, PKCS#7 padding), written out so that the theorems above can be
    applied to concrete documents.  The known answers below are those of the
    repository's tests in [tests/unit/crypto.spec.js]. *)

Module Reference.

(** ** Words *)

Definition w32 (x : Z) : Z := x mod 2 ^ 32.

Definition rotl32 (x n : Z) : Z :=
  w32 (Z.lor (Z.shiftl x n) (Z.shiftr x (32 - n))).

Definition rotr32 (x n : Z) : Z := rotl32 x (32 - n).

Definition not32 (x : Z) : Z := Z.lxor x 0xffffffff.

(** The chunks of [size] elements of a list, [n] of them. *)
Fixpoint chunks {A} (size n : nat) (l : list A) : list (list A) :=
  match n with
  | O => []
  | S n' => take size l :: chunks size n' (drop size l)
  end.

Definition le_word (b : list Z) : Z :=
  fold_right (fun x acc => x + 256 * acc) 0 b.

Definition be_word (b : list Z) : Z :=
  fold_left (fun acc x => 256 * acc + x) b 0.

Definition be_bytes (n : nat) (x : Z) : list Z := rev (le_bytes n x).

Definition word_at (M : list Z) (i : Z) : Z := default 0 (M !! Z.to_nat i).

(** ** MD5 *)

Definition md5_K : list Z :=
  [0xd76aa478; 0xe8c7b756; 0x242070db; 0xc1bdceee; 0xf57c0faf; 0x4787c62a;
   0xa8304613; 0xfd469501; 0x698098d8; 0x8b44f7af; 0xffff5bb1; 0x895cd7be;
   0x6b901122; 0xfd987193; 0xa679438e; 0x49b40821; 0xf61e2562; 0xc040b340;
   0x265e5a51; 0xe9b6c7aa; 0xd62f105d; 0x02441453; 0xd8a1e681; 0xe7d3fbc8;
   0x21e1cde6; 0xc33707d6; 0xf4d50d87; 0x455a14ed; 0xa9e3e905; 0xfcefa3f8;
   0x676f02d9; 0x8d2a4c8a; 0xfffa3942; 0x8771f681; 0x6d9d6122; 0xfde5380c;
   0xa4beea44; 0x4bdecfa9; 0xf6bb4b60; 0xbebfbc70; 0x289b7ec6; 0xeaa127fa;
   0xd4ef3085; 0x04881d05; 0xd9d4d039; 0xe6db99e5; 0x1fa27cf8; 0xc4ac5665;
   0xf4292244; 0x432aff97; 0xab9423a7; 0xfc93a039; 0x655b59c3; 0x8f0ccc92;
   0xffeff47d; 0x85845dd1; 0x6fa87e4f; 0xfe2ce6e0; 0xa3014314; 0x4e0811a1;
   0xf7537e82; 0xbd3af235; 0x2ad7d2bb; 0xeb86d391].

Definition md5_S : list Z :=
  [7; 12; 17; 22; 7; 12; 17; 22; 7; 12; 17; 22; 7; 12; 17; 22;
   5; 9; 14; 20; 5; 9; 14; 20; 5; 9; 14; 20; 5; 9; 14; 20;
   4; 11; 16; 23; 4; 11; 16; 23; 4; 11; 16; 23; 4; 11; 16; 23;
   6; 10; 15; 21; 6; 10; 15; 21; 6; 10; 15; 21; 6; 10; 15; 21].

Definition md5_step (M : list Z) (st : Z * Z * Z * Z) (i : Z)
  : Z * Z * Z * Z :=
  let '(a, b, c, d) := st in
  let '(f, g) :=
    if i <? 16 then
      (Z.lor (Z.land b c) (Z.land (not32 b) d), i)
    else if i <? 32 then
      (Z.lor (Z.land d b) (Z.land (not32 d) c), (5 * i + 1) mod 16)
    else if i <? 48 then
      (Z.lxor (Z.lxor b c) d, (3 * i + 5) mod 16)
    else
      (Z.lxor c (Z.lor b (not32 d)), (7 * i) mod 16) in
  let f := w32 (f + a + word_at md5_K i + word_at M g) in
  (d, w32 (b + rotl32 f (word_at md5_S i)), b, c).

Definition md5_block (st : Z * Z * Z * Z) (block : list Z) : Z * Z * Z * Z :=
  let M := map le_word (chunks 4 16 block) in
  let '(a, b, c, d) := st in
  let '(a', b', c', d') :=
    fold_left (md5_step M) (map Z.of_nat (seq 0 64)) st in
  (w32 (a + a'), w32 (b + b'), w32 (c + c'), w32 (d + d')).

(** The message, a byte 0x80, zeros up to 56 modulo 64, and the length in
    bits as 8 bytes. *)
Definition md_pad (length_bytes : nat -> Z -> list Z) (msg : list Z) : list Z :=
  let len := Z.of_nat (length msg) in
  msg ++ [0x80] ++ replicate (Z.to_nat ((55 - len) mod 64)) 0
  ++ length_bytes 8%nat (8 * len).

Definition md5 (msg : list Z) : list Z :=
  let padded := md_pad le_bytes (map u8 msg) in
  let '(a, b, c, d) :=
    fold_left md5_block (chunks 64 (length padded / 64) padded)
      (0x67452301, 0xefcdab89, 0x98badcfe, 0x10325476) in
  le_bytes 4 a ++ le_bytes 4 b ++ le_bytes 4 c ++ le_bytes 4 d.

(** The UTF-8 bytes js-md5 hashes for a string: a surrogate is combined with
    the code unit that follows it. *)
Fixpoint md5_utf8 (s : jsstring) : list Z :=
  match s with
  | [] => []
  | c :: rest =>
      if ((c <? 0xd800) || (0xe000 <=? c))%N then
        utf8_of_code_point c ++ md5_utf8 rest
      else
        match rest with
        | d :: rest' =>
            utf8_of_code_point
              (0x10000 + (N.lor (N.shiftl (N.land c 0x3ff) 10)
                            (N.land d 0x3ff)))%N
            ++ md5_utf8 rest'
        | [] =>
            utf8_of_code_point (0x10000 + N.shiftl (N.land c 0x3ff) 10)%N
        end
  end.

Definition js_md5 (data : md5_input) : list Z :=
  match data with
  | MString s => md5 (md5_utf8 s)
  | MBytes b => md5 b
  end.

Definition hex_digit (d : Z) : string :=
  String.substring (Z.to_nat d) 1 "0123456789abcdef".

Definition hex (b : list Z) : string :=
  fold_right (fun x acc => (hex_digit (x / 16) ++ hex_digit (x mod 16) ++ acc)%string)
    EmptyString b.

Example md5_empty : hex (md5 []) = "d41d8cd98f00b204e9800998ecf8427e"%string.
Proof. vm_compute. reflexivity. Qed.

Example md5_hello :
  hex (js_md5 (MString (lit "hello")))
  = "5d41402abc4b2a76b9719d911017c592"%string.
Proof. vm_compute. reflexivity. Qed.

(** ** SHA-256 *)

(** The constants of FIPS 180-4: the first 32 bits of the fractional parts
    of the cube roots (for [sha256_K]) and of the square roots (for
    [sha256_H0]) of the first prime numbers. *)
Definition is_prime (n : nat) : bool :=
  (1 <? n)%nat && forallb (fun d => negb (n mod d =? 0)%nat) (seq 2 (n - 2)).

Definition first_primes (n : nat) : list Z :=
  map Z.of_nat (take n (filter (fun k => is_prime k = true) (seq 0 320))).

(** The integer cube root of a number below [2 ^ 108], bit by bit. *)
Definition cube_root (n : Z) : Z :=
  fold_left
    (fun r b =>
       let r' := r + 2 ^ Z.of_nat b in
       if r' * r' * r' <=? n then r' else r)
    (rev (seq 0 36)) 0.

Definition sha256_K : list Z :=
  Eval vm_compute in
    map (fun p => w32 (cube_root (p * 2 ^ 96))) (first_primes 64).

Definition sha256_H0 : list Z :=
  Eval vm_compute in
    map (fun p => w32 (Z.sqrt (p * 2 ^ 64))) (first_primes 8).

Example sha256_constants :
  word_at sha256_K 0 = 0x428a2f98 /\ word_at sha256_K 63 = 0xc67178f2 /\
  word_at sha256_H0 0 = 0x6a09e667 /\ word_at sha256_H0 7 = 0x5be0cd19.
Proof. repeat split; reflexivity. Qed.

(** The message schedule: 16 words of the block, then 48 derived words. *)
Definition sha256_schedule (block : list Z) : list Z :=
  fold_left
    (fun W t =>
       let w15 := word_at W (t - 15) in
       let w2 := word_at W (t - 2) in
       let s0 :=
         Z.lxor (Z.lxor (rotr32 w15 7) (rotr32 w15 18)) (Z.shiftr w15 3) in
       let s1 :=
         Z.lxor (Z.lxor (rotr32 w2 17) (rotr32 w2 19)) (Z.shiftr w2 10) in
       W ++ [w32 (word_at W (t - 16) + s0 + word_at W (t - 7) + s1)])
    (map Z.of_nat (seq 16 48))
    (map be_word (chunks 4 16 block)).

Definition sha256_step (W : list Z) (st : list Z) (t : Z) : list Z :=
  let a := word_at st 0 in let b := word_at st 1 in
  let c := word_at st 2 in let d := word_at st 3 in
  let e := word_at st 4 in let f := word_at st 5 in
  let g := word_at st 6 in let h := word_at st 7 in
  let S1 := Z.lxor (Z.lxor (rotr32 e 6) (rotr32 e 11)) (rotr32 e 25) in
  let ch := Z.lxor (Z.land e f) (Z.land (not32 e) g) in
  let t1 := w32 (h + S1 + ch + word_at sha256_K t + word_at W t) in
  let S0 := Z.lxor (Z.lxor (rotr32 a 2) (rotr32 a 13)) (rotr32 a 22) in
  let maj := Z.lxor (Z.lxor (Z.land a b) (Z.land a c)) (Z.land b c) in
  let t2 := w32 (S0 + maj) in
  [w32 (t1 + t2); a; b; c; w32 (d + t1); e; f; g].

Definition sha256_block (st : list Z) (block : list Z) : list Z :=
  let W := sha256_schedule block in
  let st' := fold_left (sha256_step W) (map Z.of_nat (seq 0 64)) st in
  map (fun i => w32 (word_at st i + word_at st' i)) (map Z.of_nat (seq 0 8)).

Definition noble_sha256 (msg : list Z) : list Z :=
  let padded := md_pad be_bytes (map u8 msg) in
  let st :=
    fold_left sha256_block (chunks 64 (length padded / 64) padded) sha256_H0 in
  flat_map (fun i => be_bytes 4 (word_at st i)) (map Z.of_nat (seq 0 8)).

Example sha256_hello :
  hex (noble_sha256 (bytes_of_string "hello"))
  = "2cf24dba5fb0a30e26e83b2ac5b9e29e1b161e5c1fa7425e73043362938b9824"%string.
Proof. vm_compute. reflexivity. Qed.

Example sha256_empty :
  hex (noble_sha256 [])
  = "e3b0c44298fc1c149afbf4c8996fb92427ae41e4649b934ca495991b7852b855"%string.
Proof. vm_compute. reflexivity. Qed.

(** ** AES *)

Definition sbox : list Z :=
  [0x63; 0x7c; 0x77; 0x7b; 0xf2; 0x6b; 0x6f; 0xc5; 0x30; 0x01; 0x67; 0x2b;
   0xfe; 0xd7; 0xab; 0x76; 0xca; 0x82; 0xc9; 0x7d; 0xfa; 0x59; 0x47; 0xf0;
   0xad; 0xd4; 0xa2; 0xaf; 0x9c; 0xa4; 0x72; 0xc0; 0xb7; 0xfd; 0x93; 0x26;
   0x36; 0x3f; 0xf7; 0xcc; 0x34; 0xa5; 0xe5; 0xf1; 0x71; 0xd8; 0x31; 0x15;
   0x04; 0xc7; 0x23; 0xc3; 0x18; 0x96; 0x05; 0x9a; 0x07; 0x12; 0x80; 0xe2;
   0xeb; 0x27; 0xb2; 0x75; 0x09; 0x83; 0x2c; 0x1a; 0x1b; 0x6e; 0x5a; 0xa0;
   0x52; 0x3b; 0xd6; 0xb3; 0x29; 0xe3; 0x2f; 0x84; 0x53; 0xd1; 0x00; 0xed;
   0x20; 0xfc; 0xb1; 0x5b; 0x6a; 0xcb; 0xbe; 0x39; 0x4a; 0x4c; 0x58; 0xcf;
   0xd0; 0xef; 0xaa; 0xfb; 0x43; 0x4d; 0x33; 0x85; 0x45; 0xf9; 0x02; 0x7f;
   0x50; 0x3c; 0x9f; 0xa8; 0x51; 0xa3; 0x40; 0x8f; 0x92; 0x9d; 0x38; 0xf5;
   0xbc; 0xb6; 0xda; 0x21; 0x10; 0xff; 0xf3; 0xd2; 0xcd; 0x0c; 0x13; 0xec;
   0x5f; 0x97; 0x44; 0x17; 0xc4; 0xa7; 0x7e; 0x3d; 0x64; 0x5d; 0x19; 0x73;
   0x60; 0x81; 0x4f; 0xdc; 0x22; 0x2a; 0x90; 0x88; 0x46; 0xee; 0xb8; 0x14;
   0xde; 0x5e; 0x0b; 0xdb; 0xe0; 0x32; 0x3a; 0x0a; 0x49; 0x06; 0x24; 0x5c;
   0xc2; 0xd3; 0xac; 0x62; 0x91; 0x95; 0xe4; 0x79; 0xe7; 0xc8; 0x37; 0x6d;
   0x8d; 0xd5; 0x4e; 0xa9; 0x6c; 0x56; 0xf4; 0xea; 0x65; 0x7a; 0xae; 0x08;
   0xba; 0x78; 0x25; 0x2e; 0x1c; 0xa6; 0xb4; 0xc6; 0xe8; 0xdd; 0x74; 0x1f;
   0x4b; 0xbd; 0x8b; 0x8a; 0x70; 0x3e; 0xb5; 0x66; 0x48; 0x03; 0xf6; 0x0e;
   0x61; 0x35; 0x57; 0xb9; 0x86; 0xc1; 0x1d; 0x9e; 0xe1; 0xf8; 0x98; 0x11;
   0x69; 0xd9; 0x8e; 0x94; 0x9b; 0x1e; 0x87; 0xe9; 0xce; 0x55; 0x28; 0xdf;
   0x8c; 0xa1; 0x89; 0x0d; 0xbf; 0xe6; 0x42; 0x68; 0x41; 0x99; 0x2d; 0x0f;
   0xb0; 0x54; 0xbb; 0x16].

Definition rcon : list Z :=
  [0x01; 0x02; 0x04; 0x08; 0x10; 0x20; 0x40; 0x80; 0x1b; 0x36].

Definition byte_at (l : list Z) (i : nat) : Z := default 0 (l !! i).

Definition sub_byte (b : Z) : Z := byte_at sbox (Z.to_nat b).

(** Multiplication by [x] in GF(2^8). *)
Definition xtime (a : Z) : Z :=
  Z.lxor (Z.shiftl a 1 mod 256) (if Z.testbit a 7 then 0x1b else 0).

Definition xor_bytes (a b : list Z) : list Z := zip_with Z.lxor a b.

(** The words of the key schedule, as bytes: word [i] is at [4 * i]. *)
Definition expand_key (key : list Z) : list Z :=
  let Nk := (length key / 4)%nat in
  let Nr := (Nk + 6)%nat in
  fold_left
    (fun w i =>
       let prev := take 4 (drop (4 * (i - 1)) w) in
       let temp :=
         if (i mod Nk =? 0)%nat then
           xor_bytes (map sub_byte (drop 1 prev ++ take 1 prev))
             [byte_at rcon (i / Nk - 1); 0; 0; 0]
         else if ((6 <? Nk) && (i mod Nk =? 4))%nat then map sub_byte prev
         else prev in
       w ++ xor_bytes (take 4 (drop (4 * (i - Nk)) w)) temp)
    (seq Nk (4 * (Nr + 1) - Nk)) (map u8 key).

Definition shift_rows (st : list Z) : list Z :=
  map (fun i => byte_at st (i mod 4 + 4 * ((i / 4 + i mod 4) mod 4)))
    (seq 0 16).

Definition mix_columns (st : list Z) : list Z :=
  flat_map
    (fun c =>
       let a0 := byte_at st (4 * c) in
       let a1 := byte_at st (4 * c + 1) in
       let a2 := byte_at st (4 * c + 2) in
       let a3 := byte_at st (4 * c + 3) in
       [Z.lxor (Z.lxor (xtime a0) (Z.lxor (xtime a1) a1)) (Z.lxor a2 a3);
        Z.lxor (Z.lxor a0 (xtime a1)) (Z.lxor (Z.lxor (xtime a2) a2) a3);
        Z.lxor (Z.lxor a0 a1) (Z.lxor (xtime a2) (Z.lxor (xtime a3) a3));
        Z.lxor (Z.lxor (Z.lxor (xtime a0) a0) a1) (Z.lxor a2 (xtime a3))])
    (seq 0 4).

Definition add_round_key (w : list Z) (round : nat) (st : list Z) : list Z :=
  map (fun i => Z.lxor (byte_at st i) (byte_at w (16 * round + i))) (seq 0 16).

(** The cipher on one block, for the expanded key [w] and [Nr] rounds. *)
Definition encrypt_block (w : list Z) (Nr : nat) (block : list Z) : list Z :=
  let st := add_round_key w 0 block in
  let st :=
    fold_left
      (fun st round =>
         add_round_key w round (mix_columns (shift_rows (map sub_byte st))))
      (seq 1 (Nr - 1)) st in
  add_round_key w Nr (shift_rows (map sub_byte st)).

Definition pkcs7 (data : list Z) : list Z :=
  let p := (16 - length data mod 16)%nat in
  data ++ replicate p (Z.of_nat p).

Fixpoint cbc_blocks (w : list Z) (Nr n : nat) (prev data : list Z) : list Z :=
  match n with
  | O => []
  | S n' =>
      let c := encrypt_block w Nr (xor_bytes (take 16 data) prev) in
      c ++ cbc_blocks w Nr n' c (drop 16 data)
  end.

Fixpoint ecb_blocks (w : list Z) (Nr n : nat) (data : list Z) : list Z :=
  match n with
  | O => []
  | S n' =>
      encrypt_block w Nr (take 16 data) ++ ecb_blocks w Nr n' (drop 16 data)
  end.

Definition valid_key (key : list Z) : bool :=
  ((length key =? 16) || (length key =? 24) || (length key =? 32))%nat.

(** The library throws on a key or an IV of the wrong length, and on data
    that is not a whole number of blocks when padding is disabled. *)
Definition noble_cbc (key iv : list Z) (disablePadding : bool) (data : list Z)
  : result (list Z) :=
  if valid_key key && (length iv =? 16)%nat then
    let data := map u8 data in
    let w := expand_key key in
    let Nr := (length key / 4 + 6)%nat in
    if disablePadding then
      if (length data mod 16 =? 0)%nat
      then Ok (cbc_blocks w Nr (length data / 16) (map u8 iv) data)
      else Throw LibraryError
    else
      Ok (cbc_blocks w Nr (length data / 16 + 1) (map u8 iv) (pkcs7 data))
  else Throw LibraryError.

Definition noble_ecb (key : list Z) (disablePadding : bool) (data : list Z)
  : result (list Z) :=
  if valid_key key then
    let data := map u8 data in
    let w := expand_key key in
    let Nr := (length key / 4 + 6)%nat in
    if disablePadding then
      if (length data mod 16 =? 0)%nat
      then Ok (ecb_blocks w Nr (length data / 16) data)
      else Throw LibraryError
    else Ok (ecb_blocks w Nr (length data / 16 + 1) (pkcs7 data))
  else Throw LibraryError.

Example aes128_ecb_zero :
  noble_ecb (replicate 16 0) true (replicate 16 0)
  = Ok [0x66; 0xe9; 0x4b; 0xd4; 0xef; 0x8a; 0x2c; 0x3b;
        0x88; 0x4c; 0xfa; 0x59; 0xca; 0x34; 0x2b; 0x2e].
Proof. vm_compute. reflexivity. Qed.

(** The example vectors of FIPS 197, appendix C. *)
Example aes128_fips197 :
  result_bind
    (noble_ecb (map Z.of_nat (seq 0 16)) true
       (map (fun i => 17 * Z.of_nat i) (seq 0 16)))
    (fun c => Ok (hex c))
  = Ok "69c4e0d86a7b0430d8cdb78070b4c55a"%string.
Proof. vm_compute. reflexivity. Qed.

Example aes256_fips197 :
  result_bind
    (noble_ecb (map Z.of_nat (seq 0 32)) true
       (map (fun i => 17 * Z.of_nat i) (seq 0 16)))
    (fun c => Ok (hex c))
  = Ok "8ea2b7ca516745bfeafc49904b496089"%string.
Proof. vm_compute. reflexivity. Qed.

Definition hex_value (c : ascii) : Z :=
  let n := Z.of_N (N_of_ascii c) in
  if n <? 58 then n - 48 else n - 87.

Fixpoint unhex (s : string) : list Z :=
  match s with
  | String a (String b rest) => (16 * hex_value a + hex_value b) :: unhex rest
  | _ => []
  end.

(** CBC-AES128.Encrypt of NIST SP 800-38A, F.2.1, first two blocks. *)
Example aes128_cbc_sp800_38a :
  noble_cbc (unhex "2b7e151628aed2a6abf7158809cf4f3c")
    (unhex "000102030405060708090a0b0c0d0e0f") true
    (unhex "6bc1bee22e409f96e93d7e117393172aae2d8a571e03ac9c9eb76fac45af8e51")
  = Ok (unhex
          "7649abac8119b246cee98e9b12e9197d5086cb9b507219ee95db113a917678b2").
Proof. vm_compute. reflexivity. Qed.

(** With padding: 5 bytes become one block, 17 bytes two. *)
Example aes128_cbc_padded :
  noble_cbc (replicate 16 0) (replicate 16 0) false (bytes_of_string "hello")
  = Ok (unhex "9834ed518cbc8fbe9af3c6ecb75eb8c0").
Proof. vm_compute. reflexivity. Qed.

Example aes256_cbc_padded :
  noble_cbc (map Z.of_nat (seq 0 32)) (map Z.of_nat (seq 0 16)) false
    (bytes_of_string "Test data for AES")
  = Ok (unhex
          "beea48455535dd1f52eef40e703e7fad85839b61322d434649602f9b2a535ed6").
Proof. vm_compute. reflexivity. Qed.

(** Messages of more than one block, and of 56 bytes (the padding then
    takes a second block). *)
Example md5_two_blocks :
  hex (md5 (replicate 100 65)) = "8adc5937e635f6c9af646f0b23560fae"%string
  /\ hex (md5 (replicate 56 66)) = "ee0a6d91f573b47a98f7ce0b4d671c5f"%string.
Proof. split; vm_compute; reflexivity. Qed.

Example sha256_two_blocks :
  hex (noble_sha256 (replicate 100 65))
  = "d82c6aa133a0fc25b087f46ad7ed2a3042772e612e015571e61753ff55ba6da8"%string
  /\ hex (noble_sha256 (replicate 56 66))
     = "821c30ffb748ac6d776ad4972a6cbc7ca32e6aaf63b68808e7fe92321dfbb6b8"%string.
Proof. split; vm_compute; reflexivity. Qed.

(** ** SASLprep

    RFC 4013 leaves a string of printable ASCII characters unchanged; the
    reference refuses every other string. *)
Definition saslprep_ascii (s : jsstring) : result jsstring :=
  if forallb (fun c => (0x20 <=? c) && (c <=? 0x7e))%N s
  then Ok s
  else Throw LibraryError.

(** ** The library and its laws *)

Definition lib : CryptoLib :=
  Build_CryptoLib js_md5 noble_sha256 noble_cbc noble_ecb saslprep_ascii.

Lemma le_bytes_length (n : nat) (x : Z) : length (le_bytes n x) = n.
Proof. unfold le_bytes. rewrite length_map, length_seq. reflexivity. Qed.

Lemma le_bytes_is_byte (n : nat) (x : Z) : Forall is_byte (le_bytes n x).
Proof.
  unfold le_bytes. apply Forall_forall. intros b Hb.
  apply list_elem_of_In, in_map_iff in Hb. destruct Hb as (k & <- & _).
  unfold is_byte. apply Z.mod_pos_bound. lia.
Qed.

Lemma md5_digest_length (msg : list Z) : length (md5 msg) = 16%nat.
Proof.
  unfold md5. cbv zeta.
  destruct (fold_left md5_block _ _) as [[[a b] c] d].
  rewrite !length_app, !le_bytes_length. reflexivity.
Qed.

Lemma md5_digest_is_byte (msg : list Z) : Forall is_byte (md5 msg).
Proof.
  unfold md5. cbv zeta.
  destruct (fold_left md5_block _ _) as [[[a b] c] d].
  rewrite !Forall_app. repeat split; apply le_bytes_is_byte.
Qed.

Lemma noble_sha256_length (msg : list Z) : length (noble_sha256 msg) = 32%nat.
Proof.
  unfold noble_sha256. cbv zeta.
  set (st := fold_left sha256_block _ _).
  cbn [seq map flat_map]. unfold be_bytes.
  rewrite !length_app, !length_rev, !le_bytes_length. reflexivity.
Qed.

Lemma encrypt_block_length (w : list Z) (Nr : nat) (block : list Z) :
  length (encrypt_block w Nr block) = 16%nat.
Proof.
  unfold encrypt_block, add_round_key. cbv zeta.
  rewrite length_map, length_seq. reflexivity.
Qed.

Lemma cbc_blocks_length (w : list Z) (Nr n : nat) (prev data : list Z) :
  length (cbc_blocks w Nr n prev data) = (n * 16)%nat.
Proof.
  revert prev data. induction n as [|n IH]; intros prev data; [reflexivity |].
  cbn [cbc_blocks]. rewrite length_app, encrypt_block_length, IH. lia.
Qed.

Lemma ecb_blocks_length (w : list Z) (Nr n : nat) (data : list Z) :
  length (ecb_blocks w Nr n data) = (n * 16)%nat.
Proof.
  revert data. induction n as [|n IH]; intros data; [reflexivity |].
  cbn [ecb_blocks]. rewrite length_app, encrypt_block_length, IH. lia.
Qed.

Lemma valid_key_aes (key : list Z) : aes_key_length key -> valid_key key = true.
Proof.
  unfold aes_key_length, valid_key. intros [-> | [-> | ->]]; reflexivity.
Qed.

Lemma whole_blocks (n : nat) : (n mod 16 = 0 -> n / 16 * 16 = n)%nat.
Proof.
  intros H. pose proof (Nat.div_mod_eq n 16). lia.
Qed.

Lemma laws : CryptoLaws lib.
Proof.
  constructor.
  - intros [s | b]; apply md5_digest_length.
  - intros [s | b]; apply md5_digest_is_byte.
  - apply noble_sha256_length.
  - intros key iv data Hk Hiv. cbn [lib cbc_encrypt]. unfold noble_cbc.
    rewrite (valid_key_aes key Hk), Hiv. cbn [Nat.eqb andb]. cbv zeta.
    eexists. split; [reflexivity |].
    rewrite cbc_blocks_length, length_map. reflexivity.
  - intros key iv data Hk Hiv Hd. cbn [lib cbc_encrypt]. unfold noble_cbc.
    rewrite (valid_key_aes key Hk), Hiv. cbn [Nat.eqb andb]. cbv zeta.
    rewrite length_map, Hd. cbn [Nat.eqb].
    eexists. split; [reflexivity |].
    rewrite cbc_blocks_length. apply whole_blocks. exact Hd.
  - intros key data Hk Hd. cbn [lib ecb_encrypt]. unfold noble_ecb.
    rewrite (valid_key_aes key Hk). cbv zeta.
    rewrite length_map, Hd. cbn [Nat.eqb].
    eexists. split; [reflexivity |].
    rewrite ecb_blocks_length. apply whole_blocks. exact Hd.
Qed.

End Reference.

(** * The theorems at concrete documents

    The documents are those of [tests/unit/security.spec.js]: the identifier
    is the bytes 1 to 16, the passwords are 'user', 'owner' and 'test'.  The
    random source yields 3, 10, 17, ... *)

Definition example_document : Document :=
  {| _id := map Z.of_nat (seq 1 16) |}.

Definition example_random : RandomSource :=
  {| tape := fun k => 7 * Z.of_nat k + 3; cursor := 0 |}.

Definition example_options (user owner : option string) (pdf : string)
  : Options :=
  {| ownerPassword := option_map lit owner;
     userPassword := option_map lit user;
     pdfVersion := Some (lit pdf);
     permissions := None |}.

(** PDF 1.3: version 1, revision 2. *)
Definition options_R2 : Options := example_options (Some "test"%string) None "1.3".

(** PDF 1.4: version 2, revision 3. *)
Definition options_R3 : Options :=
  example_options (Some "user"%string) (Some "owner"%string) "1.4".

(** PDF 1.6: version 4, revision 4. *)
Definition options_R4 : Options := example_options (Some "test"%string) None "1.6".

(** PDF 1.7ext3: version 5, revision 5. *)
Definition options_R5 : Options :=
  example_options (Some "user"%string) (Some "owner"%string) "1.7ext3".

Definition options_R5_user_only : Options :=
  example_options (Some "user"%string) None "1.7ext3".

Definition no_security : PDFSecurity :=
  {| version := 0; keyBits := 0; encryptionKey := []; dictionary := [] |}.

(** The handler [new PDFSecurity(document, options)] builds. *)
Definition constructed (options : Options) : PDFSecurity :=
  match PDFSecurity_new (C := Reference.lib) example_document options
          example_random with
  | Ok (security, _) => security
  | Throw _ => no_security
  end.

Definition security_R2 : PDFSecurity :=
  Eval vm_compute in constructed options_R2.
Definition security_R3 : PDFSecurity :=
  Eval vm_compute in constructed options_R3.
Definition security_R4 : PDFSecurity :=
  Eval vm_compute in constructed options_R4.
Definition security_R5 : PDFSecurity :=
  Eval vm_compute in constructed options_R5.
Definition security_R5_user_only : PDFSecurity :=
  Eval vm_compute in constructed options_R5_user_only.

Lemma security_R2_constructed :
  PDFSecurity_new (C := Reference.lib) example_document options_R2
    example_random = Ok (security_R2, example_random).
Proof. vm_compute. reflexivity. Qed.

Lemma security_R3_constructed :
  PDFSecurity_new (C := Reference.lib) example_document options_R3
    example_random = Ok (security_R3, example_random).
Proof. vm_compute. reflexivity. Qed.

Lemma security_R4_constructed :
  PDFSecurity_new (C := Reference.lib) example_document options_R4
    example_random = Ok (security_R4, example_random).
Proof. vm_compute. reflexivity. Qed.

Lemma security_R5_constructed :
  PDFSecurity_new (C := Reference.lib) example_document options_R5
    example_random = Ok (security_R5, advance example_random 68).
Proof. vm_compute. reflexivity. Qed.

Lemma security_R5_user_only_constructed :
  PDFSecurity_new (C := Reference.lib) example_document options_R5_user_only
    example_random = Ok (security_R5_user_only, advance example_random 68).
Proof. vm_compute. reflexivity. Qed.

#[local] Existing Instance Reference.lib.
#[local] Existing Instance Reference.laws.

Lemma security_R4_well_formed : well_formed security_R4.
Proof.
  exact (PDFSecurity_new_well_formed _ _ _ _ _ security_R4_constructed).
Qed.

Lemma security_R2_well_formed : well_formed security_R2.
Proof.
  exact (PDFSecurity_new_well_formed _ _ _ _ _ security_R2_constructed).
Qed.

(** C1 at the PDF 1.6 document: the encryptor of object 1, generation 0. *)
Lemma getEncryptFn_key_witness :
  well_formed security_R4 /\
  version security_R4 = 4 /\
  exists f,
    getEncryptFn security_R4 1 0 example_random
    = Ok (f, advance example_random 16) /\
    forall buffer rs1,
      f buffer rs1 =
        aes_encryptor (object_key_spec security_R4 1 0)
          (next_bytes example_random 16) buffer rs1.
Proof.
  split; [exact security_R4_well_formed |]. split; [reflexivity |].
  exact (proj1 (proj2 (getEncryptFn_key security_R4 1 0 example_random
                         security_R4_well_formed)) eq_refl).
Defined.

(** C2 at the PDF 1.4 document. *)
Lemma getEncryptionKeyR2R3R4_witness :
  0 <= 128 /\
  getEncryptionKeyR2R3R4 3 128 (_id example_document) PASSWORD_PADDING
    PASSWORD_PADDING (-3904)
  = encryption_key_spec 3 128 PASSWORD_PADDING PASSWORD_PADDING (-3904)
      (_id example_document) /\
  version_is options_R3 "1.7ext3" = false /\
  PDFSecurity_new example_document options_R3 example_random
  = Ok (security_R3, example_random) /\
  exists (paddedUserPassword O : Uint8Array) (P : Z),
    processPasswordR2R3R4 (userPassword options_R3) = Ok paddedUserPassword /\
    get_property "O" (dictionary security_R3) = Some (VBuffer O) /\
    get_property "P" (dictionary security_R3) = Some (VNumber P) /\
    encryptionKey security_R3
    = encryption_key_spec 3 128 paddedUserPassword O P (_id example_document).
Proof.
  destruct getEncryptionKeyR2R3R4_correct as [Hfun Hnew].
  split; [lia |].
  split; [apply Hfun; lia |].
  split; [reflexivity |].
  split; [exact security_R3_constructed |].
  destruct (Hnew example_document options_R3 example_random example_random
              security_R3 eq_refl security_R3_constructed)
    as (pu & O & P & Hpu & HO & HP & _ & _ & Hkey).
  exists pu, O, P. repeat split; assumption.
Defined.

(** C3 at the PDF 1.4 document. *)
Lemma getOwnerPasswordR2R3R4_witness :
  0 <= 128 <= 128 /\
  getOwnerPasswordR2R3R4 3 128 PASSWORD_PADDING PASSWORD_PADDING
  = owner_entry_spec 3 128 PASSWORD_PADDING PASSWORD_PADDING /\
  version_is options_R3 "1.7ext3" = false /\
  PDFSecurity_new example_document options_R3 example_random
  = Ok (security_R3, example_random) /\
  exists paddedUserPassword paddedOwnerPassword O : Uint8Array,
    processPasswordR2R3R4 (userPassword options_R3) = Ok paddedUserPassword /\
    processPasswordR2R3R4 (ownerPassword options_R3) = Ok paddedOwnerPassword /\
    get_property "O" (dictionary security_R3) = Some (VBuffer O) /\
    O = owner_entry_spec 3 128 paddedUserPassword paddedOwnerPassword /\
    length O = 32%nat.
Proof.
  destruct getOwnerPasswordR2R3R4_correct as [Hfun Hnew].
  split; [lia |].
  split; [apply Hfun; lia |].
  split; [reflexivity |].
  split; [exact security_R3_constructed |].
  destruct (Hnew example_document options_R3 example_random example_random
              security_R3 eq_refl security_R3_constructed)
    as (pu & po & O & Hpu & Hpo & HO & Hspec & Hlen).
  exists pu, po, O. repeat split; assumption.
Defined.

(** The password of the test 'invalid password character throws'. *)
Definition options_invalid : Options :=
  {| ownerPassword := None;
     userPassword := Some (lit "password" ++ [0x100%N]);
     pdfVersion := Some (lit "1.3");
     permissions := None |}.

(** C4 at the password 'test', and at the password 'passwordĀ', for
    which construction throws. *)
Lemma processPasswordR2R3R4_witness :
  Forall (fun c => (c <= 0xff)%N) (take 32 (lit "test")) /\
  processPasswordR2R3R4 (Some (lit "test"))
  = Ok (code_bytes (lit "test") ++ take 28 PASSWORD_PADDING) /\
  version_is options_invalid "1.7ext3" = false /\
  given (ownerPassword options_invalid) || given (userPassword options_invalid)
  = true /\
  invalid_in_first_32 (userPassword options_invalid) /\
  PDFSecurity_new example_document options_invalid example_random
  = Throw (JsError invalid_password_message).
Proof.
  destruct processPasswordR2R3R4_invalid_password as [Hfun Hnew].
  assert (HF : Forall (fun c => (c <= 0xff)%N) (take 32 (lit "test"))).
  { repeat constructor; discriminate. }
  assert (HE : invalid_in_first_32 (userPassword options_invalid)).
  { unfold invalid_in_first_32. apply Exists_exists. exists 0x100%N.
    split; [| reflexivity].
    apply list_elem_of_In. cbn. repeat (left; reflexivity) || right. }
  split; [exact HF |].
  split; [exact (proj1 (proj2 (Hfun (Some (lit "test"))) HF)) |].
  split; [reflexivity |]. split; [reflexivity |]. split; [exact HE |].
  apply (Hnew example_document options_invalid example_random eq_refl eq_refl).
  left. exact HE.
Defined.

(** The permissions of the test 'low resolution printing'. *)
Definition permissions_low : Permissions :=
  {| printing := JString (lit "lowResolution"); modifying := JUndefined;
     copying := JUndefined; annotating := JUndefined;
     fillingForms := JUndefined; contentAccessibility := JUndefined;
     documentAssembly := JUndefined |}.

(** C8 at those permissions: the value is [0xfffff0c4] as a signed number,
    with bit 3 set and bit 12 clear. *)
Lemma getPermissionsR3_bits_witness :
  printing permissions_low = JString (lit "lowResolution") /\
  getPermissionsR3 (Some permissions_low) = -3900 /\
  Z.testbit (getPermissionsR3 (Some permissions_low)) 2 = true /\
  Z.testbit (getPermissionsR3 (Some permissions_low)) 11 = false.
Proof.
  split; [reflexivity |]. split; [reflexivity |].
  exact (proj1 (proj2 (proj2 (proj2 (proj2
           (getPermissionsR3_bits (Some permissions_low)))))) eq_refl).
Defined.

(** C5 at the PDF 1.6 document: both calls of the returned function yield
    the same bytes, and a single draw of 16 random bytes has been made. *)
Lemma getEncryptFn_iv_witness :
  well_formed security_R4 /\
  (version security_R4 = 4 \/ version security_R4 = 5) /\
  length (next_bytes example_random 16) = 16%nat /\
  exists out,
    encrypt_twice security_R4 1 0 (bytes_of_string "Same content")
      example_random
    = Ok ((out, out), advance example_random 16).
Proof.
  split; [exact security_R4_well_formed |].
  split; [left; reflexivity |].
  destruct (getEncryptFn_iv security_R4 1 0 example_random
              security_R4_well_formed (or_introl eq_refl))
    as (Hiv & _ & Htwice & _).
  split; [exact Hiv |].
  exact (Htwice (bytes_of_string "Same content")).
Defined.

(** C5, as the claim states it, fails: at the PDF 1.6 document two calls of
    the function returned by [getEncryptFn(1, 0)] on the same 12 bytes yield
    the same 16-byte IV prefix, not two different ones. *)
Lemma getEncryptFn_same_iv_twice :
  ~ (forall (first second : Uint8Array) (rs' : RandomSource),
       encrypt_twice security_R4 1 0 (bytes_of_string "Same content")
         example_random = Ok ((first, second), rs') ->
       take 16 first <> take 16 second).
Proof.
  intros H.
  assert (Hrun : exists out rs',
             encrypt_twice security_R4 1 0 (bytes_of_string "Same content")
               example_random = Ok ((out, out), rs')).
  { eexists. eexists. vm_compute. reflexivity. }
  destruct Hrun as (out & rs' & Hrun).
  exact (H out out rs' Hrun eq_refl).
Qed.

(** C6 at the documents of the specification's scenarios: 13 bytes stay 13
    bytes under PDF 1.3, and 17 bytes become 16 + 32 under PDF 1.6. *)
Lemma getEncryptFn_length_witness :
  well_formed security_R2 /\ well_formed security_R4 /\
  (exists f rs' out,
     getEncryptFn security_R2 1 0 example_random = Ok (f, rs') /\
     f (bytes_of_string "Hello, World!") example_random
     = Ok (out, example_random) /\
     length out = 13%nat) /\
  (exists f rs' out,
     getEncryptFn security_R4 1 0 example_random = Ok (f, rs') /\
     f (bytes_of_string "Test data for AES") example_random
     = Ok (out, example_random) /\
     length out = 48%nat).
Proof.
  split; [exact security_R2_well_formed |].
  split; [exact security_R4_well_formed |]. split.
  - destruct (getEncryptFn_length security_R2 1 0 example_random example_random
                (bytes_of_string "Hello, World!") security_R2_well_formed)
      as (f & rs' & out & Hf & Hout & Hrc4 & _).
    exists f, rs', out. split; [exact Hf |]. split; [exact Hout |].
    exact (Hrc4 (or_introl eq_refl)).
  - destruct (getEncryptFn_length security_R4 1 0 example_random example_random
                (bytes_of_string "Test data for AES") security_R4_well_formed)
      as (f & rs' & out & Hf & Hout & _ & Haes).
    exists f, rs', out. split; [exact Hf |]. split; [exact Hout |].
    exact (Haes (or_introl eq_refl)).
Defined.

(** C7 at the PDF 1.7ext3 document. *)
Lemma encryption_dictionary_V5_witness :
  version_is options_R5 "1.7ext3" = true /\
  PDFSecurity_new example_document options_R5 example_random
  = Ok (security_R5, advance example_random 68) /\
  (exists (U O UE OE Perms : Uint8Array),
     get_property "U" (dictionary security_R5) = Some (VBuffer U) /\
     get_property "O" (dictionary security_R5) = Some (VBuffer O) /\
     get_property "UE" (dictionary security_R5) = Some (VBuffer UE) /\
     get_property "OE" (dictionary security_R5) = Some (VBuffer OE) /\
     get_property "Perms" (dictionary security_R5) = Some (VBuffer Perms) /\
     length U = 48%nat /\ length O = 48%nat /\
     length UE = 32%nat /\ length OE = 32%nat /\ length Perms = 16%nat /\
     aesEcbEncrypt
       (le_bytes 4 (-3904) ++ [0xff; 0xff; 0xff; 0xff]
        ++ [0x54; 0x61; 0x64; 0x62] ++ random_at example_random 64 4)
       (encryptionKey security_R5)
     = Ok Perms) /\
  given (ownerPassword options_R5) || given (userPassword options_R5) = true /\
  processPasswordR5 (userPassword options_R5) = Ok (bytes_of_string "user") /\
  processed_owner options_R5 (bytes_of_string "user")
  = Ok (bytes_of_string "owner") /\
  exists security,
    PDFSecurity_new example_document options_R5 example_random
    = Ok (security, advance example_random 68).
Proof.
  destruct (encryption_dictionary_V5 example_document options_R5 example_random
              eq_refl) as [Hinv Hrun].
  split; [reflexivity |].
  split; [exact security_R5_constructed |]. split.
  - destruct (Hinv security_R5 _ security_R5_constructed)
      as (pu & po & U & O & UE & OE & Perms & P & _ & _ & HU & HO & HUE & HOE
          & HPerms & HP & HlU & HlO & HlUE & HlOE & HlP & _ & _ & _
          & randomPart & _ & Hr & Hecb).
    exists U, O, UE, OE, Perms.
    repeat (split; [assumption |]).
    assert (HP' : P = -3904).
    { assert (Hget : get_property "P" (dictionary security_R5)
                     = Some (VNumber (-3904))) by reflexivity.
      rewrite HP in Hget. injection Hget as ->. reflexivity. }
    rewrite <- HP', <- Hr. exact Hecb.
  - split; [reflexivity |]. split; [reflexivity |]. split; [reflexivity |].
    exact (Hrun (bytes_of_string "user") (bytes_of_string "owner")
             eq_refl eq_refl eq_refl).
Defined.

(** The info dictionary of the test 'returns 16-byte Buffer': the creation
    date is 2024-01-01T00:00:00Z. *)
Definition example_info : Info :=
  [(lit "CreationDate", IDate (Some 1704067200000));
   (lit "Title", IString (lit "Test"))].




(** The identifier of that info dictionary: MD5 of the three lines
    "1704067200000", "CreationDate: 1704067200000" and "Title: Test". *)
Example example_file_id :
  result_bind (generateFileID example_info) (fun id => Ok (Reference.hex id))
  = Ok "859b13b5ec2bc50916b8e95ca7c96190"%string.
Proof. vm_compute. reflexivity. Qed.

(** C10 at the PDF 1.6 and PDF 1.7ext3 documents with a user password
    only. *)
Lemma owner_password_defaults_to_user_witness :
  given (ownerPassword options_R4) = false /\
  given (userPassword options_R4) = true /\
  PDFSecurity_new example_document options_R4 example_random
  = PDFSecurity_new example_document (owner_as_user options_R4) example_random /\
  (exists pu : Uint8Array,
     processPasswordR2R3R4 (userPassword options_R4) = Ok pu /\
     get_property "O" (dictionary security_R4)
     = Some (VBuffer (getOwnerPasswordR2R3R4 4 128 pu pu))) /\
  given (ownerPassword options_R5_user_only) = false /\
  given (userPassword options_R5_user_only) = true /\
  (exists pu OE : Uint8Array,
     processPasswordR5 (userPassword options_R5_user_only) = Ok pu /\
     get_property "O" (dictionary security_R5_user_only)
     = Some (VBuffer
               (sha256Hash
                  (pu ++ random_at example_random 48 8
                   ++ U_entry example_random pu)
                ++ random_at example_random 48 8
                ++ random_at example_random 56 8)) /\
     get_property "OE" (dictionary security_R5_user_only)
     = Some (VBuffer OE)).
Proof.
  destruct (owner_password_defaults_to_user example_document options_R4
              example_random eq_refl eq_refl) as [Heq Hinv].
  destruct (owner_password_defaults_to_user example_document
              options_R5_user_only example_random eq_refl eq_refl)
    as [_ Hinv5].
  split; [reflexivity |]. split; [reflexivity |]. split; [exact Heq |].
  split.
  { destruct (proj1 (Hinv security_R4 _ security_R4_constructed) eq_refl)
      as (pu & Hpu & HO).
    exists pu. split; [exact Hpu | exact HO]. }
  split; [reflexivity |]. split; [reflexivity |].
  destruct (proj2 (Hinv5 security_R5_user_only _
                     security_R5_user_only_constructed) eq_refl)
    as (pu & OE & Hpu & HO & HOE & _).
  exists pu, OE. repeat split; assumption.
Defined.

(** ** The further properties at the documents above *)

(** A check of byte arrays that computes. *)
Lemma bytes_checked (l : Uint8Array) :
  forallb (fun b => (0 <=? b) && (b <? 256)) l = true -> Forall is_byte l.
Proof.
  intros H. apply Forall_forall. intros b Hb.
  rewrite forallb_forall in H. apply list_elem_of_In, H in Hb.
  apply andb_true_iff in Hb as [H0 H1].
  apply Z.leb_le in H0. apply Z.ltb_lt in H1. split; assumption.
Qed.

(** The round trip at the vector of the test with key 'Key'. *)
Lemma rc4_round_trip_witness :
  Forall is_byte (bytes_of_string "Plaintext") /\
  length (rc4 (bytes_of_string "Plaintext") (bytes_of_string "Key"))
  = length (bytes_of_string "Plaintext") /\
  rc4 (rc4 (bytes_of_string "Plaintext") (bytes_of_string "Key"))
    (bytes_of_string "Key")
  = bytes_of_string "Plaintext".
Proof.
  assert (H : Forall is_byte (bytes_of_string "Plaintext")).
  { apply bytes_checked. vm_compute. reflexivity. }
  split; [exact H |].
  exact (rc4_round_trip (bytes_of_string "Plaintext") (bytes_of_string "Key") H).
Defined.

(** Padding the password 'test' twice. *)
Lemma processPasswordR2R3R4_idempotent_witness :
  processPasswordR2R3R4 (Some (lit "test"))
  = Ok (code_bytes (lit "test") ++ take 28 PASSWORD_PADDING) /\
  processPasswordR2R3R4
    (Some (string_of_bytes (code_bytes (lit "test") ++ take 28 PASSWORD_PADDING)))
  = Ok (code_bytes (lit "test") ++ take 28 PASSWORD_PADDING).
Proof.
  assert (H : processPasswordR2R3R4 (Some (lit "test"))
              = Ok (code_bytes (lit "test") ++ take 28 PASSWORD_PADDING))
    by reflexivity.
  split; [exact H |].
  exact (proj2 (proj2 (processPasswordR2R3R4_idempotent _ _ H))).
Defined.

(** The PDF 1.4 document is built without a random byte. *)
Lemma construction_draws_nothing_witness :
  version_is options_R3 "1.7ext3" = false /\
  PDFSecurity_new example_document options_R3 (advance example_random 5)
  = Ok (security_R3, advance example_random 5).
Proof.
  split; [reflexivity |].
  pose proof (construction_draws_nothing example_document options_R3
                example_random (advance example_random 5) eq_refl) as H.
  rewrite security_R3_constructed in H. exact (proj2 H).
Defined.

(** The parameters of the PDF 1.6 document. *)
Lemma encryption_parameters_witness :
  PDFSecurity_new example_document options_R4 example_random
  = Ok (security_R4, example_random) /\
  version security_R4 = 4 /\
  get_property "V" (dictionary security_R4) = Some (VNumber 4) /\
  keyBits security_R4 = 128 /\
  version_entries (dictionary security_R4) 4 (Some 128)
    (Some (crypt_filter "AESV2" 128)).
Proof.
  split; [exact security_R4_constructed |].
  destruct (encryption_parameters example_document options_R4 example_random
              example_random security_R4 security_R4_constructed)
    as (Hv & HV & Hcases).
  split; [exact Hv |]. split; [exact HV |].
  destruct Hcases as [[Hc _] | [[Hc _] | [[_ Hc] | [Hc _]]]];
    [discriminate Hc | discriminate Hc | exact Hc | discriminate Hc].
Defined.

(** The user entry of revisions 3 and 4 at the file key of the PDF 1.4
    document. *)
Lemma getUserPasswordR3R4_round_trip_witness :
  Forall is_byte (encryptionKey security_R3) /\
  exists U : Uint8Array,
    getUserPasswordR3R4 (_id example_document) (encryptionKey security_R3)
    = Ok U /\
    length U = 32%nat /\
    drop 16 U = replicate 16 0 /\
    rc4_rounds (round_keys (encryptionKey security_R3) (rev (seq 0 20)))
      (take 16 U)
    = MD5 (PASSWORD_PADDING ++ _id example_document).
Proof.
  assert (H : Forall is_byte (encryptionKey security_R3)).
  { apply bytes_checked. vm_compute. reflexivity. }
  split; [exact H |].
  destruct (getUserPasswordR3R4_round_trip (_id example_document)
              (encryptionKey security_R3) H)
    as (U & HU & Hl & _ & Hz & Hr).
  exists U. repeat split; assumption.
Defined.

(** The owner entry of revision 3 for the padding constant as both padded
    passwords. *)
Lemma getOwnerPasswordR2R3R4_round_trip_witness :
  0 <= 128 <= 128 /\
  Forall is_byte PASSWORD_PADDING /\
  let O := getOwnerPasswordR2R3R4 3 128 PASSWORD_PADDING PASSWORD_PADDING in
  let key :=
    take (Z.to_nat (128 / 8))
      (Nat.iter (if 3 <=? 3 then 51%nat else 1%nat) MD5 PASSWORD_PADDING) in
  (if 3 <=? 3 then rc4_rounds (round_keys key (rev (seq 0 20))) O
   else rc4 O key)
  = PASSWORD_PADDING.
Proof.
  assert (Hk : 0 <= 128 <= 128) by lia.
  split; [exact Hk |]. split; [exact PASSWORD_PADDING_bytes |].
  exact (getOwnerPasswordR2R3R4_round_trip 3 128 PASSWORD_PADDING
           PASSWORD_PADDING Hk PASSWORD_PADDING_bytes).
Defined.

(** The encryptor of object 1 of the PDF 1.3 document decrypts what it
    encrypts. *)
Lemma getEncryptFn_rc4_round_trip_witness :
  (version security_R2 = 1 \/ version security_R2 = 2) /\
  0 <= keyBits security_R2 /\
  exists f,
    getEncryptFn security_R2 1 0 example_random = Ok (f, example_random) /\
    exists out,
      f (bytes_of_string "Hello, World!") example_random
      = Ok (out, example_random) /\
      f out example_random
      = Ok (bytes_of_string "Hello, World!", example_random).
Proof.
  assert (Hv : version security_R2 = 1 \/ version security_R2 = 2)
    by (left; reflexivity).
  assert (Hk : 0 <= keyBits security_R2) by (vm_compute; discriminate).
  split; [exact Hv |]. split; [exact Hk |].
  destruct (getEncryptFn_rc4_round_trip security_R2 1 0 example_random Hv Hk)
    as (f & Hf & Hcall).
  exists f. split; [exact Hf |].
  destruct (Hcall (bytes_of_string "Hello, World!") example_random)
    as (out & Hout & _ & Hback).
  { apply bytes_checked. vm_compute. reflexivity. }
  exists out. split; assumption.
Defined.

(** The file key of the PDF 1.7ext3 document. *)
Lemma encryption_key_wrapped_V5_witness :
  version_is options_R5 "1.7ext3" = true /\
  PDFSecurity_new example_document options_R5 example_random
  = Ok (security_R5, advance example_random 68) /\
  encryptionKey security_R5 = next_bytes example_random 32 /\
  exists U UE : Uint8Array,
    get_property "U" (dictionary security_R5) = Some (VBuffer U) /\
    get_property "UE" (dictionary security_R5) = Some (VBuffer UE) /\
    take 32 U = sha256Hash (bytes_of_string "user" ++ slice U 32 40) /\
    aesCbcEncrypt (encryptionKey security_R5)
      (sha256Hash (bytes_of_string "user" ++ slice U 40 48))
      (replicate 16 0) false
    = Ok UE.
Proof.
  split; [reflexivity |]. split; [exact security_R5_constructed |].
  destruct (encryption_key_wrapped_V5 example_document options_R5
              example_random (advance example_random 68) security_R5
              eq_refl security_R5_constructed)
    as (Hkey & _ & pu & po & U & O & UE & OE & Hpu & _ & HU & HUE & _ & _
        & Hh & Hw & _).
  split; [exact Hkey |].
  assert (Hp : pu = bytes_of_string "user").
  { apply Ok_inj. rewrite <- Hpu. vm_compute. reflexivity. }
  rewrite Hp in Hh, Hw.
  exists U, UE. repeat split; assumption.
Defined.

(** The file key of the PDF 1.3 document. *)
Lemma encryption_key_invariant_witness :
  PDFSecurity_new example_document options_R2 example_random
  = Ok (security_R2, example_random) /\
  Forall is_byte (encryptionKey security_R2) /\
  length (encryptionKey security_R2) = 5%nat.
Proof.
  split; [exact security_R2_constructed |].
  destruct (encryption_key_invariant example_document options_R2
              example_random example_random security_R2
              security_R2_constructed) as (Hb & _ & Hl).
  split; [exact Hb | exact Hl].
Defined.

(** The user entry of the PDF 1.3 document. *)
Lemma user_entry_proves_key_witness :
  version_is options_R2 "1.7ext3" = false /\
  PDFSecurity_new example_document options_R2 example_random
  = Ok (security_R2, example_random) /\
  exists U : Uint8Array,
    get_property "U" (dictionary security_R2) = Some (VBuffer U) /\
    length U = 32%nat /\
    rc4 U (encryptionKey security_R2) = PASSWORD_PADDING.
Proof.
  split; [reflexivity |]. split; [exact security_R2_constructed |].
  destruct (user_entry_proves_key example_document options_R2 example_random
              example_random security_R2 eq_refl security_R2_constructed)
    as (U & HU & Hl & H1 & _).
  exists U. split; [exact HU |]. split; [exact Hl |].
  apply H1. reflexivity.
Defined.

(** ** The JPEG properties at small files *)

(** An APP0 segment behind two zero bytes, and a frame of 100 by 200 pixels
    with 3 channels. *)
Definition example_segment : JPEG.Segment :=
  {| JPEG.seg_padding := [0; 0]%N; JPEG.seg_marker := 0xe0%N;
     JPEG.seg_length_high := 0%N; JPEG.seg_length_low := 4%N;
     JPEG.seg_payload := [1; 2]%N |}.

Lemma JPEG_new_reads_frame_witness :
  Forall JPEG.passed_over [example_segment] /\
  JPEG.is_frame_marker (0xff * 256 + 0xc0) = true /\
  JPEG.JPEG_new
    [0xff; 0xd8; 0; 0; 0xff; 0xe0; 0; 4; 1; 2;
     0xff; 0xc0; 0; 11; 8; 0; 100; 0; 200; 3; 1; 2; 3; 4; 5; 6]%N
  = Some (JPEG.Return
            {| JPEG.orientation := 1; JPEG.bits := Some 8%N;
               JPEG.height := 100; JPEG.width := 200;
               JPEG.colorSpace := Some "DeviceRGB"%string |}).
Proof.
  assert (Hs : Forall JPEG.passed_over [example_segment]).
  { repeat constructor; discriminate. }
  assert (Hm : JPEG.is_frame_marker (0xff * 256 + 0xc0) = true) by reflexivity.
  split; [exact Hs |]. split; [exact Hm |].
  destruct (JPEG.JPEG_new_reads_frame [example_segment] [] [1; 2; 3; 4; 5; 6]%N
              0xc0 0 11 8 0 100 0 200 3 Hs (List.Forall_nil _) Hm)
    as (r & Hr & Hnew).
  assert (Hn : r = None).
  { vm_compute in Hr. injection Hr as <-. reflexivity. }
  rewrite Hn in Hnew. exact Hnew.
Defined.

(** A little-endian EXIF segment whose second entry is the orientation 6. *)
Definition example_entry (tagLow value : N) : JPEG.IfdEntry :=
  {| JPEG.tag_high := 1; JPEG.tag_low := tagLow;
     JPEG.type_high := 0; JPEG.type_low := 3;
     JPEG.count0 := 1; JPEG.count1 := 0; JPEG.count2 := 0; JPEG.count3 := 0;
     JPEG.value_high := 0; JPEG.value_low := value;
     JPEG.fill0 := 0; JPEG.fill1 := 0 |}.

Lemma parseExifOrientation_reads_exif_witness :
  Forall (fun x => (JPEG.tag_high x * 256 + JPEG.tag_low x)%N <> 0x0112%N)
    [example_entry 0x0f 2] /\
  (length [example_entry 0x0f 2] < N.to_nat (0 * 256 + 2))%nat /\
  JPEG.parseExifOrientation
    ([0xff; 0xd8; 0xff; 0xe1; 0; 34]%N ++ JPEG.exif_header
     ++ JPEG.tiff_header true ++ JPEG.u16 true 0 2
     ++ JPEG.entries_bytes true [example_entry 0x0f 2]
     ++ JPEG.entry_bytes true (example_entry 0x12 6) ++ [0; 0; 0; 0]%N)
  = Some (JPEG.Return (Some 6%N)).
Proof.
  assert (Hb : Forall
                 (fun x => (JPEG.tag_high x * 256 + JPEG.tag_low x)%N
                           <> 0x0112%N) [example_entry 0x0f 2]).
  { repeat constructor. discriminate. }
  assert (Hc : (length [example_entry 0x0f 2] < N.to_nat (0 * 256 + 2))%nat).
  { vm_compute. lia. }
  split; [exact Hb |]. split; [exact Hc |].
  exact (JPEG.parseExifOrientation_reads_exif true 0 34 0 2
           [example_entry 0x0f 2] (example_entry 0x12 6) [0; 0; 0; 0]%N
           Hb eq_refl Hc).
Defined.

(** A file that ends three bytes behind the frame marker. *)
Lemma JPEG_new_truncated_witness :
  Forall (fun b => b <> 0xff%N) [0; 0]%N /\
  JPEG.JPEG_new [0xff; 0xd8; 0; 0]%N
  = Some (JPEG.Raise (JPEG.ThrownString "Invalid JPEG.")) /\
  JPEG.JPEG_new [0xff; 0xd8; 0; 0; 0xff]%N = Some (JPEG.Raise JPEG.OutOfRange) /\
  JPEG.JPEG_new [0xff; 0xd8; 0; 0; 0xff; 0xc0; 0; 11; 8]%N
  = Some (JPEG.Raise JPEG.OutOfRange).
Proof.
  assert (Hp : Forall (fun b => b <> 0xff%N) [0; 0]%N).
  { repeat constructor; discriminate. }
  destruct (JPEG.JPEG_new_truncated [0; 0]%N [0; 11; 8]%N 0xc0 Hp)
    as (H1 & H2 & H3).
  split; [exact Hp |]. split; [exact H1 |]. split; [exact H2 |].
  apply H3; [reflexivity | cbn; lia].
Defined.

(** A user password of 33 characters, the last of them U+0100, and the
    password of its first 32 characters. *)
Definition options_long : Options :=
  {| ownerPassword := None;
     userPassword := Some (replicate 32 97%N ++ [0x100%N]);
     pdfVersion := Some (lit "1.4");
     permissions := None |}.

Lemma passwords_cut_at_32_witness :
  version_is options_long "1.7ext3" = false /\
  userPassword (truncate_passwords options_long) = Some (replicate 32 97%N) /\
  PDFSecurity_new example_document (truncate_passwords options_long)
    example_random
  = PDFSecurity_new example_document options_long example_random.
Proof.
  split; [reflexivity |]. split; [reflexivity |].
  exact (passwords_cut_at_32 example_document options_long example_random
           eq_refl).
Defined.
